(** * PQ tracker: invoice extractor, records view, storage client, date helpers

    A shallow embedding of the TypeScript sources of the PQ certification
    tracker, and the properties of its specification stated over it.

    Conventions of the embedding.
    - A JavaScript string is a [string] of the Standard Library.  The model
      is exact for ASCII text: whitespace is the six ASCII white-space
      characters, case mapping acts on [A-Z] and [a-z].  The constant log
      messages carry the UTF-8 bytes of their pictograms.
    - A plain JavaScript object with string keys is an association list in
      insertion order ([JsObject]): [Object.entries] and [Object.keys]
      enumerate it in that order, an assignment to an existing key keeps the
      key's position.
    - React state setters are explicit state passing: every handler is a
      function from the state it reads to the state it leaves.
    - [Date.now()] is an explicit argument.
    - A number is a double of integral value or [NaN]; an integer read
      from text is rounded to the 53 bits a double holds.
    - [Array.prototype.sort] is modelled by a stable insertion sort; what
      is stated about the order of a sorted list assumes a comparator that
      is consistent on the list. *)

From Stdlib Require Import Bool Arith ZArith Lia List Ascii String.
From Stdlib Require Import QArith Permutation Sorted DecimalString.
From Stdlib Require OrderedTypeEx DecimalNat.
Import ListNotations.

Local Close Scope Q_scope.
Local Open Scope nat_scope.

Local Open Scope list_scope.
Local Open Scope string_scope.

(* ================================================================== *)
(** ** JavaScript strings *)
(* ================================================================== *)

Module JsString.

Definition code (c : ascii) : nat := nat_of_ascii c.

Definition in_range (lo hi : nat) (c : ascii) : bool :=
  (lo <=? code c)%nat && (code c <=? hi)%nat.

(** White space removed by [String.prototype.trim] (ASCII part). *)
Definition is_ws (c : ascii) : bool :=
  in_range 9 13 c || (code c =? 32)%nat.

Definition is_upper (c : ascii) : bool := in_range 65 90 c.
Definition is_lower (c : ascii) : bool := in_range 97 122 c.
Definition is_digit (c : ascii) : bool := in_range 48 57 c.

Definition is_empty (s : string) : bool :=
  match s with EmptyString => true | String _ _ => false end.

Fixpoint trimStart (s : string) : string :=
  match s with
  | EmptyString => EmptyString
  | String c s' => if is_ws c then trimStart s' else s
  end.

Fixpoint trimEnd (s : string) : string :=
  match s with
  | EmptyString => EmptyString
  | String c s' =>
      let t := trimEnd s' in
      if is_ws c && is_empty t then EmptyString else String c t
  end.

Definition trim (s : string) : string := trimEnd (trimStart s).

Definition lower_char (c : ascii) : ascii :=
  if is_upper c then ascii_of_nat (code c + 32) else c.

Definition upper_char (c : ascii) : ascii :=
  if is_lower c then ascii_of_nat (code c - 32) else c.

Fixpoint map_chars (f : ascii -> ascii) (s : string) : string :=
  match s with
  | EmptyString => EmptyString
  | String c s' => String (f c) (map_chars f s')
  end.

Definition toLowerCase : string -> string := map_chars lower_char.
Definition toUpperCase : string -> string := map_chars upper_char.

(** [s.includes(needle)] *)
Fixpoint includes (s needle : string) : bool :=
  if prefix needle s then true
  else match s with
       | EmptyString => false
       | String _ s' => includes s' needle
       end.

(** [s.indexOf(needle)], counting from position [i]; -1 when absent. *)
Fixpoint indexOf_from (i : Z) (s needle : string) : Z :=
  if prefix needle s then i
  else match s with
       | EmptyString => (-1)%Z
       | String _ s' => indexOf_from (i + 1)%Z s' needle
       end.

Definition indexOf (s needle : string) : Z := indexOf_from 0%Z s needle.

Fixpoint take (n : nat) (s : string) : string :=
  match n, s with
  | S n', String c s' => String c (take n' s')
  | _, _ => EmptyString
  end.

Fixpoint drop (n : nat) (s : string) : string :=
  match n, s with
  | S n', String _ s' => drop n' s'
  | _, _ => s
  end.

(** [s.substring(0, idx)] for a non-negative [idx]. *)
Definition substring0 (idx : Z) (s : string) : string := take (Z.to_nat idx) s.

Fixpoint all_in (cls : ascii -> bool) (s : string) : bool :=
  match s with
  | EmptyString => true
  | String c s' => cls c && all_in cls s'
  end.

(** Text made of ASCII characters only.  On such text [toLowerCase] and
    [toUpperCase] above are the mappings of JavaScript; on other text
    JavaScript maps further letters (and may change the length), which the
    two functions do not follow. *)
Definition is_ascii (s : string) : bool :=
  all_in (fun c => (code c <? 128)%nat) s.

(** [sub] occurs in [s] as a contiguous piece. *)
Definition Infix (sub s : string) : Prop :=
  exists pre post, s = pre ++ sub ++ post.

(** Decimal rendering of a natural number, as in a template literal. *)
Definition of_nat (n : nat) : string :=
  NilZero.string_of_uint (Nat.to_uint n).

(** The double-quote character of the template literals. *)
Definition dq : string := String (ascii_of_nat 34) EmptyString.

(** [s.endsWith(suffix)] *)
Fixpoint endsWith (s suffix : string) : bool :=
  (s =? suffix)%string
  || match s with
     | EmptyString => false
     | String _ s' => endsWith s' suffix
     end.

End JsString.

Import JsString.

(* ================================================================== *)
(** ** Regular expressions: sequences of quantified character classes *)
(* ================================================================== *)

Module Regex.

(** One quantified class, [cls{lo,hi}]; [at_most = None] is unbounded. *)
Record Atom := mkAtom {
  accepts : ascii -> bool;
  at_least : nat;
  at_most : option nat
}.

Definition Pattern := list Atom.

Definition within (cap : option nat) (n : nat) : Prop :=
  match cap with Some m => (n <= m)%nat | None => True end.

(** Length of the longest run of class characters at the head of [s],
    not beyond the cap: what a greedy quantifier consumes first. *)
Fixpoint run_length (cls : ascii -> bool) (cap : option nat) (s : string) : nat :=
  match s with
  | EmptyString => 0
  | String c s' =>
      if cls c then
        match cap with
        | Some 0 => 0
        | Some (S m) => S (run_length cls (Some m) s')
        | None => S (run_length cls None s')
        end
      else 0
  end.

(** Backtracking: try [k] repetitions, then [k-1], down to [lo]. *)
Fixpoint try_counts {R} (k lo : nat) (f : nat -> option R) : option R :=
  match f k with
  | Some r => Some r
  | None =>
      match k with
      | 0 => None
      | S k' => if (lo <=? k')%nat then try_counts k' lo f else None
      end
  end.

(** The text matched by the pattern anchored at the head of [s]. *)
Fixpoint match_here (p : Pattern) (s : string) : option string :=
  match p with
  | [] => Some EmptyString
  | a :: p' =>
      let k := run_length (accepts a) (at_most a) s in
      if (k <? at_least a)%nat then None
      else try_counts k (at_least a)
             (fun j => match match_here p' (drop j s) with
                       | Some m => Some (take j s ++ m)
                       | None => None
                       end)
  end.

(** [s.match(re)] without the [g] flag: the leftmost match. *)
Fixpoint search (p : Pattern) (s : string) : option string :=
  match match_here p s with
  | Some m => Some m
  | None =>
      match s with
      | EmptyString => None
      | String _ s' => search p s'
      end
  end.

(** Declarative reading: the whole of a string matches the pattern. *)
Inductive Matches : Pattern -> string -> Prop :=
| Matches_nil : Matches [] EmptyString
| Matches_cons a p s1 s2 :
    all_in (accepts a) s1 = true ->
    (at_least a <= length s1)%nat ->
    within (at_most a) (length s1) ->
    Matches p s2 ->
    Matches (a :: p) (s1 ++ s2).

Definition one (c : ascii) : Atom :=
  mkAtom (fun x => Ascii.eqb x c) 1 (Some 1).

End Regex.

Import Regex.

(* ================================================================== *)
(** ** JavaScript values and plain objects *)
(* ================================================================== *)

Module Js.

(** A value of type [number], as far as this program produces one: an
    integer, or [NaN]. *)
Inductive number :=
| Finite (z : Z)
| NaN.

(** The double nearest to an integer, ties to the even significand: a
    number is held with 53 significant bits, so an integer of magnitude up
    to [2^53] is kept and a larger one is rounded.  (Magnitudes from
    [2^1024] on, which a double holds as [Infinity], are outside the
    model.) *)
Definition to_double (z : Z) : Z :=
  let a := Z.abs z in
  let e := (Z.log2 a + 1 - 53)%Z in
  if (e <=? 0)%Z then z
  else
    let q := Z.shiftr a e in
    let r := (a - Z.shiftl q e)%Z in
    let half := Z.shiftl 1 (e - 1) in
    let q' :=
      if (half <? r)%Z || ((half =? r)%Z && Z.odd q) then (q + 1)%Z else q in
    (Z.sgn z * Z.shiftl q' e)%Z.

Inductive JsValue :=
| JUndefined
| JBool (b : bool)
| JNumber (n : number)
| JString (s : string)
| JArray (items : list string).

(** [!!v] *)
Definition truthy (v : JsValue) : bool :=
  match v with
  | JUndefined => false
  | JBool b => b
  | JNumber (Finite n) => negb (n =? 0)%Z
  | JNumber NaN => false
  | JString s => negb (is_empty s)
  | JArray _ => true
  end.

(** [a === b].  [NaN] equals nothing; two arrays are never the same
    reference here, since the values compared in this program come from
    different sources. *)
Definition strict_eq (a b : JsValue) : bool :=
  match a, b with
  | JUndefined, JUndefined => true
  | JBool x, JBool y => Bool.eqb x y
  | JNumber (Finite x), JNumber (Finite y) => (x =? y)%Z
  | JString x, JString y => (x =? y)%string
  | _, _ => false
  end.

(** Truthiness of an optional string property: absent and empty are falsy. *)
Definition present (o : option string) : bool :=
  match o with
  | Some s => negb (is_empty s)
  | None => false
  end.

End Js.

Module JsObject.

Definition t (V : Type) := list (string * V).

Definition empty {V} : t V := [].

Fixpoint get {V} (o : t V) (k : string) : option V :=
  match o with
  | [] => None
  | (k', v) :: rest => if (k' =? k)%string then Some v else get rest k
  end.

(** [o[k] = v]: overwrite in place, or append a new key. *)
Fixpoint set {V} (k : string) (v : V) (o : t V) : t V :=
  match o with
  | [] => [(k, v)]
  | (k', v') :: rest =>
      if (k' =? k)%string then (k, v) :: rest else (k', v') :: set k v rest
  end.

(** [delete o[k]] *)
Fixpoint remove {V} (k : string) (o : t V) : t V :=
  match o with
  | [] => []
  | (k', v') :: rest =>
      if (k' =? k)%string then remove k rest else (k', v') :: remove k rest
  end.

Definition keys {V} (o : t V) : list string := map fst o.
Definition entries {V} (o : t V) : list (string * V) := o.

End JsObject.

(** A [for] loop whose body may [break]: the body returns the new state and
    whether it executed [break]. *)
Fixpoint for_break {A St : Type} (xs : list A) (body : A -> St -> St * bool)
    (st : St) : St :=
  match xs with
  | [] => st
  | x :: rest =>
      let '(st', stop) := body x st in
      if stop then st' else for_break rest body st'
  end.

(** [for (let i = lo; i <= hi; i++)] as the list of its indices. *)
Definition range_incl (lo hi : nat) : list nat := seq lo (S hi - lo).

(* ================================================================== *)
(** ** The spreadsheet grid (what SheetJS hands to the extractor) *)
(* ================================================================== *)

Module Sheet.

(** A value of [sheet_to_json(..., {header: 1, defval: ''})]. *)
Inductive CellValue :=
| CellText (s : string)
| CellNumber (n : Z)
| CellBool (b : bool).

Definition truthy (v : CellValue) : bool :=
  match v with
  | CellText s => negb (is_empty s)
  | CellNumber n => negb (n =? 0)%Z
  | CellBool b => b
  end.

Definition toString (v : CellValue) : string :=
  match v with
  | CellText s => s
  | CellNumber n => NilZero.string_of_int (Z.to_int n)
  | CellBool true => "true"
  | CellBool false => "false"
  end.

Record Range := mkRange { s_r : nat; s_c : nat; e_r : nat; e_c : nat }.

Record Worksheet := mkWorksheet {
  sheetName : string;
  range : Range;
  jsonData : list (list CellValue)
}.

(** [XLSX.utils.encode_col]: bijective base 26 over the letters A..Z. *)
Fixpoint encode_col_loop (fuel col : nat) (acc : string) : string :=
  match fuel with
  | 0 => acc
  | S fuel' =>
      if (col =? 0)%nat then acc
      else encode_col_loop fuel' ((col - 1) / 26)
             (String (ascii_of_nat ((col - 1) mod 26 + 65)) acc)
  end.

Definition encode_col (c : nat) : string :=
  encode_col_loop (S c) (S c) EmptyString.

(** [XLSX.utils.encode_cell({r, c})], the A1-style address. *)
Definition encode_cell (r c : nat) : string :=
  encode_col c ++ of_nat (r + 1).

End Sheet.

(* ================================================================== *)
(** ** Records and the storage client *)
(* ================================================================== *)

Module Types.

Record PQRecord := mkPQRecord {
  id : string;
  date : string;
  shipper_name : string;
  buyer : string;
  invoice_number : string;
  commodity : string;
  shipping_bill_received : bool;
  pq_status : string;
  pq_hardcopy : string;
  permit_copy_status : string;
  destination_port : string;
  remarks : string;
  files : list string;
  created_at : string;
  updated_at : string
}.

End Types.

Module Storage.

Import Js.

(** The digits at the head of a string, read as a decimal number. *)
Fixpoint leading_digits (acc : Z) (s : string) : Z :=
  match s with
  | EmptyString => acc
  | String c s' =>
      if is_digit c
      then leading_digits (10 * acc + Z.of_nat (code c - 48)) s'
      else acc
  end.

Definition starts_with_digit (s : string) : bool :=
  match s with
  | String c _ => is_digit c
  | EmptyString => false
  end.

(** [parseInt(s, 10)]: leading white space, an optional sign, then the
    decimal digits; [NaN] when there is no digit.  The result is a double:
    the number the digits spell, rounded when it needs more than 53
    bits. *)
Definition parseInt10 (s : string) : JsValue :=
  let t := trimStart s in
  let '(sign, body) :=
    match t with
    | String "-"%char r => ((-1)%Z, r)
    | String "+"%char r => (1%Z, r)
    | _ => (1%Z, t)
    end in
  if starts_with_digit body
  then JNumber (Finite (to_double (sign * leading_digits 0 body)))
  else JNumber NaN.

(** Helper function to ensure invoice number is a number *)
Definition ensureNumber (value : JsValue) : JsValue :=
  match value with
  | JNumber n => JNumber n
  | JString s => parseInt10 s
  | _ => JNumber (Finite 0)
  end.

(** The object handed to [.insert(...)] and [.update(...)]. *)
Definition payload (record : Types.PQRecord) : JsObject.t JsValue :=
  [ ("date", JString (Types.date record));
    ("shipper_name", JString (Types.shipper_name record));
    ("buyer", JString (Types.buyer record));
    ("invoice_number", ensureNumber (JString (Types.invoice_number record)));
    ("commodity", JString (Types.commodity record));
    ("shipping_bill_received", JBool (Types.shipping_bill_received record));
    ("pq_status", JString (Types.pq_status record));
    ("pq_hardcopy", JString (Types.pq_hardcopy record));
    ("permit_copy_status", JString (Types.permit_copy_status record));
    ("destination_port", JString (Types.destination_port record));
    ("remarks", JString (Types.remarks record));
    ("files", JArray (Types.files record));
    ("created_at", JString (Types.created_at record));
    ("updated_at", JString (Types.updated_at record)) ].

(** A request sent to the [pq_records] table through the client. *)
Inductive Request :=
| Insert (row : JsObject.t JsValue)
| UpdateWhereId (id : string) (row : JsObject.t JsValue).

Definition savePQRecord (record : Types.PQRecord) : Request :=
  Insert (payload record).

Definition updatePQRecord (id : string) (record : Types.PQRecord) : Request :=
  UpdateWhereId id (payload record).

(** The value a request carries for a column. *)
Definition sent (req : Request) (column : string) : option JsValue :=
  match req with
  | Insert row => JsObject.get row column
  | UpdateWhereId _ row => JsObject.get row column
  end.

(** The remote table changes only by executing requests; [exec] is the
    service's own semantics, left arbitrary. *)
Definition run {Table : Type} (exec : Request -> Table -> Table)
    (reqs : list Request) (table : Table) : Table :=
  fold_left (fun tb rq => exec rq tb) reqs table.

End Storage.

(* ================================================================== *)
(** ** PQEntryForm: form state, invoice extractor, submission *)
(* ================================================================== *)

Module PQEntryForm.

Import Js Sheet.

(** [Pick<PQRecord, Exclude<keyof PQRecord, 'id'>>] *)
Record FormData := mkFormData {
  date : string;
  shipper_name : string;
  buyer : string;
  invoice_number : string;
  commodity : string;
  shipping_bill_received : bool;
  pq_status : string;
  pq_hardcopy : string;
  permit_copy_status : string;
  destination_port : string;
  remarks : string;
  files : list string;
  created_at : string;
  updated_at : string
}.

(** Assignment of one string-valued property, as the object spread
    [{...prev, ...extractedData}] does key by key.  A key that is not a
    property of the form state leaves the typed state as it is. *)
Definition assign (k v : string) (f : FormData) : FormData :=
  let pick name old := if (k =? name)%string then v else old in
  {| date := pick "date" (date f);
     shipper_name := pick "shipper_name" (shipper_name f);
     buyer := pick "buyer" (buyer f);
     invoice_number := pick "invoice_number" (invoice_number f);
     commodity := pick "commodity" (commodity f);
     shipping_bill_received := shipping_bill_received f;
     pq_status := pick "pq_status" (pq_status f);
     pq_hardcopy := pick "pq_hardcopy" (pq_hardcopy f);
     permit_copy_status := pick "permit_copy_status" (permit_copy_status f);
     destination_port := pick "destination_port" (destination_port f);
     remarks := pick "remarks" (remarks f);
     files := files f;
     created_at := pick "created_at" (created_at f);
     updated_at := pick "updated_at" (updated_at f) |}.

Definition spread (prev : FormData) (o : JsObject.t string) : FormData :=
  fold_left (fun f kv => assign (fst kv) (snd kv) f) (JsObject.entries o) prev.

(** *** extractInvoiceNumber *)

(** [/([A-Z]{2,4}\/\d+\/\d{4}-\d{2})/] *)
Definition invoice_re : Pattern :=
  [ mkAtom is_upper 2 (Some 4);
    one "/"%char;
    mkAtom is_digit 1 None;
    one "/"%char;
    mkAtom is_digit 4 (Some 4);
    one "-"%char;
    mkAtom is_digit 2 (Some 2) ].

Definition dateIndicators : list string :=
  ["DT:"; "DATE:"; "dt:"; "date:"; " DT"; " DATE"].

(** The loop over the date indicators, returning at the first one found
    at a positive index. *)
Fixpoint cut_at_indicator (cleanText : string) (indicators : list string)
    : option string :=
  match indicators with
  | [] => None
  | indicator :: rest =>
      let index := indexOf cleanText indicator in
      if (0 <? index)%Z then Some (trim (substring0 index cleanText))
      else cut_at_indicator cleanText rest
  end.

Definition extractInvoiceNumber (text : string) : string :=
  let cleanText := trim text in
  match search invoice_re cleanText with
  | Some invoiceMatch => invoiceMatch
  | None =>
      match cut_at_indicator cleanText dateIndicators with
      | Some cut => cut
      | None => cleanText
      end
  end.

(** *** The cell map *)

Record Cell := mkCell { value : string; row : nat; col : nat }.

Definition CellMap := JsObject.t Cell.

Fixpoint scan_cols (r c : nat) (cells : list CellValue) (cellMap : CellMap)
    : CellMap :=
  match cells with
  | [] => cellMap
  | cellValue :: rest =>
      let cellMap' :=
        if Sheet.truthy cellValue && negb (is_empty (trim (toString cellValue)))
        then JsObject.set (encode_cell r c)
               (mkCell (trim (toString cellValue)) r c) cellMap
        else cellMap in
      scan_cols r (S c) rest cellMap'
  end.

Fixpoint scan_rows (r : nat) (rows : list (list CellValue)) (cellMap : CellMap)
    : CellMap :=
  match rows with
  | [] => cellMap
  | cells :: rest => scan_rows (S r) rest (scan_cols r 0 cells cellMap)
  end.

Definition build_cellMap (jsonData : list (list CellValue)) : CellMap :=
  scan_rows 0 jsonData JsObject.empty.

(** *** The local state of one extraction *)

Record Scan := mkScan {
  extractedData : JsObject.t string;
  extractionDetails : list string;
  logged : list string
}.

(** [setExtractionLog(prev => [...prev, line])] *)
Definition log (line : string) (st : Scan) : Scan :=
  mkScan (extractedData st) (extractionDetails st) (logged st ++ [line])%list.

(** [extractedData[k] = v; extractionDetails.push(detail)] *)
Definition found (k v detail : string) (st : Scan) : Scan :=
  mkScan (JsObject.set k v (extractedData st))
         (extractionDetails st ++ [detail])%list
         (logged st).

Definition field (st : Scan) (k : string) : option string :=
  JsObject.get (extractedData st) k.

Definition quoted (s : string) : string := dq ++ s ++ dq.

Definition lower_has (s needle : string) : bool :=
  includes (toLowerCase s) needle.


(** *** Shipper *)

Definition extract_shipper (cellMap : CellMap) (st : Scan) : Scan :=
  for_break (JsObject.entries cellMap)
    (fun '(address, cell) (st : Scan) =>
       if lower_has (value cell) "exporter" then
         (for_break (range_incl 1 3)
            (fun i (st : Scan) =>
               let nextRowAddress := encode_cell (row cell + i) (col cell) in
               match JsObject.get cellMap nextRowAddress with
               | Some next =>
                   let companyName := value next in
                   if (5 <? length companyName)%nat
                      && negb (lower_has companyName "consignee")
                   then (found "shipper_name" companyName
                           ("Shipper: " ++ quoted companyName
                              ++ " found at " ++ nextRowAddress) st, true)
                   else (st, false)
               | None => (st, false)
               end) st, true)
       else (st, false))
    st.

(** *** Buyer *)

Definition extract_buyer_labelled (cellMap : CellMap) (st : Scan) : Scan :=
  for_break (JsObject.entries cellMap)
    (fun '(address, cell) (st : Scan) =>
       if lower_has (value cell) "consignee" then
         (for_break (range_incl 0 3)
            (fun i (st : Scan) =>
               let nextRowAddress := encode_cell (row cell + i) (col cell) in
               match JsObject.get cellMap nextRowAddress with
               | Some next =>
                   let buyerName := value next in
                   if (3 <? length buyerName)%nat
                      && negb (lower_has buyerName "consignee")
                      && negb (lower_has buyerName ":")
                   then (found "buyer" buyerName
                           ("Buyer: " ++ quoted buyerName
                              ++ " found at " ++ nextRowAddress) st, true)
                   else (st, false)
               | None => (st, false)
               end) st, true)
       else (st, false))
    st.

Definition extract_buyer_range (cellMap : CellMap) (st : Scan) : Scan :=
  if negb (present (field st "buyer")) then
    for_break (range_incl 12 23)
      (fun c st =>
         let cellAddress := encode_cell 9 c in
         match JsObject.get cellMap cellAddress with
         | Some cell =>
             let v := value cell in
             if (5 <? length v)%nat
                && negb (lower_has v "invoice")
                && negb (lower_has v "date")
                && negb (lower_has v "no.")
                && negb (lower_has v "ref")
             then (found "buyer" v
                     ("Buyer: " ++ quoted v ++ " found at " ++ cellAddress
                        ++ " (M10:X10 range)") st, true)
             else (st, false)
         | None => (st, false)
         end)
      (log "🔍 Searching buyer in range M10:X10..." st)
  else st.

(** *** Invoice number *)

(** The body shared by the three invoice loops: read the cell at
    [address], clean it, and keep it when the cleaned text matches. *)
Definition invoice_candidate (cellMap : CellMap) (address note : string)
    (st : Scan) : Scan * bool :=
  match JsObject.get cellMap address with
  | Some cell =>
      let invoiceValue := value cell in
      let cleanInvoiceNumber := extractInvoiceNumber invoiceValue in
      match search invoice_re cleanInvoiceNumber with
      | Some _ =>
          (found "invoice_number" cleanInvoiceNumber
             ("Invoice: " ++ quoted cleanInvoiceNumber ++ " found at "
                ++ address ++ note ++ quoted invoiceValue ++ ")") st, true)
      | None => (st, false)
      end
  | None => (st, false)
  end.

Definition extract_invoice_labelled (cellMap : CellMap) (st : Scan) : Scan :=
  for_break (JsObject.entries cellMap)
    (fun '(address, cell) (st : Scan) =>
       if lower_has (value cell) "invoice"
          && negb (lower_has (value cell) "proforma") then
         let st1 :=
           for_break (range_incl 1 5)
             (fun colOffset st =>
                invoice_candidate cellMap
                  (encode_cell (row cell) (col cell + colOffset))
                  " (cleaned from: " st) st in
         let st2 :=
           if negb (present (field st1 "invoice_number")) then
             for_break (range_incl 1 3)
               (fun rowOffset st =>
                  invoice_candidate cellMap
                    (encode_cell (row cell + rowOffset) (col cell))
                    " (cleaned from: " st) st1
           else st1 in
         (st2, present (field st2 "invoice_number"))
       else (st, false))
    st.

Definition extract_invoice_area (cellMap : CellMap) (st : Scan) : Scan :=
  if negb (present (field st "invoice_number")) then
    for_break (range_incl 3 10)
      (fun r st =>
         let st' :=
           for_break (range_incl 12 20)
             (fun c st =>
                invoice_candidate cellMap (encode_cell r c)
                  " (M4+ area, cleaned from: " st) st in
         (st', present (field st' "invoice_number")))
      (log "🔍 Searching invoice number in M4+ area..." st)
  else st.

(** *** Commodity *)

Definition commodityKeywords : list string :=
  ["chillies"; "turmeric"; "rice"; "spices"; "jaggery"; "onions"; "sannam"].

Definition extract_commodity (cellMap : CellMap) (st : Scan) : Scan :=
  for_break (JsObject.entries cellMap)
    (fun '(address, cell) (st : Scan) =>
       let cellValue := toLowerCase (value cell) in
       let st' :=
         for_break commodityKeywords
           (fun keyword (st : Scan) =>
              if includes cellValue keyword
              then (found "commodity" (value cell)
                      ("Commodity: " ++ quoted (value cell)
                         ++ " found at " ++ address) st, true)
              else (st, false)) st in
       (st', present (field st' "commodity")))
    st.

(** *** Destination country *)

Definition acceptable_destination (destinationValue : string) : bool :=
  (2 <? length destinationValue)%nat
  && negb (lower_has destinationValue "destination")
  && negb (lower_has destinationValue "country")
  && negb (lower_has destinationValue "origin").

Definition normalise_destination (destinationValue : string) : string :=
  let cleanDestination := toUpperCase destinationValue in
  if includes cleanDestination "SRI LANKA" || includes cleanDestination "SRILANKA"
  then "SRI LANKA"
  else if includes cleanDestination "COLOMBO" then "SRI LANKA"
  else cleanDestination.

Definition is_destination_label (cellValue : string) : bool :=
  includes cellValue "final destination"
  || includes cellValue "country of final destination"
  || includes cellValue "destination country".

Definition extract_destination_labelled (cellMap : CellMap) (st : Scan) : Scan :=
  for_break (JsObject.entries cellMap)
    (fun '(address, cell) (st : Scan) =>
       let cellValue := toLowerCase (value cell) in
       if is_destination_label cellValue then
         let st1 :=
           for_break (range_incl 1 5)
             (fun colOffset (st : Scan) =>
                let adjacentAddress :=
                  encode_cell (row cell) (col cell + colOffset) in
                match JsObject.get cellMap adjacentAddress with
                | Some adjacent =>
                    let destinationValue := value adjacent in
                    if acceptable_destination destinationValue then
                      let port := normalise_destination destinationValue in
                      (found "destination_port" port
                         ("Destination: " ++ quoted port ++ " found at "
                            ++ adjacentAddress ++ " (from " ++ address ++ ")")
                         st, true)
                    else (st, false)
                | None => (st, false)
                end) st in
         let st2 :=
           if negb (present (field st1 "destination_port")) then
             let belowAddress := encode_cell (row cell + 1) (col cell) in
             match JsObject.get cellMap belowAddress with
             | Some below =>
                 let destinationValue := value below in
                 if acceptable_destination destinationValue then
                   let port := normalise_destination destinationValue in
                   found "destination_port" port
                     ("Destination: " ++ quoted port ++ " found at "
                        ++ belowAddress ++ " (below " ++ address ++ ")") st1
                 else st1
             | None => st1
             end
           else st1 in
         (st2, present (field st2 "destination_port"))
       else (st, false))
    st.

Definition destinationCountries : list string :=
  ["sri lanka"; "srilanka"; "bangladesh"; "nepal"; "pakistan"; "myanmar";
   "maldives"].

(** The fallback search.  Its guard reads the property [destinationPort]
    of [extractedData], as the source spells it. *)
Definition extract_destination_fallback (cellMap : CellMap) (st : Scan) : Scan :=
  if negb (present (field st "destinationPort")) then
    for_break (JsObject.entries cellMap)
      (fun '(address, cell) (st : Scan) =>
         let cellValue := toLowerCase (value cell) in
         if includes cellValue "origin" || includes cellValue "goods"
            || includes cellValue "country of origin"
         then (st, false)
         else
           let st' :=
             for_break destinationCountries
               (fun country (st : Scan) =>
                  if includes cellValue country then
                    let port :=
                      if includes cellValue "sri lanka"
                         || includes cellValue "srilanka"
                      then "SRI LANKA" else toUpperCase country in
                    (found "destination_port" port
                       ("Destination: " ++ quoted port ++ " found at "
                          ++ address ++ " (fallback search)") st, true)
                  else (st, false)) st in
           (st', present (field st' "destination_port")))
      (log "🔍 Fallback search for destination countries (avoiding origin)..." st)
  else st.

(** *** The scan as a whole (the body of the [try] block up to the
    point where the results are published) *)

Definition analysing_line (ws : Worksheet) : string :=
  "📊 Analyzing sheet: " ++ sheetName ws ++ " ("
    ++ of_nat (s_r (range ws) + 1) ++ ":" ++ of_nat (e_r (range ws) + 1)
    ++ " rows, "
    ++ of_nat (s_c (range ws) + 1) ++ ":" ++ of_nat (e_c (range ws) + 1)
    ++ " cols)".

(** Everything before the fallback search for the destination. *)
Definition scan_labelled (ws : Worksheet) : Scan :=
  let cellMap := build_cellMap (jsonData ws) in
  let st := mkScan JsObject.empty []
              ["🔍 Starting precise data extraction from invoice..."] in
  let st := log (analysing_line ws) st in
  let st := log ("📋 Found " ++ of_nat (List.length (JsObject.keys cellMap))
                   ++ " non-empty cells") st in
  let st := log "🏢 Searching for Exporter/Shipper information..." st in
  let st := extract_shipper cellMap st in
  let st := log "👤 Searching for Buyer/Consignee information..." st in
  let st := extract_buyer_labelled cellMap st in
  let st := extract_buyer_range cellMap st in
  let st := log "📄 Searching for Invoice Number (excluding date)..." st in
  let st := extract_invoice_labelled cellMap st in
  let st := extract_invoice_area cellMap st in
  let st := log "📦 Searching for Commodity information..." st in
  let st := extract_commodity cellMap st in
  let st := log "🌍 Searching for Final Destination Country (NOT Origin)..." st in
  extract_destination_labelled cellMap st.

Definition scan (ws : Worksheet) : Scan :=
  extract_destination_fallback (build_cellMap (jsonData ws)) (scan_labelled ws).

(** *** Component state and [extractDataFromExcel] *)

Record FormState := mkFormState {
  formData : FormData;
  errors : JsObject.t string;
  isProcessingFile : bool;
  extractionLog : list string;
  isSubmitting : bool;
  showSuccessAnimation : bool
}.

Definition join_fields (o : JsObject.t string) : string :=
  String.concat ", "
    (map (fun kv => fst kv ++ ": " ++ quoted (snd kv)) (JsObject.entries o)).

Definition no_data_line : string :=
  "❌ No recognizable data patterns found. Please check the Excel file structure.".

Definition no_data_error : string :=
  "Unable to extract data from this Excel file. Please ensure it contains invoice information with proper formatting.".

Definition success_line (count : nat) : string :=
  "🎉 Successfully extracted " ++ of_nat count ++ " fields!".

Definition extracted_line (o : JsObject.t string) : string :=
  "📋 Extracted: " ++ join_fields o.

Definition extractDataFromExcel (ws : Worksheet) (state : FormState) : FormState :=
  let st := scan ws in
  let extractedData := extractedData st in
  let lines := (logged st ++ extractionDetails st)%list in
  let count := List.length (JsObject.keys extractedData) in
  if (0 <? count)%nat then
    mkFormState
      (spread (formData state) extractedData)
      (errors state)
      false
      (lines ++ [success_line count; extracted_line extractedData])%list
      (isSubmitting state)
      (showSuccessAnimation state)
  else
    mkFormState
      (formData state)
      (JsObject.set "file" no_data_error (errors state))
      false
      (lines ++ [no_data_line])%list
      (isSubmitting state)
      (showSuccessAnimation state).

(** *** Vocabulary for the properties of the extractor *)

(** The fields the extractor looks for. *)
Definition targetFields : list string :=
  ["shipper_name"; "buyer"; "invoice_number"; "commodity"; "destination_port"].

(** What an assignment to [extractedData] can write: the key, and where
    the value comes from. *)
Inductive Writes (cellMap : CellMap) : string -> string -> Prop :=
| Writes_shipper address cell :
    In (address, cell) cellMap ->
    Writes cellMap "shipper_name" (value cell)
| Writes_buyer address cell :
    In (address, cell) cellMap ->
    Writes cellMap "buyer" (value cell)
| Writes_invoice address cell :
    In (address, cell) cellMap ->
    search invoice_re (extractInvoiceNumber (value cell)) <> None ->
    Writes cellMap "invoice_number" (extractInvoiceNumber (value cell))
| Writes_commodity address cell :
    In (address, cell) cellMap ->
    Writes cellMap "commodity" (value cell)
| Writes_destination address cell :
    In (address, cell) cellMap ->
    Writes cellMap "destination_port" (normalise_destination (value cell))
| Writes_fallback address cell country :
    In (address, cell) cellMap ->
    In country destinationCountries ->
    Writes cellMap "destination_port"
      (if includes (toLowerCase (value cell)) "sri lanka"
          || includes (toLowerCase (value cell)) "srilanka"
       then "SRI LANKA" else toUpperCase country).

(** The log lines that announce a failure carry the cross mark. *)
Definition is_failure_line (line : string) : bool := prefix "❌" line.


Definition emptyForm : FormData :=
  mkFormData "2025-07-06" EmptyString EmptyString EmptyString EmptyString
    false "Pending" "Not Received" "Not Required" EmptyString EmptyString []
    "2025-07-06" "2025-07-06".

(** The state of a freshly mounted form. *)
Definition initialState : FormState :=
  mkFormState emptyForm JsObject.empty false [] false false.

Definition text_sheet (rows : list (list string)) : Worksheet :=
  mkWorksheet "Sheet1"
    (mkRange 0 0 (List.length rows - 1) 25)
    (map (map CellText) rows).

(** The shape the invoice pattern describes, piece by piece. *)
Definition invoice_shape (v : string) : Prop :=
  exists letters serial year suffix,
    v = letters ++ "/" ++ serial ++ "/" ++ year ++ "-" ++ suffix
    /\ all_in is_upper letters = true /\ 2 <= length letters <= 4
    /\ all_in is_digit serial = true /\ 1 <= length serial
    /\ all_in is_digit year = true /\ length year = 4
    /\ all_in is_digit suffix = true /\ length suffix = 2.

(** Every key of [extractedData] is one of the target fields. *)
Definition keys_in_target (st : Scan) : Prop :=
  forall k, In k (JsObject.keys (extractedData st)) -> In k targetFields.

(** An invoice with every labelled region. *)
Definition full_sheet : Worksheet :=
  text_sheet
    [ ["Exporter"; "Invoice No & Date"; "RTC/037/2025-26 DT: 01.07.2025"];
      ["Acme Exports Pvt Ltd"];
      ["Consignee"];
      ["Lanka Traders"];
      ["Country of Final Destination"; "Sri Lanka"];
      ["Dry Red Chillies"] ].


(** A sheet whose first cell names a country and whose labelled
    destination is another one. *)
Definition two_country_sheet : Worksheet :=
  text_sheet [ ["Bangladesh"]; ["Final Destination"; "NEPAL"] ].

(** *** handleSubmit *)

(** [!v || !v.trim()] *)
Definition blank (v : string) : bool :=
  is_empty v || is_empty (trim v).

Definition require (k : string) (v : string) (message : string)
    (newErrors : JsObject.t string) : JsObject.t string :=
  if blank v then JsObject.set k message newErrors else newErrors.

Definition required_errors (f : FormData) : JsObject.t string :=
  let newErrors := JsObject.empty in
  let newErrors := require "shipper_name" (shipper_name f)
                     "Shipper name is required" newErrors in
  let newErrors := require "buyer" (buyer f)
                     "Buyer name is required" newErrors in
  let newErrors := require "invoice_number" (invoice_number f)
                     "Invoice number is required" newErrors in
  let newErrors := require "commodity" (commodity f)
                     "Commodity is required" newErrors in
  require "destination_port" (destination_port f)
    "Destination country is required" newErrors.

(** [a || b] on strings *)
Definition or_else (a b : string) : string :=
  if is_empty a then b else a.

Definition build_record (editRecord : option Types.PQRecord) (f : FormData)
    (freshId today : string) : Types.PQRecord :=
  Types.mkPQRecord
    (match editRecord with
     | Some r => or_else (Types.id r) freshId
     | None => freshId
     end)
    (date f)
    (trim (shipper_name f))
    (trim (buyer f))
    (trim (invoice_number f))
    (trim (commodity f))
    (shipping_bill_received f)
    (pq_status f)
    (pq_hardcopy f)
    (permit_copy_status f)
    (trim (destination_port f))
    (trim (remarks f))
    (files f)
    (match editRecord with
     | Some r => or_else (Types.created_at r) today
     | None => today
     end)
    today.

(** The handler up to [setShowSuccessAnimation(true)]: the state it
    leaves and the storage requests it has issued.  [freshId] is the
    result of [generateId()], [today] of [formatDate(new Date())]. *)
Definition handleSubmit (editRecord : option Types.PQRecord)
    (freshId today : string) (state : FormState)
    : FormState * list Storage.Request :=
  let newErrors := required_errors (formData state) in
  if (0 <? List.length (JsObject.keys newErrors))%nat then
    (mkFormState (formData state) newErrors (isProcessingFile state)
       (extractionLog state) false (showSuccessAnimation state), [])
  else
    let record := build_record editRecord (formData state) freshId today in
    let request :=
      match editRecord with
      | Some _ => Storage.updatePQRecord (Types.id record) record
      | None => Storage.savePQRecord record
      end in
    (mkFormState (formData state) newErrors (isProcessingFile state)
       (extractionLog state) true true, [request]).

Definition requiredFields : list string :=
  ["shipper_name"; "buyer"; "invoice_number"; "commodity"; "destination_port"].

(** The value of a required field in the form. *)
Definition required_value (f : FormData) (k : string) : string :=
  if (k =? "shipper_name")%string then shipper_name f
  else if (k =? "buyer")%string then buyer f
  else if (k =? "invoice_number")%string then invoice_number f
  else if (k =? "commodity")%string then commodity f
  else destination_port f.

End PQEntryForm.

(* ================================================================== *)
(** ** dateHelpers *)
(* ================================================================== *)

Module DateHelpers.

Import Js.

Definition ms_per_hour : Z := 1000 * 60 * 60.

(** [(now - createdAt) / (1000 * 60 * 60)], an exact quotient. *)
Definition hoursElapsed (now createdAt : Z) : Q :=
  Qdiv (inject_Z (now - createdAt)) (inject_Z ms_per_hour).

(** [isDelayed(createdAt, status)] evaluated when [Date.now()] is [now].
    Every comparison with [NaN] is false. *)
Definition isDelayed (now : Z) (createdAt : number) (status : string) : bool :=
  if negb (status =? "Pending")%string then false
  else match createdAt with
       | NaN => false
       | Finite t => negb (Qle_bool (hoursElapsed now t) (inject_Z 48))
       end.

(** [getHoursElapsed(createdAt)], with [Math.floor]. *)
Definition getHoursElapsed (now : Z) (createdAt : number) : number :=
  match createdAt with
  | NaN => NaN
  | Finite t => Finite ((now - t) / ms_per_hour)
  end.

End DateHelpers.

(* ================================================================== *)
(** ** RecordsView: filtering, sorting, counts, export *)
(* ================================================================== *)

Module RecordsView.

Import Js Types.

Inductive SectionName := all | pending | received | hardcopyMissing.
Inductive SortOrder := asc | desc.

Record DateRange := mkDateRange { start : string; end_ : string }.

(** [record[key]] *)
Definition get_field (record : PQRecord) (key : string) : JsValue :=
  if (key =? "id")%string then JString (id record)
  else if (key =? "date")%string then JString (date record)
  else if (key =? "shipper_name")%string then JString (shipper_name record)
  else if (key =? "buyer")%string then JString (buyer record)
  else if (key =? "invoice_number")%string then JString (invoice_number record)
  else if (key =? "commodity")%string then JString (commodity record)
  else if (key =? "shipping_bill_received")%string
    then JBool (shipping_bill_received record)
  else if (key =? "pq_status")%string then JString (pq_status record)
  else if (key =? "pq_hardcopy")%string then JString (pq_hardcopy record)
  else if (key =? "permit_copy_status")%string
    then JString (permit_copy_status record)
  else if (key =? "destination_port")%string
    then JString (destination_port record)
  else if (key =? "remarks")%string then JString (remarks record)
  else if (key =? "files")%string then JArray (files record)
  else if (key =? "created_at")%string then JString (created_at record)
  else if (key =? "updated_at")%string then JString (updated_at record)
  else JUndefined.

Definition record_keys : list string :=
  ["id"; "date"; "shipper_name"; "buyer"; "invoice_number"; "commodity";
   "shipping_bill_received"; "pq_status"; "pq_hardcopy";
   "permit_copy_status"; "destination_port"; "remarks"; "files";
   "created_at"; "updated_at"].

(** [Object.values(record)] *)
Definition values (record : PQRecord) : list JsValue :=
  map (get_field record) record_keys.

Definition matchesSearch (searchTerm : string) (record : PQRecord) : bool :=
  is_empty searchTerm
  || existsb (fun v => match v with
                       | JString s =>
                           includes (toLowerCase s) (toLowerCase searchTerm)
                       | _ => false
                       end) (values record).

Definition matchesFilters (filters : JsObject.t JsValue) (record : PQRecord)
    : bool :=
  forallb (fun kv =>
             if negb (truthy (snd kv)) then true
             else strict_eq (get_field record (fst kv)) (snd kv))
          (JsObject.entries filters).

(** Strings compare by code units: [a >= b] is [String.leb b a]. *)
Definition matchesDateRange (dateRange : DateRange) (record : PQRecord) : bool :=
  (is_empty (start dateRange) || String.leb (start dateRange) (date record))
  && (is_empty (end_ dateRange) || String.leb (date record) (end_ dateRange)).

Definition isRecordCompleted (record : PQRecord) : bool :=
  let shippingBill := shipping_bill_received record in
  let pqStatus := pq_status record in
  let permitStatus := permit_copy_status record in
  Bool.eqb shippingBill true
  && (pqStatus =? "Received")%string
  && ((permitStatus =? "Received")%string
      || (permitStatus =? "Not Required")%string).

Definition matchesSection (activeSection : SectionName) (record : PQRecord)
    : bool :=
  match activeSection with
  | pending =>
      let isComplete :=
        Bool.eqb (shipping_bill_received record) true
        && (pq_status record =? "Received")%string
        && ((permit_copy_status record =? "Received")%string
            || (permit_copy_status record =? "Not Required")%string) in
      negb isComplete
  | received =>
      Bool.eqb (shipping_bill_received record) true
      && (pq_status record =? "Received")%string
      && ((permit_copy_status record =? "Received")%string
          || (permit_copy_status record =? "Not Required")%string)
  | hardcopyMissing =>
      (PQEntryForm.or_else (pq_hardcopy record) "Not Received"
         =? "Not Received")%string
  | all => true
  end.

Record ViewState := mkViewState {
  records : list PQRecord;
  filters : JsObject.t JsValue;
  searchTerm : string;
  sortBy : string;
  sortOrder : SortOrder;
  activeSection : SectionName;
  dateRange : DateRange
}.

Definition matchesAll (v : ViewState) (record : PQRecord) : bool :=
  matchesSearch (searchTerm v) record
  && matchesFilters (filters v) record
  && matchesDateRange (dateRange v) record
  && matchesSection (activeSection v) record.

(** [Array.prototype.sort] is stable: insertion keeps an element before
    the ones it does not compare greater than.  For a comparator that
    orders the elements consistently this is the arrangement every engine
    returns.  For an inconsistent one (such as the date comparator when a
    date does not parse, its [NaN] counting as 0) the language leaves the
    arrangement to the engine: the result is still a rearrangement of the
    list, and nothing below relies on more than that in this case. *)
Fixpoint insert_by {A} (cmp : A -> A -> Z) (x : A) (l : list A) : list A :=
  match l with
  | [] => [x]
  | y :: l' => if (cmp x y <=? 0)%Z then x :: l else y :: insert_by cmp x l'
  end.

Fixpoint sort_by {A} (cmp : A -> A -> Z) (l : list A) : list A :=
  match l with
  | [] => []
  | x :: l' => insert_by cmp x (sort_by cmp l')
  end.

(** What the two export buttons hand to the export module. *)
Inductive Effect :=
| exportToExcel (rows : list PQRecord)
| exportToPDF (rows : list PQRecord).

Section Environment.

(** [new Date(s).getTime()] and [a.localeCompare(b)] belong to the host;
    a comparator result of [NaN] counts as 0. *)
Variable getTime : string -> number.
Variable localeCompare : string -> string -> Z.

Definition compare_records (sortBy : string) (sortOrder : SortOrder)
    (a b : PQRecord) : Z :=
  let '(aValue, bValue) :=
    if (sortBy =? "date")%string
    then (JNumber (getTime (date a)), JNumber (getTime (date b)))
    else (get_field a sortBy, get_field b sortBy) in
  let modifier := match sortOrder with asc => 1%Z | desc => (-1)%Z end in
  match aValue, bValue with
  | JString x, JString y => (localeCompare x y * modifier)%Z
  | JNumber (Finite x), JNumber (Finite y) => ((x - y) * modifier)%Z
  | _, _ => 0%Z
  end.

Definition filteredAndSortedRecords (v : ViewState) : list PQRecord :=
  let filtered := filter (matchesAll v) (records v) in
  sort_by (compare_records (sortBy v) (sortOrder v)) filtered.

Definition onClickExportExcel (v : ViewState) : Effect :=
  exportToExcel (filteredAndSortedRecords v).

Definition onClickExportPDF (v : ViewState) : Effect :=
  exportToPDF (filteredAndSortedRecords v).

End Environment.

Definition pendingCount (records : list PQRecord) : nat :=
  List.length
    (filter (fun record =>
               let isComplete :=
                 Bool.eqb (shipping_bill_received record) true
                 && (pq_status record =? "Received")%string
                 && ((permit_copy_status record =? "Received")%string
                     || (permit_copy_status record =? "Not Required")%string) in
               negb isComplete) records).

Definition receivedCount (records : list PQRecord) : nat :=
  List.length
    (filter (fun record =>
               Bool.eqb (shipping_bill_received record) true
               && (pq_status record =? "Received")%string
               && ((permit_copy_status record =? "Received")%string
                   || (permit_copy_status record =? "Not Required")%string))
            records).

(** The [onChange] handler of the shipping-bill select:
    [setFilters({...filters, shipping_bill_received: e.target.value || undefined})] *)
Definition onChangeShippingBill (targetValue : string)
    (filters : JsObject.t JsValue) : JsObject.t JsValue :=
  JsObject.set "shipping_bill_received"
    (if is_empty targetValue then JUndefined else JString targetValue)
    filters.

(** The state of a freshly mounted view over [records]. *)
Definition initialView (records : list PQRecord) : ViewState :=
  mkViewState records JsObject.empty EmptyString "created_at" desc all
    (mkDateRange EmptyString EmptyString).

Definition with_filters (filters : JsObject.t JsValue) (v : ViewState)
    : ViewState :=
  mkViewState (records v) filters (searchTerm v) (sortBy v) (sortOrder v)
    (activeSection v) (dateRange v).

Definition with_section (section : SectionName) (v : ViewState) : ViewState :=
  mkViewState (records v) (filters v) (searchTerm v) (sortBy v) (sortOrder v)
    section (dateRange v).

(** A completed record, for the examples. *)
Definition sample : PQRecord :=
  mkPQRecord "1" "2025-07-06" "Acme Exports" "Lanka Traders"
    "RTC/037/2025-26" "Dry Red Chillies" true "Received" "Received"
    "Not Required" "SRI LANKA" EmptyString [] "2025-07-06" "2025-07-06".

(** *** The criteria and the order, in the words of the specification *)

(** Shipping bill received, PQ status received, permit received or not
    required. *)
Definition completed (record : PQRecord) : Prop :=
  shipping_bill_received record = true
  /\ pq_status record = "Received"
  /\ (permit_copy_status record = "Received"
      \/ permit_copy_status record = "Not Required").

(** There is no search term, or some text property of the record contains
    it, letter case set aside. *)
Definition contains_term (term : string) (record : PQRecord) : Prop :=
  term = EmptyString
  \/ exists key text,
       In key record_keys
       /\ get_field record key = JString text
       /\ includes (toLowerCase text) (toLowerCase term) = true.

(** Every filter that is set equals the record's property of its name. *)
Definition agrees_with (filters : JsObject.t JsValue) (record : PQRecord)
    : Prop :=
  forall key value,
    In (key, value) (JsObject.entries filters) ->
    truthy value = true ->
    strict_eq (get_field record key) value = true.

(** The record's date is not before the start and not after the end, for
    each end of the range that is set. *)
Definition within (dateRange : DateRange) (record : PQRecord) : Prop :=
  (start dateRange = EmptyString
   \/ String.leb (start dateRange) (date record) = true)
  /\ (end_ dateRange = EmptyString
      \/ String.leb (date record) (end_ dateRange) = true).

Definition belongs_to (section : SectionName) (record : PQRecord) : Prop :=
  match section with
  | all => True
  | pending => ~ completed record
  | received => completed record
  | hardcopyMissing =>
      pq_hardcopy record = EmptyString \/ pq_hardcopy record = "Not Received"
  end.

Definition meets_criteria (v : ViewState) (record : PQRecord) : Prop :=
  contains_term (searchTerm v) record
  /\ agrees_with (filters v) record
  /\ within (dateRange v) record
  /\ belongs_to (activeSection v) record.

(** A comparator is consistent on the elements of [dom] when swapping its
    arguments swaps the sign of its result and "not after" is transitive:
    the condition under which the language fixes the result of
    [Array.prototype.sort]. *)
Definition consistent_on {A} (dom : A -> Prop) (cmp : A -> A -> Z) : Prop :=
  (forall a b, dom a -> dom b -> ((cmp a b < 0)%Z <-> (0 < cmp b a)%Z))
  /\ (forall a b c, dom a -> dom b -> dom c ->
        (cmp a b <= 0)%Z -> (cmp b c <= 0)%Z -> (cmp a c <= 0)%Z).

End RecordsView.

(* ================================================================== *)
(** ** PQEntryForm: input, upload and removal handlers *)
(* ================================================================== *)

Module FormHandlers.

Import Js Sheet PQEntryForm.

Definition set_shipping_bill_received (b : bool) (f : FormData) : FormData :=
  mkFormData (date f) (shipper_name f) (buyer f) (invoice_number f)
    (commodity f) b (pq_status f) (pq_hardcopy f) (permit_copy_status f)
    (destination_port f) (remarks f) (files f) (created_at f) (updated_at f).

(** [handleInputChange(fieldName)(e)] with [e.target.value = value], for
    the field names the form binds it to.  The shipping-bill select stores
    [value === 'Yes']; every other input stores the text.  The error of the
    field is deleted when there is one. *)
Definition handleInputChange (fieldName value : string) (state : FormState)
    : FormState :=
  let newData :=
    if (fieldName =? "shipping_bill_received")%string
    then set_shipping_bill_received (value =? "Yes")%string (formData state)
    else assign fieldName value (formData state) in
  let newErrors :=
    if present (JsObject.get (errors state) fieldName)
    then JsObject.remove fieldName (errors state)
    else errors state in
  mkFormState newData newErrors (isProcessingFile state) (extractionLog state)
    (isSubmitting state) (showSuccessAnimation state).

(** A chosen file: its name, and the first sheet [XLSX.read] finds in it
    (read only for the names the handler sends to the extractor). *)
Record File := mkFile { name : string; content : Worksheet }.

(** The form state together with [uploadedFile]. *)
Record Component := mkComponent {
  state : FormState;
  uploadedFile : option File
}.

(** [setExtractionLog([])] and the deletion of [errors.file]. *)
Definition reset_upload (st : FormState) : FormState :=
  mkFormState (formData st) (JsObject.remove "file" (errors st))
    (isProcessingFile st) [] (isSubmitting st) (showSuccessAnimation st).

Definition isExcel (fileName : string) : bool :=
  endsWith fileName ".xlsx" || endsWith fileName ".xls".

(** [handleFileUpload(e)] with [e.target.files?.[0] = file]. *)
Definition handleFileUpload (file : option File) (c : Component) : Component :=
  match file with
  | None => c
  | Some f =>
      let st := reset_upload (state c) in
      if isExcel (name f)
      then mkComponent (extractDataFromExcel (content f) st) (Some f)
      else mkComponent st (Some f)
  end.

Definition removeFile (c : Component) : Component :=
  mkComponent (reset_upload (state c)) None.

(** A spreadsheet upload and an upload of another kind. *)
Definition invoice_xlsx : File := mkFile "invoice.xlsx" full_sheet.
Definition scan_pdf : File := mkFile "scan.pdf" full_sheet.

End FormHandlers.

(* ================================================================== *)
(** ** The cell grid, read declaratively *)
(* ================================================================== *)

Module Grid.

Import Js Sheet PQEntryForm.

(** The test under which the loop stores a cell. *)
Definition kept (cellValue : CellValue) : bool :=
  Sheet.truthy cellValue && negb (is_empty (trim (toString cellValue))).

(** The stored cells of one row, from column [c] on, left to right. *)
Fixpoint row_cells (r c : nat) (cells : list CellValue) : list (string * Cell) :=
  match cells with
  | [] => []
  | cellValue :: rest =>
      (if kept cellValue
       then [(encode_cell r c, mkCell (trim (toString cellValue)) r c)]
       else [])
      ++ row_cells r (S c) rest
  end%list.

(** The stored cells of the rows from row [r] on, in row-major order. *)
Fixpoint grid_cells (r : nat) (rows : list (list CellValue)) : list (string * Cell) :=
  match rows with
  | [] => []
  | cells :: rest => (row_cells r 0 cells ++ grid_cells (S r) rest)%list
  end.

(** The grid value at a row and a column, if there is one. *)
Definition at_position (rows : list (list CellValue)) (r c : nat) : option CellValue :=
  match nth_error rows r with
  | Some cells => nth_error cells c
  | None => None
  end.

(** Every entry is stored under the address of its own row and column,
    and lies before row [r], column [c] in the scan. *)
Definition before (r c : nat) (cellMap : CellMap) : Prop :=
  forall address cell,
    In (address, cell) cellMap ->
    address = encode_cell (row cell) (col cell)
    /\ (row cell < r \/ (row cell = r /\ col cell < c)).

(** Column letters read back as a number: [A] is 1, [Z] is 26, [AA] is 27. *)
Fixpoint decode_col_from (acc : nat) (letters : string) : nat :=
  match letters with
  | EmptyString => acc
  | String ch rest => decode_col_from (acc * 26 + (code ch - 64)) rest
  end.

(** The first stored cell, in scan order, that satisfies a test. *)
Definition first_cell (test : Cell -> bool) (cellMap : CellMap) : option (string * Cell) :=
  find (fun entry => test (snd entry)) cellMap.

(** The first of the offsets whose cell exists and passes the test. *)
Fixpoint first_at (cellMap : CellMap) (addresses : list string) (ok : string -> bool)
    : option string :=
  match addresses with
  | [] => None
  | address :: rest =>
      match JsObject.get cellMap address with
      | Some next => if ok (value next) then Some (value next)
                     else first_at cellMap rest ok
      | None => first_at cellMap rest ok
      end
  end.

Definition is_exporter_label (cell : Cell) : bool :=
  lower_has (value cell) "exporter".

Definition company_ok (companyName : string) : bool :=
  (5 <? length companyName)%nat && negb (lower_has companyName "consignee").

(** The shipper the sheet yields: the first qualifying cell among the
    three below the first cell that mentions the exporter. *)
Definition shipper_of (cellMap : CellMap) : option string :=
  match first_cell is_exporter_label cellMap with
  | Some (_, cell) =>
      first_at cellMap
        (map (fun i => encode_cell (row cell + i) (col cell)) (range_incl 1 3))
        company_ok
  | None => None
  end.

Definition has_commodity_keyword (cell : Cell) : bool :=
  existsb (includes (toLowerCase (value cell))) commodityKeywords.

(** The commodity the sheet yields: the first cell that contains a
    commodity keyword. *)
Definition commodity_of (cellMap : CellMap) : option string :=
  match first_cell has_commodity_keyword cellMap with
  | Some (_, cell) => Some (value cell)
  | None => None
  end.

(** The tests of the fallback search for the destination. *)
Definition mentions_origin (cell : Cell) : bool :=
  let cellValue := toLowerCase (value cell) in
  includes cellValue "origin" || includes cellValue "goods"
  || includes cellValue "country of origin".

Definition names_country (cell : Cell) : bool :=
  existsb (includes (toLowerCase (value cell))) destinationCountries.

(** What the fallback search assigns for a cell that names a country. *)
Definition fallback_port (cell : Cell) : string :=
  let cellValue := toLowerCase (value cell) in
  if includes cellValue "sri lanka" || includes cellValue "srilanka"
  then "SRI LANKA"
  else match find (includes cellValue) destinationCountries with
       | Some country => toUpperCase country
       | None => EmptyString
       end.

(** The destination after the fallback search, given the one before it.
    With a destination already there, only the first cell that does not
    mention the origin is looked at; without one, the first such cell that
    names a country decides. *)
Definition fallback_of (cellMap : CellMap) (prior : option string) : option string :=
  if present prior then
    match first_cell (fun cell => negb (mentions_origin cell)) cellMap with
    | Some (_, cell) =>
        if names_country cell then Some (fallback_port cell) else prior
    | None => prior
    end
  else
    match first_cell
            (fun cell => negb (mentions_origin cell) && names_country cell)
            cellMap with
    | Some (_, cell) => Some (fallback_port cell)
    | None => prior
    end.

(** A sheet whose first exporter cell has nothing usable below it, and
    whose second one has. *)
Definition two_exporter_sheet : Worksheet :=
  text_sheet [ ["Exporter"; "Exporter"]; ["n/a"; "Acme Exports Pvt Ltd"] ].

(** A sheet of blank cells. *)
Definition blank_sheet : Worksheet :=
  text_sheet [ [EmptyString; "   "]; [] ].

End Grid.

(* ================================================================== *)
(** ** RecordsView: the other handlers and helpers *)
(* ================================================================== *)

Module InitialFilter.

(** The [initialFilter] prop. *)
Record t := mk { pq_status : option string; pq_hardcopy : option string }.

End InitialFilter.

Module ViewHandlers.

Import Js Types RecordsView.

(** [name && name.trim() !== ''] *)
Definition nonblank (name : string) : bool :=
  negb (is_empty name) && negb (trim name =? EmptyString)%string.

(** The default order of [Array.prototype.sort]: strings by code units. *)
Definition code_unit_compare (a b : string) : Z :=
  match String.compare a b with
  | Lt => (-1)%Z
  | Eq => 0%Z
  | Gt => 1%Z
  end.

(** [[...new Set(xs)]]: the first occurrence of each element, in order. *)
Fixpoint set_of (seen xs : list string) : list string :=
  match xs with
  | [] => []
  | x :: rest =>
      if existsb (String.eqb x) seen then set_of seen rest
      else x :: set_of (x :: seen) rest
  end.

Definition uniqueShipperNames (records : list PQRecord) : list string :=
  let shipperNames :=
    sort_by code_unit_compare (filter nonblank (map shipper_name records)) in
  set_of [] shipperNames.

(** The effect that follows [initialFilter]. *)
Definition applyInitialFilter (initialFilter : InitialFilter.t) (v : ViewState)
    : ViewState :=
  match InitialFilter.pq_status initialFilter with
  | Some status =>
      if negb (is_empty status) then
        if (status =? "incomplete")%string then
          with_section pending (with_filters JsObject.empty v)
        else if (status =? "Pending")%string then
          with_section pending
            (with_filters [("pq_status", JString status)] v)
        else if (status =? "Received")%string then
          with_section received
            (with_filters [("pq_status", JString status)] v)
        else v
      else
        match InitialFilter.pq_hardcopy initialFilter with
        | Some hardcopy =>
            if (hardcopy =? "Not Received")%string then
              with_section hardcopyMissing
                (with_filters [("pq_hardcopy", JString hardcopy)] v)
            else v
        | None => v
        end
  | None =>
      match InitialFilter.pq_hardcopy initialFilter with
      | Some hardcopy =>
          if (hardcopy =? "Not Received")%string then
            with_section hardcopyMissing
              (with_filters [("pq_hardcopy", JString hardcopy)] v)
          else v
      | None => v
      end
  end.

Definition clearAllFilters (v : ViewState) : ViewState :=
  mkViewState (records v) JsObject.empty EmptyString (sortBy v) (sortOrder v)
    all (mkDateRange EmptyString EmptyString).

Definition handleSectionChange (section : SectionName) (v : ViewState)
    : ViewState :=
  let newFilters :=
    JsObject.remove "pq_hardcopy" (JsObject.remove "pq_status" (filters v)) in
  with_section section (with_filters newFilters v).

(** [setSortBy(e.target.value)] *)
Definition setSortBy (targetValue : string) (v : ViewState) : ViewState :=
  mkViewState (records v) (filters v) (searchTerm v) targetValue (sortOrder v)
    (activeSection v) (dateRange v).

(** The values of the options of the sort select. *)
Definition sortOptions : list string :=
  ["createdAt"; "date"; "shipperName"; "buyer"; "destinationPort"; "pqStatus"].

Definition hardcopyMissingCount (records : list PQRecord) : nat :=
  List.length
    (filter (fun record =>
               (PQEntryForm.or_else (pq_hardcopy record) "Not Received"
                  =? "Not Received")%string) records).



Definition red : string :=
  "bg-gradient-to-br from-red-50 via-rose-50 to-red-100 border-red-300 shadow-red-200/50".
Definition green : string :=
  "bg-gradient-to-br from-green-50 via-emerald-50 to-green-100 border-green-300 shadow-green-200/50".
Definition blue : string :=
  "bg-gradient-to-br from-blue-50 via-indigo-50 to-blue-100 border-blue-300 shadow-blue-200/50".

Definition getRecordBackgroundColor (record : PQRecord) : string :=
  let shippingBill := shipping_bill_received record in
  let pqStatus := pq_status record in
  let permitStatus := permit_copy_status record in
  if (pqStatus =? "Pending")%string then red
  else if Bool.eqb shippingBill true
          && (pqStatus =? "Received")%string
          && ((permitStatus =? "Received")%string
              || (permitStatus =? "Not Required")%string)
  then green
  else if Bool.eqb shippingBill false
          || (Bool.eqb shippingBill true
              && (pqStatus =? "Received")%string
              && (permitStatus =? "Not Received")%string)
  then red
  else blue.

(** The values the selects of the entry form offer. *)
Definition form_statuses (record : PQRecord) : Prop :=
  (pq_status record = "Pending" \/ pq_status record = "Received")
  /\ (permit_copy_status record = "Received"
      \/ permit_copy_status record = "Not Received"
      \/ permit_copy_status record = "Not Required").

(** A record that waits only for its permit copy. *)
Definition awaiting_permit : PQRecord :=
  mkPQRecord "2" "2025-07-06" "Acme Exports" "Lanka Traders"
    "RTC/038/2025-26" "Turmeric" false "Pending" EmptyString
    "Not Received" "SRI LANKA" EmptyString [] "2025-07-06" "2025-07-06".

End ViewHandlers.

(* ================================================================== *)
(** * Properties *)
(* ================================================================== *)

(** ** dateHelpers *)

Module DateHelpersFacts.

Import Js DateHelpers.

Lemma hours_le_48 (now t : Z) :
  Qle_bool (hoursElapsed now t) (inject_Z 48)
  = (now - t <=? 48 * ms_per_hour)%Z.
Proof.
  unfold hoursElapsed, Qle_bool, Qdiv, Qinv, Qmult, inject_Z, ms_per_hour.
  cbn [Qnum Qden].
  change (1000 * 60 * 60)%Z with 3600000%Z.
  cbn [Qnum Qden Z.mul Pos.mul].
  apply eq_true_iff_eq.
  rewrite !Z.leb_le. lia.
Qed.

(** C10.  [isDelayed(createdAt, status)] is true exactly when the status
    is ['Pending'] and more than 48 hours (strictly) lie between
    [createdAt] and the current time; for any other status it is false
    whatever the elapsed time. *)
Theorem isDelayed_iff (now : Z) (createdAt : number) (status : string) :
  (isDelayed now createdAt status = true
   <-> status = "Pending"
       /\ exists t, createdAt = Finite t /\ (48 * ms_per_hour < now - t)%Z)
  /\ (status <> "Pending" -> isDelayed now createdAt status = false)
  /\ isDelayed now createdAt "Received" = false.
Proof.
  unfold isDelayed.
  split; [| split; [| reflexivity]].
  - destruct (String.eqb_spec status "Pending") as [Heq | Hne]; cbn [negb].
    + destruct createdAt as [t | ].
      * rewrite hours_le_48, negb_true_iff, Z.leb_gt. split.
        -- intros H. split; [exact Heq | exists t; split; [reflexivity | exact H]].
        -- intros [_ [t' [Ht' H]]]. injection Ht' as <-. exact H.
      * split; [discriminate | intros [_ [t [Ht _]]]; discriminate].
    + split; [discriminate | intros [H _]; contradiction].
  - intros Hne. now destruct (String.eqb_spec status "Pending").
Qed.

End DateHelpersFacts.

(** ** RecordsView *)

Module RecordsViewFacts.

Import Js Types RecordsView.

Lemma insert_by_perm {A} (cmp : A -> A -> Z) (x : A) (l : list A) :
  Permutation (insert_by cmp x l) (x :: l).
Proof.
  induction l as [| y l IH]; cbn.
  - apply Permutation_refl.
  - destruct (cmp x y <=? 0)%Z.
    + apply Permutation_refl.
    + eapply perm_trans; [apply perm_skip, IH | apply perm_swap].
Qed.

Lemma sort_by_perm {A} (cmp : A -> A -> Z) (l : list A) :
  Permutation (sort_by cmp l) l.
Proof.
  induction l as [| x l IH]; cbn.
  - apply perm_nil.
  - eapply perm_trans; [apply insert_by_perm | apply perm_skip, IH].
Qed.

Lemma insert_by_sorted {A} (cmp : A -> A -> Z) (x : A) (l : list A) :
  (forall a b, (0 < cmp a b)%Z -> (cmp b a <= 0)%Z) ->
  Sorted (fun a b => (cmp a b <= 0)%Z) l ->
  Sorted (fun a b => (cmp a b <= 0)%Z) (insert_by cmp x l).
Proof.
  intros Htotal. induction l as [| y l IH]; cbn; intros Hsorted.
  - repeat constructor.
  - destruct (Z.leb_spec (cmp x y) 0) as [Hle | Hgt].
    + constructor; [exact Hsorted | now constructor].
    + inversion Hsorted as [| ? ? Htail Hhead]; subst.
      constructor; [now apply IH |].
      destruct l as [| z l]; cbn.
      * constructor. now apply Htotal.
      * destruct (cmp x z <=? 0)%Z; constructor.
        -- now apply Htotal.
        -- now inversion Hhead.
Qed.

Lemma sort_by_sorted {A} (cmp : A -> A -> Z) (l : list A) :
  (forall a b, (0 < cmp a b)%Z -> (cmp b a <= 0)%Z) ->
  Sorted (fun a b => (cmp a b <= 0)%Z) (sort_by cmp l).
Proof.
  intros Htotal. induction l as [| x l IH]; cbn.
  - constructor.
  - now apply insert_by_sorted.
Qed.

Lemma filter_none {A} (p : A -> bool) (l : list A) :
  (forall x, p x = false) -> filter p l = [].
Proof.
  intros Hp. induction l as [| x l IH]; cbn; [reflexivity |].
  now rewrite Hp.
Qed.

Lemma count_split {A} (p : A -> bool) (l : list A) :
  List.length (filter (fun x => negb (p x)) l) + List.length (filter p l)
  = List.length l.
Proof.
  induction l as [| x l IH]; cbn; [reflexivity |].
  destruct (p x); cbn; lia.
Qed.

Lemma isRecordCompleted_spec (r : PQRecord) :
  isRecordCompleted r = true
  <-> shipping_bill_received r = true
      /\ pq_status r = "Received"
      /\ (permit_copy_status r = "Received"
          \/ permit_copy_status r = "Not Required").
Proof.
  unfold isRecordCompleted.
  rewrite !andb_true_iff, orb_true_iff, !String.eqb_eq.
  destruct (shipping_bill_received r); cbn; intuition congruence.
Qed.

(** *** The four criteria *)

Lemma empty_term (s : string) : is_empty s = true <-> s = EmptyString.
Proof. destruct s; cbn; split; congruence. Qed.

Lemma matchesSearch_iff (term : string) (r : PQRecord) :
  matchesSearch term r = true <-> contains_term term r.
Proof.
  unfold matchesSearch, contains_term, values.
  rewrite orb_true_iff, existsb_exists, empty_term. split.
  - intros [He | (x & Hin & Hx)]; [now left | right].
    apply in_map_iff in Hin as (k & <- & Hk).
    destruct (get_field r k) as [| | | text |] eqn:E; try discriminate.
    exists k, text. repeat split; assumption.
  - intros [He | (k & text & Hk & E & Hinc)]; [now left | right].
    exists (JString text). split; [| exact Hinc].
    rewrite <- E. now apply in_map.
Qed.

Lemma matchesFilters_iff (fs : JsObject.t JsValue) (r : PQRecord) :
  matchesFilters fs r = true <-> agrees_with fs r.
Proof.
  unfold matchesFilters, agrees_with. rewrite forallb_forall. split.
  - intros H k value Hin Ht. specialize (H (k, value) Hin). cbn in H.
    now rewrite Ht in H.
  - intros H [k value] Hin. cbn.
    destruct (truthy value) eqn:Ht; cbn; [now apply H | reflexivity].
Qed.

Lemma matchesDateRange_iff (range : DateRange) (r : PQRecord) :
  matchesDateRange range r = true <-> within range r.
Proof.
  unfold matchesDateRange, within.
  now rewrite andb_true_iff, !orb_true_iff, !empty_term.
Qed.

Lemma matchesSection_iff (section : SectionName) (r : PQRecord) :
  matchesSection section r = true <-> belongs_to section r.
Proof.
  destruct section; cbn [matchesSection belongs_to].
  - tauto.
  - change (negb (isRecordCompleted r) = true <-> ~ completed r).
    rewrite negb_true_iff, <- not_true_iff_false. unfold completed.
    now rewrite isRecordCompleted_spec.
  - change (isRecordCompleted r = true <-> completed r).
    apply isRecordCompleted_spec.
  - unfold PQEntryForm.or_else. rewrite String.eqb_eq.
    destruct (pq_hardcopy r) as [| c rest]; cbn.
    + split; [now left | reflexivity].
    + split; [now right | intros [H | H]; [discriminate | exact H]].
Qed.

Lemma matchesAll_iff (v : ViewState) (r : PQRecord) :
  matchesAll v r = true <-> meets_criteria v r.
Proof.
  unfold matchesAll, meets_criteria.
  rewrite !andb_true_iff, matchesSearch_iff, matchesFilters_iff,
    matchesDateRange_iff, matchesSection_iff.
  tauto.
Qed.

(** *** The comparator *)

Lemma get_field_text_or_none (k : string) :
  (exists text, forall r, get_field r k = JString (text r))
  \/ (forall r, match get_field r k with
                | JString _ | JNumber _ => False
                | _ => True
                end).
Proof.
  unfold get_field.
  repeat (destruct (k =? _)%string;
          [first [left; eexists; intros r; reflexivity
                 | right; intros r; exact I] |]).
  right. intros r. exact I.
Qed.

Lemma compare_by_date
    (getTime : string -> number) (localeCompare : string -> string -> Z)
    (order : SortOrder) (a b : PQRecord) :
  compare_records getTime localeCompare "date" order a b
  = match getTime (date a), getTime (date b) with
    | Finite x, Finite y =>
        ((x - y) * match order with asc => 1 | desc => -1 end)%Z
    | _, _ => 0%Z
    end.
Proof.
  unfold compare_records. cbn.
  destruct (getTime (date a)), (getTime (date b)); reflexivity.
Qed.

Lemma compare_by_property
    (getTime : string -> number) (localeCompare : string -> string -> Z)
    (key : string) (order : SortOrder) (a b : PQRecord) :
  key <> "date" ->
  compare_records getTime localeCompare key order a b
  = match get_field a key, get_field b key with
    | JString x, JString y =>
        (localeCompare x y * match order with asc => 1 | desc => -1 end)%Z
    | _, _ => 0%Z
    end.
Proof.
  intros Hkey. unfold compare_records.
  destruct (String.eqb_spec key "date") as [E | _]; [contradiction |].
  destruct (get_field_text_or_none key) as [[text Htext] | Hnone].
  - now rewrite !Htext.
  - pose proof (Hnone a) as Ha. pose proof (Hnone b) as Hb.
    destruct (get_field a key), (get_field b key);
      first [contradiction | reflexivity].
Qed.

Lemma compare_by_date_consistent
    (getTime : string -> number) (localeCompare : string -> string -> Z)
    (order : SortOrder) (dom : PQRecord -> Prop) :
  (forall r, dom r -> getTime (date r) <> NaN) ->
  consistent_on dom (compare_records getTime localeCompare "date" order).
Proof.
  intros Hvalid.
  assert (Hfin : forall r, dom r -> exists t, getTime (date r) = Finite t).
  { intros r Hr. specialize (Hvalid r Hr).
    destruct (getTime (date r)) as [t |]; [now exists t | contradiction]. }
  split.
  - intros a b Ha Hb. rewrite !compare_by_date.
    destruct (Hfin a Ha) as [x ->], (Hfin b Hb) as [y ->].
    destruct order; lia.
  - intros a b c Ha Hb Hc. rewrite !compare_by_date.
    destruct (Hfin a Ha) as [x ->], (Hfin b Hb) as [y ->],
      (Hfin c Hc) as [z ->].
    destruct order; lia.
Qed.

Lemma compare_by_property_consistent
    (getTime : string -> number) (localeCompare : string -> string -> Z)
    (key : string) (order : SortOrder) (dom : PQRecord -> Prop) :
  key <> "date" ->
  consistent_on (fun _ => True) localeCompare ->
  consistent_on dom (compare_records getTime localeCompare key order).
Proof.
  intros Hkey [Hswap Htrans].
  assert (Hle : forall x y, (0 <= localeCompare x y)%Z
                            <-> (localeCompare y x <= 0)%Z).
  { intros x y. pose proof (Hswap x y I I). pose proof (Hswap y x I I). lia. }
  destruct (get_field_text_or_none key) as [[text Htext] | Hnone].
  - split.
    + intros a b _ _. rewrite !compare_by_property, !Htext by exact Hkey.
      pose proof (Hswap (text a) (text b) I I).
      pose proof (Hswap (text b) (text a) I I).
      destruct order; lia.
    + intros a b c _ _ _. rewrite !compare_by_property, !Htext by exact Hkey.
      destruct order; intros Hab Hbc.
      * pose proof (Htrans (text a) (text b) (text c) I I I). lia.
      * pose proof (Htrans (text c) (text b) (text a) I I I).
        pose proof (Hle (text a) (text b)). pose proof (Hle (text b) (text c)).
        pose proof (Hle (text a) (text c)). lia.
  - assert (Hzero : forall a b,
              compare_records getTime localeCompare key order a b = 0%Z).
    { intros a b. rewrite compare_by_property by exact Hkey.
      pose proof (Hnone a) as Ha.
      destruct (get_field a key); first [contradiction | reflexivity]. }
    split.
    + intros a b _ _. rewrite !Hzero. lia.
    + intros a b c _ _ _. rewrite !Hzero. lia.
Qed.

(** *** The arrangement under a consistent comparator *)

Lemma insert_by_strongly_sorted {A} (dom : A -> Prop) (cmp : A -> A -> Z)
    (x : A) (l : list A) :
  consistent_on dom cmp -> dom x -> Forall dom l ->
  StronglySorted (fun a b => (cmp a b <= 0)%Z) l ->
  StronglySorted (fun a b => (cmp a b <= 0)%Z) (insert_by cmp x l).
Proof.
  intros [Hswap Htrans] Hx. induction l as [| y l IH]; intros Hdom Hsorted.
  - cbn. constructor; constructor.
  - inversion Hdom as [| ? ? Hy Hl]; subst.
    inversion Hsorted as [| ? ? Htail Hhead]; subst.
    cbn [insert_by]. destruct (Z.leb_spec (cmp x y) 0) as [Hle | Hgt].
    + constructor; [exact Hsorted |]. constructor; [exact Hle |].
      rewrite Forall_forall in Hhead, Hl |- *. intros z Hz.
      apply (Htrans x y z); auto.
    + constructor; [now apply IH |].
      apply (Permutation_Forall (Permutation_sym (insert_by_perm cmp x l))).
      constructor; [| exact Hhead].
      pose proof (Hswap y x Hy Hx). lia.
Qed.

Lemma sort_by_strongly_sorted {A} (dom : A -> Prop) (cmp : A -> A -> Z)
    (l : list A) :
  consistent_on dom cmp -> Forall dom l ->
  StronglySorted (fun a b => (cmp a b <= 0)%Z) (sort_by cmp l).
Proof.
  intros Hcons. induction l as [| x l IH]; intros Hdom; cbn [sort_by].
  - constructor.
  - inversion Hdom as [| ? ? Hx Hl]; subst.
    apply (insert_by_strongly_sorted dom); auto.
    apply (Permutation_Forall (Permutation_sym (sort_by_perm cmp l))).
    exact Hl.
Qed.

(** C5.  Both export buttons pass [filteredAndSortedRecords].  That list
    holds the records of the record list that meet all four criteria, each
    as often as it occurs: the search term is empty or is contained, letter
    case set aside, in a text property; every filter that is set equals
    the record's property; the date lies within the ends of the range that
    are set; the record belongs to the active section.  The comparator is,
    for the key [date], the difference of the two time stamps and, for any
    other key, [localeCompare] of two text properties, each times 1 or -1
    by the sort order, and 0 otherwise.  Whenever the comparator orders
    the shown records consistently (as it does for [date] when every shown
    date parses, and for the other keys when [localeCompare] is
    consistent), every record of the list precedes only records that it is
    not after.  The list is not the full record list in general. *)
Theorem export_passes_filtered_view
    (getTime : string -> number) (localeCompare : string -> string -> Z)
    (v : ViewState) :
  let view := filteredAndSortedRecords getTime localeCompare v in
  let cmp := compare_records getTime localeCompare (sortBy v) (sortOrder v) in
  let modifier := match sortOrder v with asc => 1%Z | desc => (-1)%Z end in
  onClickExportExcel getTime localeCompare v = exportToExcel view
  /\ onClickExportPDF getTime localeCompare v = exportToPDF view
  /\ (forall r, matchesAll v r = true <-> meets_criteria v r)
  /\ Permutation view (filter (matchesAll v) (records v))
  /\ (forall r, In r view <-> In r (records v) /\ meets_criteria v r)
  /\ (sortBy v = "date" ->
      forall a b,
        cmp a b = match getTime (date a), getTime (date b) with
                  | Finite x, Finite y => ((x - y) * modifier)%Z
                  | _, _ => 0%Z
                  end)
  /\ (sortBy v <> "date" ->
      forall a b,
        cmp a b = match get_field a (sortBy v), get_field b (sortBy v) with
                  | JString x, JString y => (localeCompare x y * modifier)%Z
                  | _, _ => 0%Z
                  end)
  /\ (consistent_on (fun r => In r view) cmp ->
      StronglySorted (fun a b => (cmp a b <= 0)%Z) view)
  /\ (sortBy v = "date" ->
      (forall r, In r view -> getTime (date r) <> NaN) ->
      consistent_on (fun r => In r view) cmp)
  /\ (sortBy v <> "date" ->
      consistent_on (fun _ => True) localeCompare ->
      consistent_on (fun r => In r view) cmp)
  /\ (exists v', filteredAndSortedRecords getTime localeCompare v' <> records v').
Proof.
  cbv zeta. unfold onClickExportExcel, onClickExportPDF.
  split; [reflexivity |]. split; [reflexivity |].
  split; [apply matchesAll_iff |].
  assert (Hperm : Permutation (filteredAndSortedRecords getTime localeCompare v)
                    (filter (matchesAll v) (records v)))
    by apply sort_by_perm.
  split; [exact Hperm |].
  split; [| split; [| split; [| split; [| split; [| split]]]]].
  - intros r. rewrite <- matchesAll_iff, <- filter_In. split; intros Hin.
    + exact (Permutation_in _ Hperm Hin).
    + exact (Permutation_in _ (Permutation_sym Hperm) Hin).
  - intros Hkey a b. rewrite Hkey. apply compare_by_date.
  - intros Hkey a b. now apply compare_by_property.
  - intros Hcons. unfold filteredAndSortedRecords.
    apply (sort_by_strongly_sorted _ _ _ Hcons).
    apply Forall_forall. intros r Hr.
    exact (Permutation_in _ (Permutation_sym Hperm) Hr).
  - intros Hkey Hvalid. rewrite Hkey. now apply compare_by_date_consistent.
  - intros Hkey Hlocale. now apply compare_by_property_consistent.
  - exists (mkViewState [sample] JsObject.empty "zzz" "created_at" desc all
              (mkDateRange EmptyString EmptyString)).
    cbn. discriminate.
Qed.

(** C6 (as the code behaves).  With the shipping-bill select set to
    ["Yes"] or to ["No"], the filter entry is the option's string, which is
    never strictly equal to the boolean field: the view is empty for every
    record list. *)
Theorem shipping_bill_filter_selects_nothing
    (getTime : string -> number) (localeCompare : string -> string -> Z)
    (rs : list PQRecord) :
  filteredAndSortedRecords getTime localeCompare
    (with_filters (onChangeShippingBill "Yes" JsObject.empty) (initialView rs))
  = []
  /\ filteredAndSortedRecords getTime localeCompare
       (with_filters (onChangeShippingBill "No" JsObject.empty) (initialView rs))
     = [].
Proof.
  unfold filteredAndSortedRecords.
  split; (rewrite filter_none; [reflexivity |]);
    intros r; unfold matchesAll; cbn; reflexivity.
Qed.

(** C9.  [pendingCount] and [receivedCount] add up to the number of
    records; a record counts as received exactly when its shipping bill is
    received, its PQ status is ['Received'] and its permit status is
    ['Received'] or ['Not Required'], and as pending otherwise; the
    ['pending'] and ['received'] sections select these two complementary
    sets. *)
Theorem pending_received_partition
    (getTime : string -> number) (localeCompare : string -> string -> Z)
    (rs : list PQRecord) :
  pendingCount rs + receivedCount rs = List.length rs
  /\ receivedCount rs = List.length (filter isRecordCompleted rs)
  /\ pendingCount rs
     = List.length (filter (fun r => negb (isRecordCompleted r)) rs)
  /\ (forall r, isRecordCompleted r = true
                <-> shipping_bill_received r = true
                    /\ pq_status r = "Received"
                    /\ (permit_copy_status r = "Received"
                        \/ permit_copy_status r = "Not Required"))
  /\ (forall r, matchesSection received r = isRecordCompleted r)
  /\ (forall r, matchesSection pending r = negb (isRecordCompleted r))
  /\ Permutation
       (filteredAndSortedRecords getTime localeCompare
          (with_section received (initialView rs)))
       (filter isRecordCompleted rs)
  /\ Permutation
       (filteredAndSortedRecords getTime localeCompare
          (with_section pending (initialView rs)))
       (filter (fun r => negb (isRecordCompleted r)) rs).
Proof.
  split; [apply (count_split isRecordCompleted) |].
  split; [reflexivity |]. split; [reflexivity |].
  split; [apply isRecordCompleted_spec |].
  split; [reflexivity |]. split; [reflexivity |].
  unfold filteredAndSortedRecords.
  split; (eapply perm_trans; [apply sort_by_perm |]);
    (erewrite filter_ext; [apply Permutation_refl |]); intros r; reflexivity.
Qed.

End RecordsViewFacts.

(** ** Storage client *)

Module StorageFacts.

Import Js Types Storage.

Lemma parseInt10_number (s : string) : exists n, parseInt10 s = JNumber n.
Proof.
  unfold parseInt10.
  match goal with
  | |- context [let '(_, _) := ?split in _] => destruct split as [sign body]
  end.
  destruct (starts_with_digit body); eexists; reflexivity.
Qed.

(** C7 (as the code behaves).  Both requests carry [invoice_number] as
    the number [ensureNumber] makes of it, never as the record's string;
    for ['RTC/037/2025-26'] that number is [NaN]. *)
Theorem invoice_number_sent_as_number (record : PQRecord) (recordId : string) :
  (exists n,
      sent (savePQRecord record) "invoice_number" = Some (JNumber n)
      /\ sent (updatePQRecord recordId record) "invoice_number"
         = Some (JNumber n))
  /\ sent (savePQRecord RecordsView.sample) "invoice_number"
     = Some (JNumber NaN)
  /\ sent (updatePQRecord recordId RecordsView.sample) "invoice_number"
     = Some (JNumber NaN)
  /\ invoice_number RecordsView.sample = "RTC/037/2025-26".
Proof.
  split; [| repeat split].
  destruct (parseInt10_number (invoice_number record)) as [n Hn].
  exists n. cbn. rewrite Hn. split; reflexivity.
Qed.

End StorageFacts.

(** ** PQEntryForm: submission *)

Module SubmitFacts.

Import Js PQEntryForm.

Lemma is_empty_true (s : string) : is_empty s = true <-> s = EmptyString.
Proof. destruct s; cbn; split; congruence. Qed.

Lemma blank_iff (v : string) : blank v = true <-> trim v = EmptyString.
Proof.
  unfold blank. rewrite orb_true_iff, !is_empty_true. split.
  - intros [-> | H]; [reflexivity | exact H].
  - intros H. now right.
Qed.

Lemma blank_false_iff (v : string) : blank v = false <-> trim v <> EmptyString.
Proof.
  rewrite <- blank_iff. destruct (blank v); split; congruence.
Qed.

Lemma run_nil {Table : Type} (exec : Storage.Request -> Table -> Table)
    (tb : Table) :
  Storage.run exec [] tb = tb.
Proof. reflexivity. Qed.

(** C8.  [handleSubmit] issues its one storage request (an update when a
    record is being edited, an insert otherwise) only when each of the
    five required fields is non-empty after trimming.  When one of them
    is empty or white space only, it issues no request, records an error
    for exactly the blank required fields, and the stored table is what
    it was. *)
Theorem handleSubmit_gated
    (editRecord : option Types.PQRecord) (freshId today : string)
    (state : FormState) :
  let fd := formData state in
  let state' := fst (handleSubmit editRecord freshId today state) in
  let requests := snd (handleSubmit editRecord freshId today state) in
  let record := build_record editRecord fd freshId today in
  ((forall k, In k requiredFields -> trim (required_value fd k) <> EmptyString)
   /\ requests = [match editRecord with
                  | Some _ => Storage.updatePQRecord (Types.id record) record
                  | None => Storage.savePQRecord record
                  end]
   /\ errors state' = [])
  \/
  ((exists k, In k requiredFields /\ trim (required_value fd k) = EmptyString)
   /\ requests = []
   /\ (forall k, In k requiredFields ->
         (JsObject.get (errors state') k <> None
          <-> trim (required_value fd k) = EmptyString))
   /\ isSubmitting state' = false
   /\ (forall (Table : Type) (exec : Storage.Request -> Table -> Table)
              (tb : Table),
         Storage.run exec requests tb = tb)).
Proof.
  cbv zeta. unfold handleSubmit, required_errors, require.
  pose proof (blank_iff (shipper_name (formData state))) as H1.
  pose proof (blank_iff (buyer (formData state))) as H2.
  pose proof (blank_iff (invoice_number (formData state))) as H3.
  pose proof (blank_iff (commodity (formData state))) as H4.
  pose proof (blank_iff (destination_port (formData state))) as H5.
  destruct (blank (shipper_name (formData state)));
  destruct (blank (buyer (formData state)));
  destruct (blank (invoice_number (formData state)));
  destruct (blank (commodity (formData state)));
  destruct (blank (destination_port (formData state)));
  cbn [JsObject.set JsObject.empty JsObject.keys map List.length Nat.ltb
       Nat.leb fst snd String.eqb Ascii.eqb Bool.eqb errors isSubmitting].
  all: try (left; split; [| split; reflexivity];
            intros k [<- | [<- | [<- | [<- | [<- | []]]]]]; cbn;
            intros Hk;
            first [ apply H1 in Hk | apply H2 in Hk | apply H3 in Hk
                  | apply H4 in Hk | apply H5 in Hk ]; discriminate).
  all: right.
  all: split; [| split; [reflexivity | split; [| split; [reflexivity |]]]].
  all: try (intros Table exec tb; reflexivity).
  all: try (intros k [<- | [<- | [<- | [<- | [<- | []]]]]]; cbn;
            (split; [intros Hk | intros Hk]);
            first [ discriminate
                  | now (apply H1 || apply H2 || apply H3 || apply H4 || apply H5)
                  | (first [ apply H1 in Hk | apply H2 in Hk | apply H3 in Hk
                           | apply H4 in Hk | apply H5 in Hk ]; discriminate)
                  | congruence ]).
  all: first
    [ exists "shipper_name"; split; [cbn; tauto | now apply H1]
    | exists "buyer"; split; [cbn; tauto | now apply H2]
    | exists "invoice_number"; split; [cbn; tauto | now apply H3]
    | exists "commodity"; split; [cbn; tauto | now apply H4]
    | exists "destination_port"; split; [cbn; tauto | now apply H5] ].
Qed.
End SubmitFacts.

(** ** Strings and regular expressions *)

Module StringFacts.

Lemma append_assoc (a b c : string) : (a ++ b) ++ c = a ++ (b ++ c).
Proof. induction a as [| x a IH]; cbn; [reflexivity | now rewrite IH]. Qed.

Lemma append_nil_r (a : string) : a ++ EmptyString = a.
Proof. induction a as [| x a IH]; cbn; [reflexivity | now rewrite IH]. Qed.

Lemma length_append (a b : string) : length (a ++ b) = length a + length b.
Proof. induction a as [| x a IH]; cbn; [reflexivity | now rewrite IH]. Qed.

Lemma take_drop (n : nat) (s : string) : take n s ++ drop n s = s.
Proof.
  revert s. induction n as [| n IH]; intros [| c s]; cbn; try reflexivity.
  now rewrite IH.
Qed.

Lemma length_take (n : nat) (s : string) :
  n <= length s -> length (take n s) = n.
Proof.
  revert s. induction n as [| n IH]; intros [| c s]; cbn; intros H;
    try reflexivity; try lia.
  rewrite IH; [reflexivity | lia].
Qed.

Lemma drop_append (a b : string) : drop (length a) (a ++ b) = b.
Proof. induction a as [| x a IH]; cbn; [now destruct b | exact IH]. Qed.

Lemma take_append (a b : string) : take (length a) (a ++ b) = a.
Proof. induction a as [| x a IH]; cbn; [now destruct b | now rewrite IH]. Qed.

Lemma Infix_refl (s : string) : Infix s s.
Proof. exists EmptyString, EmptyString. cbn. now rewrite append_nil_r. Qed.

Lemma Infix_trans (a b c : string) : Infix a b -> Infix b c -> Infix a c.
Proof.
  intros [p1 [q1 ->]] [p2 [q2 ->]].
  exists (p2 ++ p1), (q1 ++ q2). now rewrite !append_assoc.
Qed.

Lemma Infix_tail (a : string) (c : ascii) (s : string) :
  Infix a s -> Infix a (String c s).
Proof. intros [p [q ->]]. now exists (String c p), q. Qed.

Lemma Infix_take (n : nat) (s : string) : Infix (take n s) s.
Proof.
  exists EmptyString, (drop n s). cbn. now rewrite take_drop.
Qed.

Lemma Infix_trimStart (s : string) : Infix (trimStart s) s.
Proof.
  induction s as [| c s IH]; cbn.
  - apply Infix_refl.
  - destruct (is_ws c); [now apply Infix_tail | apply Infix_refl].
Qed.

Lemma trimEnd_prefix (s : string) : exists q, s = trimEnd s ++ q.
Proof.
  induction s as [| c s [q IH]]; cbn.
  - now exists EmptyString.
  - destruct (is_ws c && is_empty (trimEnd s)).
    + now exists (String c s).
    + exists q. cbn. now rewrite <- IH.
Qed.

Lemma Infix_trim (s : string) : Infix (trim s) s.
Proof.
  unfold trim. eapply Infix_trans; [| apply Infix_trimStart].
  destruct (trimEnd_prefix (trimStart s)) as [q Hq].
  exists EmptyString, q. exact Hq.
Qed.

End StringFacts.

Module RegexFacts.

Import StringFacts.

Lemma run_length_le (cls : ascii -> bool) (cap : option nat) (s : string) :
  run_length cls cap s <= length s.
Proof.
  revert cap. induction s as [| c s IH]; intros cap; cbn; [lia |].
  destruct (cls c); [| lia].
  destruct cap as [[| m] |]; [lia | |].
  - specialize (IH (Some m)). lia.
  - specialize (IH None). lia.
Qed.

Lemma run_length_within (cls : ascii -> bool) (cap : option nat) (s : string) :
  within cap (run_length cls cap s).
Proof.
  revert cap. induction s as [| c s IH]; intros cap; cbn.
  - destruct cap; cbn; [lia | exact I].
  - destruct (cls c).
    + destruct cap as [[| m] |]; cbn; [lia | | exact I].
      specialize (IH (Some m)). cbn in IH. lia.
    + destruct cap; cbn; [lia | exact I].
Qed.

Lemma within_le (cap : option nat) (j k : nat) :
  j <= k -> within cap k -> within cap j.
Proof. destruct cap; cbn; [lia | trivial]. Qed.

Lemma run_all_in (cls : ascii -> bool) (cap : option nat) (s : string) (j : nat) :
  j <= run_length cls cap s -> all_in cls (take j s) = true.
Proof.
  revert cap j. induction s as [| c s IH]; intros cap [| j]; cbn;
    try reflexivity; try lia.
  destruct (cls c) eqn:Hc; [| lia].
  destruct cap as [[| m] |]; [lia | |]; intros H; cbn;
    (erewrite IH; [reflexivity | apply le_S_n; exact H]).
Qed.

Lemma run_length_ge (cls : ascii -> bool) (cap : option nat) (s1 t : string) :
  all_in cls s1 = true -> within cap (length s1) ->
  length s1 <= run_length cls cap (s1 ++ t).
Proof.
  revert cap. induction s1 as [| c s1 IH]; intros cap Hall Hcap; cbn; [lia |].
  cbn in Hall. apply andb_true_iff in Hall as [Hc Hall]. rewrite Hc.
  destruct cap as [[| m] |]; cbn in Hcap; [lia | |].
  - apply le_n_S, IH; [exact Hall | cbn; lia].
  - apply le_n_S, IH; [exact Hall | exact I].
Qed.

Lemma try_counts_sound {R} (k lo : nat) (f : nat -> option R) (r : R) :
  lo <= k -> try_counts k lo f = Some r ->
  exists j, lo <= j <= k /\ f j = Some r.
Proof.
  induction k as [| k IH]; cbn; intros Hlo.
  - destruct (f 0) eqn:Hf; [| discriminate].
    intros [= <-]. exists 0. split; [lia | exact Hf].
  - destruct (f (S k)) eqn:Hf.
    + intros [= <-]. exists (S k). split; [lia | exact Hf].
    + destruct (lo <=? k)%nat eqn:Hle; [| discriminate].
      apply Nat.leb_le in Hle. intros H.
      destruct (IH Hle H) as [j [Hj Hfj]]. exists j. split; [lia | exact Hfj].
Qed.

Lemma try_counts_complete {R} (k lo : nat) (f : nat -> option R) (j : nat) :
  lo <= j <= k -> f j <> None -> try_counts k lo f <> None.
Proof.
  induction k as [| k IH]; cbn; intros Hj Hf.
  - assert (j = 0) as -> by lia. now destruct (f 0).
  - destruct (f (S k)) eqn:Hfk; [discriminate |].
    assert (j <> S k) by (intros ->; contradiction).
    destruct (lo <=? k)%nat eqn:Hle.
    + apply IH; [lia | exact Hf].
    + apply Nat.leb_gt in Hle. lia.
Qed.

Lemma match_here_sound (p : Pattern) (s m : string) :
  match_here p s = Some m -> Matches p m /\ exists rest, s = m ++ rest.
Proof.
  revert s m. induction p as [| a p IH]; intros s m; cbn [match_here].
  - intros [= <-]. split; [constructor | now exists s].
  - destruct (Nat.ltb_spec (run_length (accepts a) (at_most a) s) (at_least a))
      as [Hlt | Hge]; [discriminate |].
    intros H. apply try_counts_sound in H; [| exact Hge].
    destruct H as [j [Hj Hf]].
    destruct (match_here p (drop j s)) as [m' |] eqn:Hm; [| discriminate].
    injection Hf as <-.
    destruct (IH _ _ Hm) as [HM [rest Hrest]].
    assert (Hlen : length (take j s) = j).
    { apply length_take. pose proof (run_length_le (accepts a) (at_most a) s). lia. }
    split.
    + constructor.
      * eapply run_all_in. apply Hj.
      * rewrite Hlen. apply Hj.
      * rewrite Hlen. eapply within_le; [apply Hj | apply run_length_within].
      * exact HM.
    + exists rest. rewrite append_assoc, <- Hrest. symmetry. apply take_drop.
Qed.

Lemma match_here_complete (p : Pattern) (m : string) :
  Matches p m -> forall rest, match_here p (m ++ rest) <> None.
Proof.
  induction 1 as [| a p s1 s2 Hall Hlo Hcap HM IH]; intros rest; cbn [match_here].
  - discriminate.
  - rewrite append_assoc.
    pose proof (run_length_ge (accepts a) (at_most a) s1 (s2 ++ rest) Hall Hcap)
      as Hge.
    destruct (Nat.ltb_spec (run_length (accepts a) (at_most a) (s1 ++ s2 ++ rest))
                (at_least a)) as [Hlt | _]; [lia |].
    apply (try_counts_complete _ _ _ (length s1)); [lia |].
    rewrite drop_append.
    specialize (IH rest).
    destruct (match_here p (s2 ++ rest)); [discriminate | contradiction].
Qed.

Lemma search_sound (p : Pattern) (s m : string) :
  search p s = Some m -> Matches p m /\ Infix m s.
Proof.
  induction s as [| c s IH]; cbn.
  - destruct (match_here p EmptyString) as [m' |] eqn:Hm; [| discriminate].
    intros [= <-]. apply match_here_sound in Hm as [HM [rest Hrest]].
    split; [exact HM | now exists EmptyString, rest].
  - destruct (match_here p (String c s)) as [m' |] eqn:Hm.
    + intros [= <-]. apply match_here_sound in Hm as [HM [rest Hrest]].
      split; [exact HM | now exists EmptyString, rest].
    + intros H. destruct (IH H) as [HM Hin].
      split; [exact HM | now apply Infix_tail].
Qed.

Lemma search_complete (p : Pattern) (m s : string) :
  Matches p m -> Infix m s -> search p s <> None.
Proof.
  intros HM [pre [post ->]]. induction pre as [| c pre IH]; cbn.
  - pose proof (match_here_complete p m HM post) as H.
    destruct (m ++ post); cbn;
      destruct (match_here p _); try discriminate; contradiction.
  - destruct (match_here p (String c (pre ++ m ++ post))); [discriminate |].
    exact IH.
Qed.

(** A text without a match has no piece with a match. *)
Lemma search_none_infix (p : Pattern) (t s : string) :
  search p s = None -> Infix t s -> search p t = None.
Proof.
  intros Hs Hin. destruct (search p t) as [m |] eqn:Ht; [| reflexivity].
  apply search_sound in Ht as [HM Hm].
  exfalso. apply (search_complete p m s HM); [| exact Hs].
  eapply Infix_trans; eassumption.
Qed.

End RegexFacts.

(** ** PQEntryForm: the extractor *)

Module ExtractorFacts.

Import Js Sheet PQEntryForm StringFacts RegexFacts.

Lemma get_In {V} (o : JsObject.t V) (k : string) (v : V) :
  JsObject.get o k = Some v -> In (k, v) o.
Proof.
  induction o as [| [k' v'] o IH]; cbn; [discriminate |].
  destruct (String.eqb_spec k' k) as [-> | Hne].
  - intros [= ->]. now left.
  - intros H. right. now apply IH.
Qed.

Lemma get_set_same {V} (o : JsObject.t V) (k : string) (v : V) :
  JsObject.get (JsObject.set k v o) k = Some v.
Proof.
  induction o as [| [k' v'] o IH]; cbn.
  - now rewrite String.eqb_refl.
  - destruct (String.eqb_spec k' k) as [-> | Hne]; cbn.
    + now rewrite String.eqb_refl.
    + destruct (String.eqb_spec k' k); [contradiction | exact IH].
Qed.

Lemma get_set_other {V} (o : JsObject.t V) (k k' : string) (v : V) :
  k <> k' -> JsObject.get (JsObject.set k v o) k' = JsObject.get o k'.
Proof.
  intros Hne. induction o as [| [k0 v0] o IH]; cbn.
  - destruct (String.eqb_spec k k'); [contradiction | reflexivity].
  - destruct (String.eqb_spec k0 k) as [-> | Hk0]; cbn.
    + destruct (String.eqb_spec k k'); [contradiction | reflexivity].
    + now rewrite IH.
Qed.

Lemma keys_set {V} (o : JsObject.t V) (k : string) (v : V) (x : string) :
  In x (JsObject.keys (JsObject.set k v o)) <-> x = k \/ In x (JsObject.keys o).
Proof.
  unfold JsObject.keys. induction o as [| [k0 v0] o IH]; cbn.
  - intuition congruence.
  - destruct (String.eqb_spec k0 k) as [-> | Hk0]; cbn.
    + intuition congruence.
    + rewrite IH. intuition congruence.
Qed.

Lemma get_None_keys {V} (o : JsObject.t V) (k : string) :
  JsObject.get o k = None <-> ~ In k (JsObject.keys o).
Proof.
  unfold JsObject.keys. induction o as [| [k0 v0] o IH]; cbn.
  - tauto.
  - destruct (String.eqb_spec k0 k) as [-> | Hk0].
    + split; [discriminate | intros H; exfalso; apply H; now left].
    + rewrite IH. intuition congruence.
Qed.

Lemma for_break_ind {A} (P : Scan -> Prop) (xs : list A)
    (body : A -> Scan -> Scan * bool) :
  (forall x st, In x xs -> P st -> P (fst (body x st))) ->
  forall st, P st -> P (for_break xs body st).
Proof.
  induction xs as [| x xs IH]; cbn; intros Hbody st HP; [exact HP |].
  pose proof (Hbody x st (or_introl eq_refl) HP) as Hx.
  destruct (body x st) as [st' stop]. cbn in Hx.
  destruct stop; [exact Hx |].
  apply IH; [| exact Hx].
  intros y st0 Hy. apply Hbody. now right.
Qed.

(** *** An induction principle for the scan: a property that survives
    every log line and every assignment the scan can make holds of its
    result. *)
Section ScanInduction.

Variable cellMap : CellMap.
Variable P : Scan -> Prop.

Hypothesis P_log :
  forall line st, is_failure_line line = false -> P st -> P (log line st).
Hypothesis P_found :
  forall k v detail st,
    Writes cellMap k v -> is_failure_line detail = false ->
    P st -> P (found k v detail st).

Ltac loop :=
  apply for_break_ind; [| assumption];
  let x := fresh "x" in
  let st := fresh "st" in
  let Hin := fresh "Hin" in
  let HP := fresh "HP" in
  intros x st Hin HP.

Ltac look address :=
  let next := fresh "next" in
  let Hget := fresh "Hget" in
  destruct (JsObject.get cellMap address) as [next |] eqn:Hget;
  [apply get_In in Hget | cbn [fst]; assumption].

Lemma extract_shipper_ind (st : Scan) : P st -> P (extract_shipper cellMap st).
Proof.
  intros HP. unfold extract_shipper. loop. destruct x as [address cell].
  destruct (lower_has (value cell) "exporter"); cbn [fst]; [| assumption].
  loop. look (encode_cell (row cell + x) (col cell)).
  destruct (_ && _); cbn [fst]; [| assumption].
  apply P_found; [econstructor; eassumption | reflexivity | assumption].
Qed.

Lemma extract_buyer_labelled_ind (st : Scan) :
  P st -> P (extract_buyer_labelled cellMap st).
Proof.
  intros HP. unfold extract_buyer_labelled. loop. destruct x as [address cell].
  destruct (lower_has (value cell) "consignee"); cbn [fst]; [| assumption].
  loop. look (encode_cell (row cell + x) (col cell)).
  destruct (_ && _); cbn [fst]; [| assumption].
  apply P_found; [econstructor 2; eassumption | reflexivity | assumption].
Qed.

Lemma extract_buyer_range_ind (st : Scan) :
  P st -> P (extract_buyer_range cellMap st).
Proof.
  intros HP. unfold extract_buyer_range.
  destruct (negb _); [| assumption].
  apply for_break_ind; [| now apply P_log].
  intros c st0 _ HP0. look (encode_cell 9 c).
  destruct (_ && _); cbn [fst]; [| assumption].
  apply P_found; [econstructor 2; eassumption | reflexivity | assumption].
Qed.

Lemma invoice_candidate_ind (address note : string) (st : Scan) :
  is_failure_line note = false ->
  P st -> P (fst (invoice_candidate cellMap address note st)).
Proof.
  intros Hnote HP. unfold invoice_candidate. look address.
  destruct (search invoice_re (extractInvoiceNumber (value next))) eqn:Hs;
    cbn [fst]; [| assumption].
  apply P_found; [| reflexivity | assumption].
  econstructor 3; [eassumption |]. now rewrite Hs.
Qed.

Lemma extract_invoice_labelled_ind (st : Scan) :
  P st -> P (extract_invoice_labelled cellMap st).
Proof.
  intros HP. unfold extract_invoice_labelled. loop. destruct x as [address cell].
  destruct (_ && _); cbn [fst]; [| assumption].
  destruct (negb _).
  - apply for_break_ind.
    + intros; now apply invoice_candidate_ind.
    + apply for_break_ind; [| assumption].
      intros; now apply invoice_candidate_ind.
  - apply for_break_ind; [| assumption].
    intros; now apply invoice_candidate_ind.
Qed.

Lemma extract_invoice_area_ind (st : Scan) :
  P st -> P (extract_invoice_area cellMap st).
Proof.
  intros HP. unfold extract_invoice_area.
  destruct (negb _); [| assumption].
  apply for_break_ind; [| now apply P_log].
  intros r st0 _ HP0. cbn [fst].
  apply for_break_ind; [| assumption].
  intros; now apply invoice_candidate_ind.
Qed.

Lemma extract_commodity_ind (st : Scan) :
  P st -> P (extract_commodity cellMap st).
Proof.
  intros HP. unfold extract_commodity. loop. destruct x as [address cell].
  cbn [fst]. loop.
  destruct (includes _ _); cbn [fst]; [| assumption].
  apply P_found; [econstructor 4; eassumption | reflexivity | assumption].
Qed.

Lemma extract_destination_labelled_ind (st : Scan) :
  P st -> P (extract_destination_labelled cellMap st).
Proof.
  intros HP. unfold extract_destination_labelled. loop.
  destruct x as [address cell].
  destruct (is_destination_label _); cbn [fst]; [| assumption].
  match goal with
  | |- P (if negb (present (field ?s _)) then _ else _) =>
      assert (H1 : P s)
  end.
  { loop. look (encode_cell (row cell) (col cell + x)).
    destruct (acceptable_destination _); cbn [fst]; [| assumption].
    apply P_found; [econstructor 5; eassumption | reflexivity | assumption]. }
  destruct (negb _); [| assumption].
  destruct (JsObject.get cellMap (encode_cell (row cell + 1) (col cell)))
    as [below |] eqn:Hget; [apply get_In in Hget | assumption].
  destruct (acceptable_destination _); [| assumption].
  apply P_found; [econstructor 5; eassumption | reflexivity | assumption].
Qed.

Lemma extract_destination_fallback_ind (st : Scan) :
  P st -> P (extract_destination_fallback cellMap st).
Proof.
  intros HP. unfold extract_destination_fallback.
  destruct (negb _); [| assumption].
  apply for_break_ind; [| now apply P_log].
  intros [address cell] st0 Hin HP0.
  destruct (_ || _); cbn [fst]; [assumption |].
  apply for_break_ind; [| assumption].
  intros country st1 Hc HP1.
  destruct (includes _ country); cbn [fst]; [| assumption].
  apply P_found; [| | assumption].
  - econstructor 6; eassumption.
  - destruct (_ || _); reflexivity.
Qed.

End ScanInduction.

Lemma scan_labelled_ind (ws : Worksheet) (P : Scan -> Prop) :
  P (mkScan JsObject.empty [] []) ->
  (forall line st, is_failure_line line = false -> P st -> P (log line st)) ->
  (forall k v detail st,
      Writes (build_cellMap (jsonData ws)) k v ->
      is_failure_line detail = false -> P st -> P (found k v detail st)) ->
  P (scan_labelled ws).
Proof.
  intros Hinit Hlog Hfound. unfold scan_labelled. cbv zeta.
  apply extract_destination_labelled_ind; [exact Hfound |].
  apply Hlog; [reflexivity |].
  apply extract_commodity_ind; [exact Hfound |].
  apply Hlog; [reflexivity |].
  apply extract_invoice_area_ind; [exact Hlog | exact Hfound |].
  apply extract_invoice_labelled_ind; [exact Hfound |].
  apply Hlog; [reflexivity |].
  apply extract_buyer_range_ind; [exact Hlog | exact Hfound |].
  apply extract_buyer_labelled_ind; [exact Hfound |].
  apply Hlog; [reflexivity |].
  apply extract_shipper_ind; [exact Hfound |].
  apply Hlog; [reflexivity |].
  apply Hlog; [reflexivity |].
  apply Hlog; [reflexivity |].
  apply (Hlog _ (mkScan JsObject.empty [] [])); [reflexivity | exact Hinit].
Qed.

Lemma scan_ind (ws : Worksheet) (P : Scan -> Prop) :
  P (mkScan JsObject.empty [] []) ->
  (forall line st, is_failure_line line = false -> P st -> P (log line st)) ->
  (forall k v detail st,
      Writes (build_cellMap (jsonData ws)) k v ->
      is_failure_line detail = false -> P st -> P (found k v detail st)) ->
  P (scan ws).
Proof.
  intros Hinit Hlog Hfound. unfold scan.
  apply extract_destination_fallback_ind; [exact Hlog | exact Hfound |].
  now apply scan_labelled_ind.
Qed.

(** *** extractInvoiceNumber and the pattern *)

Lemma cut_at_indicator_infix (t : string) (indicators : list string) (c : string) :
  cut_at_indicator t indicators = Some c -> Infix c t.
Proof.
  induction indicators as [| i rest IH]; cbn; [discriminate |].
  destruct (0 <? indexOf t i)%Z; [| exact IH].
  intros [= <-]. eapply Infix_trans; [apply Infix_trim | apply Infix_take].
Qed.

Lemma extractInvoiceNumber_infix (raw : string) :
  Infix (extractInvoiceNumber raw) raw.
Proof.
  unfold extractInvoiceNumber.
  destruct (search invoice_re (trim raw)) as [m |] eqn:Hs.
  - apply search_sound in Hs as [_ Hin].
    eapply Infix_trans; [exact Hin | apply Infix_trim].
  - destruct (cut_at_indicator (trim raw) dateIndicators) as [c |] eqn:Hc.
    + eapply Infix_trans; [eapply cut_at_indicator_infix; exact Hc | apply Infix_trim].
    + apply Infix_trim.
Qed.

(** Without a match in the trimmed cell text, the cleaned text has no
    match either: the test that follows [extractInvoiceNumber] fails. *)
Lemma extractInvoiceNumber_rejected (raw : string) :
  search invoice_re (trim raw) = None ->
  search invoice_re (extractInvoiceNumber raw) = None.
Proof.
  intros Hs. apply search_none_infix with (s := trim raw); [exact Hs |].
  unfold extractInvoiceNumber. rewrite Hs.
  destruct (cut_at_indicator (trim raw) dateIndicators) as [c |] eqn:Hc.
  - eapply cut_at_indicator_infix; exact Hc.
  - apply Infix_refl.
Qed.

Lemma extractInvoiceNumber_accepted (raw : string) :
  search invoice_re (extractInvoiceNumber raw) <> None ->
  search invoice_re (trim raw) = Some (extractInvoiceNumber raw).
Proof.
  intros Hacc.
  destruct (search invoice_re (trim raw)) as [m |] eqn:Hs.
  - unfold extractInvoiceNumber. now rewrite Hs.
  - exfalso. apply Hacc. now apply extractInvoiceNumber_rejected.
Qed.

Lemma Matches_cons_inv (a : Atom) (p : Pattern) (s : string) :
  Matches (a :: p) s ->
  exists s1 s2,
    s = s1 ++ s2 /\ all_in (accepts a) s1 = true
    /\ at_least a <= length s1 /\ within (at_most a) (length s1)
    /\ Matches p s2.
Proof. inversion 1; subst. eauto 10. Qed.

Lemma Matches_nil_inv (s : string) : Matches [] s -> s = EmptyString.
Proof. now inversion 1. Qed.

Lemma one_char (c : ascii) (s : string) :
  all_in (accepts (one c)) s = true ->
  at_least (one c) <= length s -> within (at_most (one c)) (length s) ->
  s = String c EmptyString.
Proof.
  destruct s as [| x [| y s]]; cbn; intros Hall Hlo Hhi; try lia.
  rewrite andb_true_r in Hall. apply Ascii.eqb_eq in Hall. now subst.
Qed.

Lemma invoice_re_shape (v : string) : Matches invoice_re v -> invoice_shape v.
Proof.
  unfold invoice_re. intros H.
  apply Matches_cons_inv in H as (letters & r1 & -> & Hl & Hl1 & Hl2 & H).
  apply Matches_cons_inv in H as (x1 & r2 & -> & Hx & Hx1 & Hx2 & H).
  apply one_char in Hx; [subst x1 | assumption | assumption].
  apply Matches_cons_inv in H as (serial & r3 & -> & Hs & Hs1 & _ & H).
  apply Matches_cons_inv in H as (x2 & r4 & -> & Hy & Hy1 & Hy2 & H).
  apply one_char in Hy; [subst x2 | assumption | assumption].
  apply Matches_cons_inv in H as (year & r5 & -> & Hyr & Hyr1 & Hyr2 & H).
  apply Matches_cons_inv in H as (x3 & r6 & -> & Hz & Hz1 & Hz2 & H).
  apply one_char in Hz; [subst x3 | assumption | assumption].
  apply Matches_cons_inv in H as (suffix & r7 & -> & Hsf & Hsf1 & Hsf2 & H).
  apply Matches_nil_inv in H. subst r7.
  cbn in *. rewrite append_nil_r.
  exists letters, serial, year, suffix.
  repeat split; try assumption; lia.
Qed.

(** *** Invariants of the scan *)

Lemma NoDup_keys_set {V} (o : JsObject.t V) (k : string) (v : V) :
  NoDup (JsObject.keys o) -> NoDup (JsObject.keys (JsObject.set k v o)).
Proof.
  unfold JsObject.keys. induction o as [| [k0 v0] o IH]; cbn; intros Hnd.
  - constructor; [tauto | constructor].
  - inversion Hnd as [| ? ? Hnotin Hnd']; subst.
    destruct (String.eqb_spec k0 k) as [-> | Hk0]; cbn.
    + now constructor.
    + constructor; [| now apply IH].
      intros Hin. apply (keys_set o k v k0) in Hin as [-> | Hin]; tauto.
Qed.

Lemma scan_keys_nodup (ws : Worksheet) :
  NoDup (JsObject.keys (extractedData (scan ws))).
Proof.
  apply (scan_ind ws (fun st => NoDup (JsObject.keys (extractedData st)))).
  - constructor.
  - intros line st _ H. exact H.
  - intros k v detail st _ _ H. cbn. now apply NoDup_keys_set.
Qed.

Lemma Writes_target (cellMap : CellMap) (k v : string) :
  Writes cellMap k v -> In k targetFields.
Proof. destruct 1; cbn; tauto. Qed.

Lemma found_keys_in_target (cellMap : CellMap) (k v detail : string) (st : Scan) :
  Writes cellMap k v -> keys_in_target st -> keys_in_target (found k v detail st).
Proof.
  intros Hw H x Hx. cbn in Hx. apply keys_set in Hx as [-> | Hx].
  - eapply Writes_target; eassumption.
  - now apply H.
Qed.

Lemma scan_keys_in_target (ws : Worksheet) : keys_in_target (scan ws).
Proof.
  apply (scan_ind ws keys_in_target).
  - intros k [].
  - intros line st _ H. exact H.
  - intros k v detail st Hw _ H. eapply found_keys_in_target; eassumption.
Qed.

Lemma scan_labelled_keys_in_target (ws : Worksheet) :
  keys_in_target (scan_labelled ws).
Proof.
  apply (scan_labelled_ind ws keys_in_target).
  - intros k [].
  - intros line st _ H. exact H.
  - intros k v detail st Hw _ H. eapply found_keys_in_target; eassumption.
Qed.

(** *** The object spread into the form state *)

Lemma spread_cons (f : FormData) (k v : string) (o : JsObject.t string) :
  spread f ((k, v) :: o) = spread (assign k v f) o.
Proof. reflexivity. Qed.

Lemma spread_invoice_absent (o : JsObject.t string) (f : FormData) :
  ~ In "invoice_number" (JsObject.keys o) ->
  invoice_number (spread f o) = invoice_number f.
Proof.
  revert f. induction o as [| [k v] o IH]; intros f Hnotin; [reflexivity |].
  rewrite spread_cons, IH.
  - cbn. destruct (String.eqb_spec k "invoice_number") as [-> | _];
      [exfalso; apply Hnotin; now left | reflexivity].
  - intros Hin. apply Hnotin. now right.
Qed.

Lemma spread_invoice (o : JsObject.t string) (f : FormData) (v : string) :
  NoDup (JsObject.keys o) ->
  JsObject.get o "invoice_number" = Some v ->
  invoice_number (spread f o) = v.
Proof.
  revert f. induction o as [| [k0 v0] o IH]; intros f Hnd; cbn [JsObject.get];
    [discriminate |].
  inversion Hnd as [| ? ? Hnotin Hnd']; subst.
  rewrite spread_cons.
  destruct (String.eqb_spec k0 "invoice_number") as [-> | Hne].
  - intros [= ->]. rewrite spread_invoice_absent; [reflexivity | exact Hnotin].
  - intros Hget. now apply IH.
Qed.


Lemma extracted_nonempty (ws : Worksheet) (k v : string) :
  field (scan ws) k = Some v ->
  (0 <? List.length (JsObject.keys (extractedData (scan ws))))%nat = true.
Proof.
  unfold field. destruct (extractedData (scan ws)); [discriminate | reflexivity].
Qed.

(** *** The claims about the extractor *)

(** The extractor on an invoice with every labelled region. *)
Example full_sheet_extracted :
  extractedData (scan full_sheet)
  = [ ("shipper_name", "Acme Exports Pvt Ltd");
      ("buyer", "Lanka Traders");
      ("invoice_number", "RTC/037/2025-26");
      ("commodity", "Dry Red Chillies");
      ("destination_port", "SRI LANKA") ].
Proof. vm_compute. reflexivity. Qed.

Example extractInvoiceNumber_strips_date :
  extractInvoiceNumber "  RTC/037/2025-26 DT: 01.07.2025" = "RTC/037/2025-26"
  /\ extractInvoiceNumber "INV 123 DT: 01.02.2025" = "INV 123"
  /\ search invoice_re "INV 123" = None.
Proof. repeat split; vm_compute; reflexivity. Qed.

(** C1.  Whenever the extractor sets [invoice_number], the value is, as a
    whole, a match of [[A-Z]{2,4}/digits/4 digits-2 digits]: it is what
    [extractInvoiceNumber] returns for some cell, a piece of that cell's
    text, with nothing of a trailing date left; it is the value the form
    receives.  A cell text without a match is never accepted. *)
Theorem extracted_invoice_number_matches
    (ws : Worksheet) (state : FormState) (v : string) :
  field (scan ws) "invoice_number" = Some v ->
  Matches invoice_re v
  /\ invoice_shape v
  /\ (exists address cell,
        In (address, cell) (build_cellMap (jsonData ws))
        /\ v = extractInvoiceNumber (value cell)
        /\ search invoice_re (trim (value cell)) = Some v
        /\ Infix v (value cell))
  /\ invoice_number (formData (extractDataFromExcel ws state)) = v
  /\ (forall raw, search invoice_re (trim raw) = None ->
                  search invoice_re (extractInvoiceNumber raw) = None).
Proof.
  intros Hv.
  assert (Hsrc : exists address cell,
             In (address, cell) (build_cellMap (jsonData ws))
             /\ v = extractInvoiceNumber (value cell)
             /\ search invoice_re (trim (value cell)) = Some v).
  { revert v Hv.
    apply (scan_ind ws (fun st => forall v,
             field st "invoice_number" = Some v ->
             exists address cell,
               In (address, cell) (build_cellMap (jsonData ws))
               /\ v = extractInvoiceNumber (value cell)
               /\ search invoice_re (trim (value cell)) = Some v)).
    - intros v [=].
    - intros line st _ H. exact H.
    - intros k v0 detail st Hw _ H v. unfold field, found. cbn [extractedData].
      destruct Hw as [a c Hin | a c Hin | a c Hin Hacc | a c Hin | a c Hin
                     | a c country Hin Hc];
        try (rewrite get_set_other by discriminate; apply H).
      rewrite get_set_same. intros [= <-].
      exists a, c. split; [exact Hin | split; [reflexivity |]].
      now apply extractInvoiceNumber_accepted. }
  destruct Hsrc as (address & cell & Hin & Hv' & Hsearch).
  pose proof (search_sound _ _ _ Hsearch) as [HM _].
  split; [exact HM |].
  split; [now apply invoice_re_shape |].
  split.
  { exists address, cell. repeat split; try assumption.
    rewrite Hv'. apply extractInvoiceNumber_infix. }
  split.
  { unfold extractDataFromExcel. cbv zeta.
    rewrite (extracted_nonempty ws _ _ Hv). cbn [formData].
    apply spread_invoice; [apply scan_keys_nodup | exact Hv]. }
  apply extractInvoiceNumber_rejected.
Qed.

Lemma extracted_invoice_number_matches_witness :
  field (scan full_sheet) "invoice_number" = Some "RTC/037/2025-26"
  /\ invoice_shape "RTC/037/2025-26".
Proof.
  split; [vm_compute; reflexivity |].
  apply (extracted_invoice_number_matches full_sheet initialState "RTC/037/2025-26").
  vm_compute. reflexivity.
Defined.

(** C2 (as the code behaves).  The guard of the fallback search reads
    [extractedData.destinationPort], a property no assignment ever writes,
    so the fallback runs after every labelled search; on the sheet with
    two countries the labelled search assigns ["NEPAL"] and the fallback
    then replaces it by ["BANGLADESH"]. *)
Theorem fallback_overwrites_labelled_destination (ws : Worksheet) :
  present (field (scan_labelled ws) "destinationPort") = false
  /\ field (scan_labelled two_country_sheet) "destination_port" = Some "NEPAL"
  /\ field (scan two_country_sheet) "destination_port" = Some "BANGLADESH".
Proof.
  split; [| split; vm_compute; reflexivity].
  assert (H : field (scan_labelled ws) "destinationPort" = None).
  { unfold field. apply get_None_keys. intros Hin.
    apply scan_labelled_keys_in_target in Hin. cbn in Hin.
    repeat (destruct Hin as [Hin | Hin]; [discriminate |]). exact Hin. }
  now rewrite H.
Qed.





End ExtractorFacts.

(** ** RecordsView: handlers and helpers *)

Module ViewHandlersFacts.

Import Js Types RecordsView ViewHandlers RecordsViewFacts.

Lemma sort_by_constant {A} (cmp : A -> A -> Z) (l : list A) :
  (forall a b, cmp a b = 0%Z) -> sort_by cmp l = l.
Proof.
  intros Hzero. induction l as [| x l IH]; cbn; [reflexivity |].
  rewrite IH. destruct l as [| y l]; cbn; [reflexivity |].
  now rewrite Hzero.
Qed.

Lemma filter_all {A} (p : A -> bool) (l : list A) :
  (forall x, p x = true) -> filter p l = l.
Proof.
  intros Hp. induction l as [| x l IH]; cbn; [reflexivity |].
  now rewrite Hp, IH.
Qed.

(** X19.  The sort select offers the values [createdAt], [shipperName],
    [destinationPort] and [pqStatus], none of which is a property of a
    record: with any of them the comparator is constantly 0 and the view
    keeps the records in list order, whatever the sort direction. *)
Theorem camel_case_sort_options_keep_list_order
    (getTime : string -> number) (localeCompare : string -> string -> Z)
    (v : ViewState) (option : string) :
  In option ["createdAt"; "shipperName"; "destinationPort"; "pqStatus"] ->
  In option sortOptions
  /\ filteredAndSortedRecords getTime localeCompare (setSortBy option v)
     = filter (matchesAll v) (records v).
Proof.
  intros Hin. split.
  - cbn in Hin |- *. tauto.
  - unfold filteredAndSortedRecords.
    rewrite sort_by_constant.
    + apply filter_ext. intros r. reflexivity.
    + intros a b. cbn in Hin.
      destruct Hin as [<- | [<- | [<- | [<- | []]]]]; reflexivity.
Qed.

Lemma camel_case_sort_options_keep_list_order_witness :
  filteredAndSortedRecords (fun _ => NaN) (fun _ _ => 0%Z)
    (setSortBy "shipperName" (initialView [awaiting_permit; sample]))
  = [awaiting_permit; sample].
Proof.
  apply (camel_case_sort_options_keep_list_order (fun _ => NaN) (fun _ _ => 0%Z)
           (initialView [awaiting_permit; sample]) "shipperName").
  cbn. tauto.
Defined.

(** X18.  After [clearAllFilters] every record of the list is shown: the view
    is a rearrangement of the whole list. *)
Theorem clearAllFilters_shows_every_record
    (getTime : string -> number) (localeCompare : string -> string -> Z)
    (v : ViewState) :
  Permutation
    (filteredAndSortedRecords getTime localeCompare (clearAllFilters v))
    (records v)
  /\ activeSection (clearAllFilters v) = all
  /\ sortBy (clearAllFilters v) = sortBy v
  /\ sortOrder (clearAllFilters v) = sortOrder v.
Proof.
  split; [| repeat split].
  unfold filteredAndSortedRecords.
  eapply perm_trans; [apply sort_by_perm |].
  rewrite filter_all; [apply Permutation_refl |].
  intros r. reflexivity.
Qed.

Lemma view_perm_filter
    (getTime : string -> number) (localeCompare : string -> string -> Z)
    (v : ViewState) (p : PQRecord -> bool) :
  (forall r, matchesAll v r = p r) ->
  Permutation (filteredAndSortedRecords getTime localeCompare v)
              (filter p (records v)).
Proof.
  intros Hp. unfold filteredAndSortedRecords.
  eapply perm_trans; [apply sort_by_perm |].
  erewrite filter_ext; [apply Permutation_refl | exact Hp].
Qed.

(** X16.  What a freshly mounted view shows for each filter the dashboard can
    hand over: ['incomplete'] gives the records that are not completed,
    ['Pending'] only those whose PQ status is ['Pending'], ['Received']
    the completed ones, and the hardcopy filter ['Not Received'] the
    records whose hardcopy status is exactly ['Not Received'], which can be
    fewer than [hardcopyMissingCount] counts. *)
Theorem initial_filter_views
    (getTime : string -> number) (localeCompare : string -> string -> Z)
    (rs : list PQRecord) :
  let shown f :=
    filteredAndSortedRecords getTime localeCompare
      (applyInitialFilter f (initialView rs)) in
  Permutation (shown (InitialFilter.mk (Some "incomplete") None))
    (filter (fun r => negb (isRecordCompleted r)) rs)
  /\ Permutation (shown (InitialFilter.mk (Some "Pending") None))
       (filter (fun r => (pq_status r =? "Pending")%string) rs)
  /\ Permutation (shown (InitialFilter.mk (Some "Received") None))
       (filter isRecordCompleted rs)
  /\ Permutation (shown (InitialFilter.mk None (Some "Not Received")))
       (filter (fun r => (pq_hardcopy r =? "Not Received")%string) rs)
  /\ List.length (shown (InitialFilter.mk None (Some "Not Received")))
     <= hardcopyMissingCount rs.
Proof.
  cbv zeta.
  assert (Hhard :
    Permutation
      (filteredAndSortedRecords getTime localeCompare
         (applyInitialFilter (InitialFilter.mk None (Some "Not Received"))
            (initialView rs)))
      (filter (fun r => (pq_hardcopy r =? "Not Received")%string) rs)).
  { apply (view_perm_filter getTime localeCompare
             (applyInitialFilter (InitialFilter.mk None (Some "Not Received"))
                (initialView rs))).
    intros r. unfold matchesAll. cbn.
    destruct (String.eqb_spec (pq_hardcopy r) "Not Received") as [Heq | Hne];
      [rewrite Heq |]; reflexivity. }
  split; [| split; [| split; [| split; [exact Hhard |]]]].
  - apply (view_perm_filter getTime localeCompare
             (applyInitialFilter (InitialFilter.mk (Some "incomplete") None)
                (initialView rs))).
    intros r. reflexivity.
  - apply (view_perm_filter getTime localeCompare
             (applyInitialFilter (InitialFilter.mk (Some "Pending") None)
                (initialView rs))).
    intros r. unfold matchesAll. cbn.
    destruct (String.eqb_spec (pq_status r) "Pending") as [Heq | Hne];
      [rewrite Heq; cbn; now rewrite andb_false_r | reflexivity].
  - apply (view_perm_filter getTime localeCompare
             (applyInitialFilter (InitialFilter.mk (Some "Received") None)
                (initialView rs))).
    intros r. unfold matchesAll, isRecordCompleted. cbn.
    destruct (String.eqb_spec (pq_status r) "Received") as [Heq | Hne];
      [reflexivity | now rewrite andb_false_r].
  - rewrite (Permutation_length Hhard). unfold hardcopyMissingCount.
    clear Hhard. induction rs as [| r rs IH]; cbn; [lia |].
    destruct (String.eqb_spec (pq_hardcopy r) "Not Received") as [Heq | Hne];
      cbn; [rewrite Heq; cbn; lia |].
    destruct (_ =? _)%string; cbn; lia.
Qed.


(** X23.  The card of a record is green exactly when the record is completed,
    and red whenever its PQ status is ['Pending'] or its shipping bill is
    missing; with the statuses the entry form offers it is never blue. *)
Theorem getRecordBackgroundColor_cases (record : PQRecord) :
  (getRecordBackgroundColor record = green <-> isRecordCompleted record = true)
  /\ (pq_status record = "Pending" -> getRecordBackgroundColor record = red)
  /\ (isRecordCompleted record = false ->
      shipping_bill_received record = false ->
      getRecordBackgroundColor record = red)
  /\ (form_statuses record -> getRecordBackgroundColor record <> blue).
Proof.
  unfold getRecordBackgroundColor, isRecordCompleted, form_statuses.
  destruct (String.eqb_spec (pq_status record) "Pending") as [Hp | Hp].
  - rewrite Hp. cbn. rewrite andb_false_r. cbn.
    repeat split; try discriminate; intros; discriminate.
  - destruct (shipping_bill_received record); cbn.
    + destruct (String.eqb_spec (pq_status record) "Received") as [Hr | Hr]; cbn.
      * destruct (String.eqb_spec (permit_copy_status record) "Received") as [H1 | H1];
          cbn; [repeat split; intros; first [reflexivity | contradiction | discriminate] |].
        destruct (String.eqb_spec (permit_copy_status record) "Not Required")
          as [H2 | H2]; cbn;
          [repeat split; intros; first [reflexivity | contradiction | discriminate] |].
        destruct (String.eqb_spec (permit_copy_status record) "Not Received")
          as [H3 | H3]; cbn.
        -- repeat split; intros; first [reflexivity | contradiction | discriminate].
        -- repeat split; intros; try first [reflexivity | contradiction | discriminate].
           intuition congruence.
      * repeat split; intros; try first [reflexivity | contradiction | discriminate].
        intuition congruence.
    + repeat split; intros; first [reflexivity | contradiction | discriminate].
Qed.

(** *** uniqueShipperNames *)

Lemma code_unit_compare_total (a b : string) :
  (0 < code_unit_compare a b)%Z -> (code_unit_compare b a <= 0)%Z.
Proof.
  unfold code_unit_compare. rewrite (String.compare_antisym a b).
  destruct (String.compare b a); cbn; lia.
Qed.

Lemma code_unit_compare_trans (a b c : string) :
  (code_unit_compare a b <= 0)%Z -> (code_unit_compare b c <= 0)%Z ->
  (code_unit_compare a c <= 0)%Z.
Proof.
  unfold code_unit_compare.
  destruct (String.compare a b) eqn:Hab; [| | cbn; lia].
  - apply OrderedTypeEx.String_as_OT.cmp_eq in Hab. subst b. tauto.
  - destruct (String.compare b c) eqn:Hbc; [| | cbn; lia]; intros _ _.
    + apply OrderedTypeEx.String_as_OT.cmp_eq in Hbc. subst c.
      rewrite Hab. lia.
    + apply OrderedTypeEx.String_as_OT.cmp_lt in Hab, Hbc.
      pose proof (OrderedTypeEx.String_as_OT.lt_trans _ _ _ Hab Hbc) as Hac.
      apply OrderedTypeEx.String_as_OT.cmp_lt in Hac.
      unfold OrderedTypeEx.String_as_OT.cmp in Hac. rewrite Hac. lia.
Qed.

Lemma existsb_eqb_In (x : string) (seen : list string) :
  existsb (String.eqb x) seen = true <-> In x seen.
Proof.
  rewrite existsb_exists. split.
  - intros [y [Hy Heq]]. apply String.eqb_eq in Heq. now subst.
  - intros Hin. exists x. split; [exact Hin | apply String.eqb_refl].
Qed.

Lemma set_of_In (seen xs : list string) (x : string) :
  In x (set_of seen xs) <-> In x xs /\ ~ In x seen.
Proof.
  revert seen. induction xs as [| y xs IH]; intros seen; cbn; [tauto |].
  destruct (existsb (String.eqb y) seen) eqn:Hy.
  - apply existsb_eqb_In in Hy. rewrite IH.
    split; [tauto |]. intros [[-> | Hin] Hnot]; [contradiction | tauto].
  - assert (Hnot : ~ In y seen).
    { intros Hin. apply existsb_eqb_In in Hin. congruence. }
    cbn. rewrite IH. cbn.
    destruct (String.eqb_spec y x) as [-> | Hne]; [tauto |].
    split; [intros [H | H]; [contradiction | tauto] |].
    intros [[H | H] Hs]; [contradiction |]. right. split; [exact H |].
    intros [H' | H']; [contradiction | contradiction].
Qed.

Lemma set_of_NoDup (seen xs : list string) : NoDup (set_of seen xs).
Proof.
  revert seen. induction xs as [| y xs IH]; intros seen; cbn; [constructor |].
  destruct (existsb (String.eqb y) seen); [apply IH |].
  constructor; [| apply IH].
  intros Hin. apply set_of_In in Hin as [_ Hnot]. apply Hnot. now left.
Qed.

Lemma set_of_sorted (R : string -> string -> Prop) (seen xs : list string) :
  StronglySorted R xs -> StronglySorted R (set_of seen xs).
Proof.
  revert seen. induction xs as [| y xs IH]; intros seen Hs; cbn; [constructor |].
  inversion Hs as [| ? ? Htail Hall]; subst.
  destruct (existsb (String.eqb y) seen); [now apply IH |].
  constructor; [now apply IH |].
  apply Forall_forall. intros z Hz.
  apply set_of_In in Hz as [Hz _].
  revert z Hz. now apply Forall_forall.
Qed.

Lemma nonblank_iff (name : string) :
  nonblank name = true <-> trim name <> EmptyString.
Proof.
  unfold nonblank. rewrite andb_true_iff, !negb_true_iff.
  destruct (String.eqb_spec (trim name) EmptyString) as [He | Hne].
  - split; [intros [_ H]; discriminate | contradiction].
  - split; [trivial |]. intros _. split; [| reflexivity].
    destruct name; [contradiction Hne; reflexivity | reflexivity].
Qed.

Lemma strictly_ascending (l : list string) :
  StronglySorted (fun a b => (code_unit_compare a b <= 0)%Z) l ->
  NoDup l ->
  StronglySorted (fun a b => String.ltb a b = true) l.
Proof.
  induction 1 as [| a l Hl IH Hall]; intros Hnd; [constructor |].
  inversion Hnd as [| ? ? Hnotin Hnd']; subst.
  constructor; [now apply IH |].
  apply Forall_forall. intros b Hb.
  pose proof (proj1 (Forall_forall _ _) Hall b Hb) as Hab.
  unfold code_unit_compare in Hab. unfold String.ltb.
  destruct (String.compare a b) eqn:Hc; [| reflexivity | cbn in Hab; lia].
  apply OrderedTypeEx.String_as_OT.cmp_eq in Hc. subst b. contradiction.
Qed.

(** X15.  The shipper drop-down lists every non-blank shipper name that occurs
    in the records, each once, in strictly ascending code-unit order, and
    nothing else. *)
Theorem uniqueShipperNames_spec (rs : list PQRecord) :
  NoDup (uniqueShipperNames rs)
  /\ (forall name,
        In name (uniqueShipperNames rs)
        <-> (exists r, In r rs /\ shipper_name r = name)
            /\ trim name <> EmptyString)
  /\ StronglySorted (fun a b => String.ltb a b = true) (uniqueShipperNames rs).
Proof.
  unfold uniqueShipperNames. cbv zeta.
  set (names := filter nonblank (map shipper_name rs)).
  set (sorted := sort_by code_unit_compare names).
  assert (Hmem : forall name, In name (set_of [] sorted)
                   <-> (exists r, In r rs /\ shipper_name r = name)
                       /\ trim name <> EmptyString).
  { intros name. rewrite set_of_In. unfold sorted.
    split.
    - intros [Hin _].
      apply (Permutation_in _ (sort_by_perm _ _)) in Hin.
      apply filter_In in Hin as [Hin Hnb].
      apply in_map_iff in Hin as [r [Hr Hin]].
      split; [exists r; split; assumption | now apply nonblank_iff].
    - intros [[r [Hin Hr]] Hnb]. split; [| intros []].
      apply (Permutation_in _ (Permutation_sym (sort_by_perm _ _))).
      apply filter_In. split; [| now apply nonblank_iff].
      apply in_map_iff. exists r. split; assumption. }
  split; [apply set_of_NoDup |]. split; [exact Hmem |].
  assert (Hle : StronglySorted (fun a b => (code_unit_compare a b <= 0)%Z)
                  (set_of [] sorted)).
  { apply set_of_sorted. apply Sorted_StronglySorted.
    - intros a b c. apply code_unit_compare_trans.
    - apply sort_by_sorted. apply code_unit_compare_total. }
  apply strictly_ascending; [exact Hle | apply set_of_NoDup].
Qed.

End ViewHandlersFacts.

(** ** PQEntryForm: input, upload and removal handlers *)

Module TrimFacts.

Lemma trimEnd_idempotent (s : string) : trimEnd (trimEnd s) = trimEnd s.
Proof.
  induction s as [| c s IH]; cbn; [reflexivity |].
  destruct (is_ws c && is_empty (trimEnd s)) eqn:Hc; cbn; [reflexivity |].
  now rewrite IH, Hc.
Qed.

Lemma trimStart_head (c : ascii) (s : string) :
  is_ws c = false -> trimStart (String c s) = String c s.
Proof. intros H. cbn. now rewrite H. Qed.

Lemma trimStart_starts (s : string) :
  trimStart s = EmptyString
  \/ exists c t, trimStart s = String c t /\ is_ws c = false.
Proof.
  induction s as [| c s IH]; cbn; [now left |].
  destruct (is_ws c) eqn:Hc; [exact IH |].
  right. now exists c, s.
Qed.

Lemma trimStart_trimEnd (s : string) :
  trimStart s = s -> trimStart (trimEnd s) = trimEnd s.
Proof.
  destruct s as [| c s]; [reflexivity |].
  cbn. destruct (is_ws c) eqn:Hc.
  - intros H. exfalso.
    assert (Hlen : length (trimStart s) <= length s).
    { clear. induction s as [| x s IH]; cbn; [lia |].
      destruct (is_ws x); cbn; lia. }
    rewrite H in Hlen. cbn in Hlen. lia.
  - intros _. cbn. now rewrite Hc.
Qed.

Lemma trimStart_idempotent (s : string) : trimStart (trimStart s) = trimStart s.
Proof.
  destruct (trimStart_starts s) as [-> | (c & t & -> & Hc)];
    [reflexivity | now apply trimStart_head].
Qed.

(** [trim] leaves a trimmed text as it is. *)
Lemma trim_idempotent (s : string) : trim (trim s) = trim s.
Proof.
  unfold trim.
  rewrite (trimStart_trimEnd (trimStart s) (trimStart_idempotent s)).
  apply trimEnd_idempotent.
Qed.

End TrimFacts.

Module FormHandlersFacts.

Import Js Sheet PQEntryForm FormHandlers TrimFacts SubmitFacts ExtractorFacts.

Lemma get_remove_same {V} (o : JsObject.t V) (k : string) :
  JsObject.get (JsObject.remove k o) k = None.
Proof.
  induction o as [| [k0 v0] o IH]; cbn; [reflexivity |].
  destruct (String.eqb_spec k0 k) as [-> | Hne]; [exact IH |].
  cbn. destruct (String.eqb_spec k0 k); [contradiction | exact IH].
Qed.

Lemma get_remove_other {V} (o : JsObject.t V) (k k' : string) :
  k <> k' -> JsObject.get (JsObject.remove k o) k' = JsObject.get o k'.
Proof.
  intros Hne. induction o as [| [k0 v0] o IH]; cbn; [reflexivity |].
  destruct (String.eqb_spec k0 k) as [-> | Hk0].
  - destruct (String.eqb_spec k k'); [contradiction | exact IH].
  - cbn. now rewrite IH.
Qed.

Lemma required_errors_flag (f : FormData) (k : string) :
  In k requiredFields ->
  (JsObject.get (required_errors f) k <> None
   <-> trim (required_value f k) = EmptyString).
Proof.
  unfold required_errors, require.
  pose proof (blank_iff (shipper_name f)) as H1.
  pose proof (blank_iff (buyer f)) as H2.
  pose proof (blank_iff (invoice_number f)) as H3.
  pose proof (blank_iff (commodity f)) as H4.
  pose proof (blank_iff (destination_port f)) as H5.
  destruct (blank (shipper_name f)), (blank (buyer f)),
    (blank (invoice_number f)), (blank (commodity f)),
    (blank (destination_port f));
    intros [<- | [<- | [<- | [<- | [<- | []]]]]]; cbn;
    (split; [intros Hk | intros Hk]);
    first [ discriminate
          | now (apply H1 || apply H2 || apply H3 || apply H4 || apply H5)
          | (first [ apply H1 in Hk | apply H2 in Hk | apply H3 in Hk
                   | apply H4 in Hk | apply H5 in Hk ]; discriminate)
          | congruence ].
Qed.

Lemma handleSubmit_errors
    (editRecord : option Types.PQRecord) (freshId today : string)
    (st : FormState) :
  errors (fst (handleSubmit editRecord freshId today st))
  = required_errors (formData st).
Proof.
  unfold handleSubmit. now destruct (0 <? _)%nat.
Qed.

Lemma required_errors_none (f : FormData) :
  (0 <? List.length (JsObject.keys (required_errors f)))%nat = false ->
  forall k, In k requiredFields -> trim (required_value f k) <> EmptyString.
Proof.
  intros Hcount k Hk Hblank.
  apply (required_errors_flag f k Hk) in Hblank.
  destruct (required_errors f) as [| [k0 v0] o]; [now apply Hblank |].
  discriminate.
Qed.

(** X12.  Every request [handleSubmit] issues carries the shipper, the buyer,
    the commodity and the destination as non-empty texts without leading or
    trailing white space, and the remarks trimmed. *)
Theorem submitted_texts_are_trimmed
    (editRecord : option Types.PQRecord) (freshId today : string)
    (st : FormState) (req : Storage.Request) :
  In req (snd (handleSubmit editRecord freshId today st)) ->
  (forall k, In k ["shipper_name"; "buyer"; "commodity"; "destination_port"] ->
     exists s, Storage.sent req k = Some (JString s)
               /\ trim s = s /\ s <> EmptyString)
  /\ Storage.sent req "remarks" = Some (JString (trim (remarks (formData st)))).
Proof.
  unfold handleSubmit.
  destruct (0 <? _)%nat eqn:Hcount; cbn [snd]; [intros [] |].
  pose proof (required_errors_none _ Hcount) as Hfilled.
  intros [<- | []].
  assert (Hsent : forall k,
    Storage.sent
      match editRecord with
      | Some _ =>
          Storage.updatePQRecord
            (Types.id (build_record editRecord (formData st) freshId today))
            (build_record editRecord (formData st) freshId today)
      | None =>
          Storage.savePQRecord
            (build_record editRecord (formData st) freshId today)
      end k
    = JsObject.get
        (Storage.payload (build_record editRecord (formData st) freshId today)) k).
  { intros k. now destruct editRecord. }
  split.
  - intros k Hk. rewrite Hsent. cbn in Hk.
    destruct Hk as [<- | [<- | [<- | [<- | []]]]]; cbn;
      eexists; (split; [reflexivity |]); (split; [apply trim_idempotent |]).
    + apply (Hfilled "shipper_name"). cbn. tauto.
    + apply (Hfilled "buyer"). cbn. tauto.
    + apply (Hfilled "commodity"). cbn. tauto.
    + apply (Hfilled "destination_port"). cbn. tauto.
  - rewrite Hsent. reflexivity.
Qed.

Lemma submitted_texts_are_trimmed_witness :
  exists s,
    Storage.sent
      (Storage.savePQRecord
         (build_record None
            (formData (extractDataFromExcel full_sheet initialState))
            "id1" "2025-07-06"))
      "buyer" = Some (JString s)
    /\ trim s = s /\ s <> EmptyString.
Proof.
  apply (submitted_texts_are_trimmed None "id1" "2025-07-06"
           (extractDataFromExcel full_sheet initialState)).
  - vm_compute. left. reflexivity.
  - cbn. tauto.
Defined.

(** X13.  Typing into a field removes the error of that field and no other;
    for a required field the typed text becomes its value and the other
    required fields keep theirs, and the next submission flags the field
    exactly when the typed text is blank. *)
Theorem handleInputChange_effect
    (fieldName value : string) (st : FormState)
    (editRecord : option Types.PQRecord) (freshId today : string) :
  let st' := handleInputChange fieldName value st in
  present (JsObject.get (errors st') fieldName) = false
  /\ (forall k, k <> fieldName ->
        JsObject.get (errors st') k = JsObject.get (errors st) k)
  /\ (In fieldName requiredFields ->
      required_value (formData st') fieldName = value
      /\ (forall k, In k requiredFields -> k <> fieldName ->
            required_value (formData st') k = required_value (formData st) k)
      /\ (JsObject.get
            (errors (fst (handleSubmit editRecord freshId today st')))
            fieldName <> None
          <-> trim value = EmptyString)).
Proof.
  cbv zeta.
  assert (Hvalue : In fieldName requiredFields ->
            required_value (formData (handleInputChange fieldName value st))
              fieldName = value).
  { cbn. intros [<- | [<- | [<- | [<- | [<- | []]]]]]; reflexivity. }
  split; [| split].
  - unfold handleInputChange. cbn [errors].
    destruct (present (JsObject.get (errors st) fieldName)) eqn:Hp;
      [now rewrite get_remove_same | exact Hp].
  - intros k Hk. unfold handleInputChange. cbn [errors].
    destruct (present _); [| reflexivity].
    apply get_remove_other. congruence.
  - intros Hreq. split; [now apply Hvalue | split].
    + cbn in Hreq |- *.
      destruct Hreq as [<- | [<- | [<- | [<- | [<- | []]]]]];
        intros k [<- | [<- | [<- | [<- | [<- | []]]]]] Hne;
        first [reflexivity | contradiction].
    + rewrite handleSubmit_errors, required_errors_flag by assumption.
      now rewrite Hvalue.
Qed.

Lemma handleInputChange_effect_witness :
  required_value
    (formData (handleInputChange "buyer" "Lanka Traders" initialState)) "buyer"
  = "Lanka Traders".
Proof.
  apply (handleInputChange_effect "buyer" "Lanka Traders" initialState None
           "id1" "2025-07-06").
  cbn. tauto.
Defined.

(** X14.  An upload of an [.xlsx] or [.xls] file leaves the [file] error set
    exactly when none of the five target fields was found, whatever errors
    were there before; an upload of any other file extracts nothing,
    leaves the form as it is and clears the log and the [file] error;
    removing the file clears them too. *)
Theorem handleFileUpload_effect (file : File) (c : Component) :
  let c' := handleFileUpload (Some file) c in
  handleFileUpload None c = c
  /\ uploadedFile c' = Some file
  /\ (isExcel (name file) = true ->
      (JsObject.get (errors (state c')) "file" <> None
       <-> forall k, In k targetFields -> field (scan (content file)) k = None))
  /\ (isExcel (name file) = false ->
      formData (state c') = formData (state c)
      /\ extractionLog (state c') = []
      /\ JsObject.get (errors (state c')) "file" = None)
  /\ uploadedFile (removeFile c') = None
  /\ extractionLog (state (removeFile c')) = []
  /\ JsObject.get (errors (state (removeFile c'))) "file" = None.
Proof.
  cbv zeta. unfold handleFileUpload.
  split; [reflexivity |].
  split; [now destruct (isExcel (name file)) |].
  split; [| split; [| split; [reflexivity | split; [reflexivity |]]]].
  - intros Hx. rewrite Hx. cbn [state].
    unfold extractDataFromExcel, field. cbv zeta.
    pose proof (scan_keys_in_target (content file)) as Hkeys.
    unfold keys_in_target in Hkeys.
    destruct (extractedData (scan (content file))) as [| [k0 v0] o].
    + cbn [JsObject.keys map List.length Nat.ltb Nat.leb errors].
      rewrite get_set_same. split; [reflexivity | discriminate].
    + cbn [JsObject.keys map List.length Nat.ltb Nat.leb errors reset_upload].
      rewrite get_remove_same. split; [congruence |].
      intros Hnone. exfalso.
      specialize (Hnone k0 (Hkeys k0 (or_introl eq_refl))).
      cbn in Hnone. rewrite String.eqb_refl in Hnone. discriminate.
  - intros Hx. rewrite Hx. cbn. repeat split. apply get_remove_same.
  - cbn. apply get_remove_same.
Qed.

Lemma handleFileUpload_effect_witness :
  JsObject.get
    (errors (state (handleFileUpload (Some invoice_xlsx)
                      (mkComponent initialState None)))) "file" <> None
  <-> forall k, In k targetFields -> field (scan full_sheet) k = None.
Proof.
  apply (handleFileUpload_effect invoice_xlsx (mkComponent initialState None)).
  vm_compute. reflexivity.
Defined.

End FormHandlersFacts.

(** ** dateHelpers and the storage client, continued *)

Module HoursFacts.

Import Js DateHelpers DateHelpersFacts.

(** X24.  The hours shown on a delayed badge: [getHoursElapsed] is the whole
    number of elapsed hours; it is at least 48 whenever [isDelayed] holds,
    [isDelayed] holds for a pending record whenever it is at least 49, and
    it is not negative for a creation time in the past.  An invalid
    creation time gives [NaN] and no delay. *)
Theorem getHoursElapsed_and_isDelayed (now t : Z) :
  let h := ((now - t) / ms_per_hour)%Z in
  getHoursElapsed now (Finite t) = Finite h
  /\ (h * ms_per_hour <= now - t < (h + 1) * ms_per_hour)%Z
  /\ (isDelayed now (Finite t) "Pending" = true -> (48 <= h)%Z)
  /\ ((49 <= h)%Z -> isDelayed now (Finite t) "Pending" = true)
  /\ ((t <= now)%Z -> (0 <= h)%Z)
  /\ getHoursElapsed now NaN = NaN
  /\ isDelayed now NaN "Pending" = false.
Proof.
  cbv zeta.
  assert (Hms : ms_per_hour = 3600000%Z) by reflexivity.
  pose proof (Z.div_mod (now - t) ms_per_hour) as Hdm.
  pose proof (Z.mod_pos_bound (now - t) ms_per_hour) as Hmod.
  rewrite Hms in *.
  split; [reflexivity |].
  split; [lia |].
  unfold isDelayed. cbn [String.eqb Ascii.eqb Bool.eqb negb].
  rewrite hours_le_48, Hms.
  split; [| split; [| split; [| split; reflexivity]]].
  - rewrite negb_true_iff, Z.leb_gt. lia.
  - intros Hh. rewrite negb_true_iff, Z.leb_gt. lia.
  - intros Hle. apply Z.div_pos; lia.
Qed.

End HoursFacts.

Module ParseFacts.

Import Js Types Storage.

Lemma parseInt10_head (c : ascii) (s : string) :
  is_ws c = false -> c <> "-"%char -> c <> "+"%char ->
  parseInt10 (String c s)
  = if is_digit c
    then JNumber (Finite (to_double (1 * leading_digits 0 (String c s))))
    else JNumber NaN.
Proof.
  intros Hws Hminus Hplus. unfold parseInt10.
  cbn [trimStart]. rewrite Hws.
  destruct c as [[] [] [] [] [] [] [] []];
    first [reflexivity | contradiction Hminus; reflexivity
          | contradiction Hplus; reflexivity].
Qed.

Lemma upper_not_ws (c : ascii) :
  is_upper c = true ->
  is_ws c = false /\ c <> "-"%char /\ c <> "+"%char /\ is_digit c = false.
Proof.
  destruct c as [[] [] [] [] [] [] [] []]; cbn; intros H;
    first [discriminate H | repeat split; discriminate].
Qed.

Lemma digit_not_ws (c : ascii) :
  is_digit c = true ->
  is_ws c = false /\ c <> "-"%char /\ c <> "+"%char.
Proof.
  destruct c as [[] [] [] [] [] [] [] []]; cbn; intros H;
    first [discriminate H | repeat split; discriminate].
Qed.

Lemma leading_digits_stop (d rest : string) (acc : Z) :
  all_in is_digit d = true -> starts_with_digit rest = false ->
  leading_digits acc (d ++ rest) = leading_digits acc d.
Proof.
  revert acc. induction d as [| c d IH]; intros acc Hd Hrest; cbn.
  - destruct rest as [| x rest]; [reflexivity |]. cbn in Hrest |- *.
    now rewrite Hrest.
  - cbn in Hd. apply andb_true_iff in Hd as [Hc Hd]. rewrite Hc.
    now apply IH.
Qed.

(** X25.  Every invoice number of the form the extractor accepts is sent to the
    table as [NaN]: it begins with a letter, and [parseInt] finds no
    digit there. *)
Theorem extracted_invoice_numbers_become_NaN (record : PQRecord) (recordId : string) :
  PQEntryForm.invoice_shape (invoice_number record) ->
  ensureNumber (JString (invoice_number record)) = JNumber NaN
  /\ sent (savePQRecord record) "invoice_number" = Some (JNumber NaN)
  /\ sent (updatePQRecord recordId record) "invoice_number" = Some (JNumber NaN).
Proof.
  intros (letters & serial & year & suffix & Hv & Hup & Hlen & _).
  assert (Hnan : ensureNumber (JString (invoice_number record)) = JNumber NaN).
  { rewrite Hv. destruct letters as [| c letters]; [cbn in Hlen; lia |].
    cbn in Hup. apply andb_true_iff in Hup as [Hc _].
    destruct (upper_not_ws c Hc) as (Hws & Hm & Hp & Hd).
    cbn [ensureNumber append]. rewrite parseInt10_head by assumption.
    now rewrite Hd. }
  split; [exact Hnan |]. cbn. rewrite <- Hnan. split; reflexivity.
Qed.

Lemma extracted_invoice_numbers_become_NaN_witness :
  ensureNumber (JString (invoice_number RecordsView.sample)) = JNumber NaN.
Proof.
  apply (extracted_invoice_numbers_become_NaN RecordsView.sample "1").
  exists "RTC", "037", "2025", "26". cbn. repeat split; lia.
Defined.

Lemma to_double_exact (z : Z) :
  (Z.abs z <= 2 ^ 53)%Z -> to_double z = z.
Proof.
  intros Hz. destruct (Z.eq_dec (Z.abs z) (2 ^ 53)) as [Heq | Hne].
  - destruct (Z.abs_eq_cases z (2 ^ 53)) as [-> | ->];
      [now rewrite Heq | reflexivity | reflexivity].
  - unfold to_double. cbv zeta.
    destruct (Z.leb_spec (Z.log2 (Z.abs z) + 1 - 53) 0) as [_ | Hgt];
      [reflexivity |].
    exfalso.
    assert (Hpos : (0 < Z.abs z)%Z).
    { destruct (Z.eq_dec (Z.abs z) 0) as [E | E]; [| pose proof (Z.abs_nonneg z); lia].
      rewrite E in Hgt. cbn in Hgt. lia. }
    assert (Hlt : (Z.abs z < 2 ^ 53)%Z) by lia.
    apply Z.log2_lt_pow2 in Hlt; [lia | exact Hpos].
Qed.

Lemma leading_digits_nonneg (s : string) (acc : Z) :
  (0 <= acc)%Z -> (0 <= leading_digits acc s)%Z.
Proof.
  revert acc. induction s as [| c s IH]; intros acc Hacc; cbn [leading_digits];
    [exact Hacc |].
  destruct (is_digit c); [apply IH; lia | exact Hacc].
Qed.

(** X26.  An invoice number that begins with digits is sent as the number those
    digits spell, as long as that number is at most [2^53] (a larger one
    is rounded to a double: ['9007199254740993'] is sent as
    9007199254740992); whatever follows the digits is dropped, so invoice
    numbers that differ only after their leading digits are sent as the
    same value. *)
Theorem ensureNumber_keeps_leading_digits (digits rest rest' : string) :
  all_in is_digit digits = true -> digits <> EmptyString ->
  starts_with_digit rest = false -> starts_with_digit rest' = false ->
  ((leading_digits 0 digits <= 2 ^ 53)%Z ->
   ensureNumber (JString (digits ++ rest))
   = JNumber (Finite (leading_digits 0 digits)))
  /\ ensureNumber (JString (digits ++ rest))
     = ensureNumber (JString (digits ++ rest'))
  /\ ensureNumber (JString "9007199254740993")
     = JNumber (Finite 9007199254740992).
Proof.
  intros Hd Hne Hr Hr'.
  assert (Hone : forall r, starts_with_digit r = false ->
            ensureNumber (JString (digits ++ r))
            = JNumber (Finite (to_double (leading_digits 0 digits)))).
  { intros r Hrest. destruct digits as [| c d]; [contradiction |].
    pose proof Hd as Hd'. cbn in Hd'. apply andb_true_iff in Hd' as [Hc _].
    destruct (digit_not_ws c Hc) as (Hws & Hm & Hp).
    cbn [ensureNumber append]. rewrite parseInt10_head by assumption.
    rewrite Hc, Z.mul_1_l.
    change (String c (d ++ r)) with (String c d ++ r).
    now rewrite leading_digits_stop. }
  split; [| split].
  - intros Hbound. rewrite Hone by exact Hr. rewrite to_double_exact; [reflexivity |].
    rewrite Z.abs_eq; [exact Hbound | apply leading_digits_nonneg; lia].
  - now rewrite !Hone.
  - vm_compute. reflexivity.
Qed.

Lemma ensureNumber_keeps_leading_digits_witness :
  ensureNumber (JString "12/A") = JNumber (Finite 12)
  /\ ensureNumber (JString "12/A") = ensureNumber (JString "12/B").
Proof.
  destruct (ensureNumber_keeps_leading_digits "12" "/A" "/B")
    as (Hvalue & Hsame & _); try reflexivity; try discriminate.
  split; [apply Hvalue; vm_compute; discriminate | exact Hsame].
Defined.

End ParseFacts.

(** ** The extractor, continued *)

Module InvoiceTextFacts.

Import Js Sheet PQEntryForm StringFacts RegexFacts TrimFacts ExtractorFacts.

Lemma all_in_append (cls : ascii -> bool) (a b : string) :
  all_in cls (a ++ b) = all_in cls a && all_in cls b.
Proof.
  induction a as [| c a IH]; cbn; [reflexivity |].
  now rewrite IH, andb_assoc.
Qed.

Lemma Matches_all_in (cls : ascii -> bool) (p : Pattern) (m : string) :
  Matches p m ->
  Forall (fun a => forall c, accepts a c = true -> cls c = true) p ->
  all_in cls m = true.
Proof.
  induction 1 as [| a p s1 s2 Hall Hlo Hcap HM IH]; intros Hp; [reflexivity |].
  inversion Hp as [| ? ? Ha Hp']; subst.
  rewrite all_in_append, IH by assumption. rewrite andb_true_r.
  clear - Hall Ha. induction s1 as [| c s1 IH]; cbn in *; [reflexivity |].
  apply andb_true_iff in Hall as [Hc Hall].
  now rewrite (Ha c Hc), IH.
Qed.

Lemma no_ws_trimEnd (s : string) :
  all_in (fun c => negb (is_ws c)) s = true -> trimEnd s = s.
Proof.
  induction s as [| c s IH]; cbn; [reflexivity |].
  intros H. apply andb_true_iff in H as [Hc Hs].
  apply negb_true_iff in Hc. rewrite Hc. cbn. now rewrite IH.
Qed.

Lemma no_ws_trim (s : string) :
  all_in (fun c => negb (is_ws c)) s = true -> trim s = s.
Proof.
  intros H. unfold trim.
  assert (Hstart : trimStart s = s).
  { destruct s as [| c s]; [reflexivity |]. cbn in H |- *.
    apply andb_true_iff in H as [Hc _]. apply negb_true_iff in Hc.
    now rewrite Hc. }
  rewrite Hstart. now apply no_ws_trimEnd.
Qed.

Lemma invoice_classes_no_ws :
  Forall (fun a => forall c, accepts a c = true -> negb (is_ws c) = true)
    invoice_re.
Proof.
  unfold invoice_re.
  repeat constructor; cbn; intros c;
    destruct c as [[] [] [] [] [] [] [] []]; cbn; intros H;
    first [reflexivity | discriminate H].
Qed.

Lemma length_Infix (sub s : string) : Infix sub s -> length sub <= length s.
Proof.
  intros [pre [post ->]]. rewrite !length_append. lia.
Qed.

(** X10.  [extractInvoiceNumber] returns a contiguous piece of its argument, no
    longer than the argument, without white space at either end; on a
    blank argument it returns the empty text. *)
Theorem extractInvoiceNumber_trimmed_piece (text : string) :
  Infix (extractInvoiceNumber text) text
  /\ length (extractInvoiceNumber text) <= length text
  /\ trim (extractInvoiceNumber text) = extractInvoiceNumber text
  /\ (trim text = EmptyString -> extractInvoiceNumber text = EmptyString).
Proof.
  pose proof (extractInvoiceNumber_infix text) as Hin.
  split; [exact Hin |]. split; [now apply length_Infix |]. split.
  - unfold extractInvoiceNumber.
    destruct (search invoice_re (trim text)) as [m |] eqn:Hs.
    + apply search_sound in Hs as [HM _].
      apply no_ws_trim.
      apply (Matches_all_in _ _ _ HM invoice_classes_no_ws).
    + destruct (cut_at_indicator (trim text) dateIndicators) as [c |] eqn:Hc.
      * clear Hs Hin. revert Hc. generalize dateIndicators.
        intros inds. induction inds as [| i inds IH]; cbn; [discriminate |].
        destruct (0 <? indexOf (trim text) i)%Z; [| exact IH].
        intros [= <-]. apply trim_idempotent.
      * apply trim_idempotent.
  - intros Hblank. unfold extractInvoiceNumber. rewrite Hblank. reflexivity.
Qed.

Lemma run_length_stop (cls : ascii -> bool) (cap : option nat) (s1 t : string) :
  all_in cls s1 = true -> within cap (length s1) ->
  all_in cls (take 1 t) = false \/ t = EmptyString ->
  run_length cls cap (s1 ++ t) = length s1.
Proof.
  revert cap. induction s1 as [| c s1 IH]; intros cap Hall Hcap Ht; cbn.
  - destruct Ht as [Ht | ->]; [| reflexivity].
    destruct t as [| x t]; [reflexivity |]. cbn in Ht |- *.
    rewrite andb_true_r in Ht. now rewrite Ht.
  - cbn in Hall. apply andb_true_iff in Hall as [Hc Hall]. rewrite Hc.
    destruct cap as [[| m] |]; cbn in Hcap; [lia | |].
    + f_equal. apply IH; [exact Hall | cbn; lia | exact Ht].
    + f_equal. apply IH; [exact Hall | exact I | exact Ht].
Qed.

Lemma run_length_full (cls : ascii -> bool) (s1 t : string) :
  all_in cls s1 = true ->
  run_length cls (Some (length s1)) (s1 ++ t) = length s1.
Proof.
  induction s1 as [| c s1 IH]; intros Hall; cbn.
  - destruct t as [| x t]; cbn; [reflexivity | now destruct (cls x)].
  - cbn in Hall. apply andb_true_iff in Hall as [Hc Hall]. rewrite Hc.
    now rewrite IH.
Qed.

Lemma try_counts_first {R} (k lo : nat) (f : nat -> option R) (r : R) :
  f k = Some r -> try_counts k lo f = Some r.
Proof. intros H. destruct k; cbn; now rewrite H. Qed.

(** One atom consumed greedily, the rest of the pattern matched behind. *)
Lemma match_here_step (a : Atom) (p : Pattern) (s1 t m : string) :
  at_least a <= length s1 ->
  run_length (accepts a) (at_most a) (s1 ++ t) = length s1 ->
  match_here p t = Some m ->
  match_here (a :: p) (s1 ++ t) = Some (s1 ++ m).
Proof.
  intros Hlo Hrun Hrest. cbn [match_here]. rewrite Hrun.
  destruct (Nat.ltb_spec (length s1) (at_least a)) as [Hlt | _]; [lia |].
  apply try_counts_first.
  now rewrite drop_append, take_append, Hrest.
Qed.

Lemma match_here_char (c : ascii) (p : Pattern) (t m : string) :
  match_here p t = Some m ->
  match_here (one c :: p) (String c t) = Some (String c m).
Proof.
  intros Hrest.
  apply (match_here_step (one c) p (String c EmptyString) t m);
    [cbn; lia | | exact Hrest].
  apply (run_length_full (accepts (one c)) (String c EmptyString) t).
  cbn. now rewrite Ascii.eqb_refl.
Qed.

Lemma match_here_last (a : Atom) (s1 t : string) :
  at_least a <= length s1 ->
  run_length (accepts a) (at_most a) (s1 ++ t) = length s1 ->
  match_here [a] (s1 ++ t) = Some s1.
Proof.
  intros Hlo Hrun.
  rewrite <- (append_nil_r s1) at 2.
  now apply match_here_step.
Qed.

Lemma match_here_invoice (v rest : string) :
  invoice_shape v -> match_here invoice_re (v ++ rest) = Some v.
Proof.
  intros (letters & serial & year & suffix & -> & Hl & Hll & Hs & Hsl
          & Hy & Hyl & Hx & Hxl).
  unfold invoice_re. rewrite !append_assoc. cbn [append].
  apply match_here_step;
    [cbn; lia
    | apply run_length_stop; [exact Hl | cbn; lia | now left] |].
  apply match_here_char.
  apply match_here_step;
    [cbn; lia
    | apply run_length_stop; [exact Hs | exact I | now left] |].
  apply match_here_char.
  apply match_here_step;
    [cbn; lia
    | cbn [accepts at_most]; rewrite <- Hyl; now apply run_length_full |].
  apply match_here_char.
  apply match_here_last;
    [cbn; lia
    | cbn [accepts at_most]; rewrite <- Hxl; now apply run_length_full].
Qed.

Lemma search_here (p : Pattern) (s m : string) :
  match_here p s = Some m -> search p s = Some m.
Proof. intros H. destruct s; cbn; now rewrite H. Qed.

Lemma trimEnd_append (a b : string) :
  trimEnd (a ++ b)
  = if is_empty (trimEnd b) then trimEnd a else a ++ trimEnd b.
Proof.
  induction a as [| c a IH]; cbn.
  - now destruct (trimEnd b).
  - rewrite IH. destruct (is_empty (trimEnd b)) eqn:Hb; [reflexivity |].
    destruct (a ++ trimEnd b) eqn:Hab; [| now rewrite andb_false_r].
    destruct a; [cbn in Hab; now rewrite Hab in Hb | discriminate].
Qed.

(** X11.  A text that begins with an invoice number of the accepted form is
    cleaned to exactly that invoice number, whatever follows it (a date,
    further digits, anything). *)
Theorem extractInvoiceNumber_keeps_leading_invoice (v rest : string) :
  invoice_shape v -> extractInvoiceNumber (v ++ rest) = v.
Proof.
  intros Hshape.
  assert (Hnows : all_in (fun c => negb (is_ws c)) v = true).
  { pose proof (match_here_invoice v EmptyString Hshape) as Hm.
    apply match_here_sound in Hm as [HM _].
    apply (Matches_all_in _ _ _ HM invoice_classes_no_ws). }
  assert (Hclean : exists rest', trim (v ++ rest) = v ++ rest').
  { unfold trim.
    assert (Hstart : trimStart (v ++ rest) = v ++ rest).
    { destruct Hshape as (letters & ? & ? & ? & -> & Hl & Hll & _).
      destruct letters as [| c letters]; [cbn in Hll; lia |].
      cbn in Hnows |- *. apply andb_true_iff in Hnows as [Hc _].
      apply negb_true_iff in Hc. now rewrite Hc. }
    rewrite Hstart, trimEnd_append.
    destruct (is_empty (trimEnd rest)).
    - exists EmptyString. now rewrite no_ws_trimEnd, append_nil_r.
    - now exists (trimEnd rest). }
  destruct Hclean as [rest' Hclean].
  unfold extractInvoiceNumber. rewrite Hclean.
  assert (Hsearch : search invoice_re (v ++ rest') = Some v).
  { apply search_here. now apply match_here_invoice. }
  now rewrite Hsearch.
Qed.

Lemma extractInvoiceNumber_keeps_leading_invoice_witness :
  extractInvoiceNumber ("RTC/037/2025-26" ++ " DT: 01.07.2025") = "RTC/037/2025-26".
Proof.
  apply (extractInvoiceNumber_keeps_leading_invoice "RTC/037/2025-26"
           " DT: 01.07.2025").
  exists "RTC", "037", "2025", "26". cbn. repeat split; lia.
Defined.

End InvoiceTextFacts.

Module ScanFacts.

Import Js Sheet PQEntryForm Grid StringFacts ExtractorFacts.

Lemma upper_char_not_lower (c : ascii) : negb (is_lower (upper_char c)) = true.
Proof. destruct c as [[] [] [] [] [] [] [] []]; reflexivity. Qed.

Lemma toUpperCase_not_lower (s : string) :
  all_in (fun c => negb (is_lower c)) (toUpperCase s) = true.
Proof.
  induction s as [| c s IH]; cbn; [reflexivity |].
  now rewrite upper_char_not_lower, IH.
Qed.

(** X8.  A destination the extractor assigns holds no lower-case letter: it is
    ["SRI LANKA"] or an upper-cased cell text or country name. *)
Theorem extracted_destination_is_upper_case (ws : Worksheet) (v : string) :
  field (scan ws) "destination_port" = Some v ->
  all_in (fun c => negb (is_lower c)) v = true
  /\ toUpperCase v = v.
Proof.
  intros Hv.
  assert (Hup : all_in (fun c => negb (is_lower c)) v = true).
  { revert v Hv.
    apply (scan_ind ws (fun st => forall v,
             field st "destination_port" = Some v ->
             all_in (fun c => negb (is_lower c)) v = true)).
    - intros v [=].
    - intros line st _ H. exact H.
    - intros k v0 detail st Hw _ H v. unfold field, found. cbn [extractedData].
      destruct Hw as [a c Hin | a c Hin | a c Hin Hacc | a c Hin | a c Hin
                     | a c country Hin Hc];
        try (rewrite get_set_other by discriminate; apply H);
        rewrite get_set_same; intros [= <-].
      + unfold normalise_destination.
        destruct (_ || _); [reflexivity |].
        destruct (includes _ _); [reflexivity | apply toUpperCase_not_lower].
      + destruct (_ || _); [reflexivity | apply toUpperCase_not_lower]. }
  split; [exact Hup |].
  clear Hv. induction v as [| c v IH]; cbn in *; [reflexivity |].
  apply andb_true_iff in Hup as [Hc Hup].
  unfold upper_char. apply negb_true_iff in Hc. rewrite Hc.
  f_equal. now apply IH.
Qed.

Lemma extracted_destination_is_upper_case_witness :
  toUpperCase "BANGLADESH" = "BANGLADESH".
Proof.
  apply (extracted_destination_is_upper_case two_country_sheet "BANGLADESH").
  vm_compute. reflexivity.
Defined.

(** X9.  The extractor finds at most five fields, and whenever it finds any,
    the log carries the success line with their number. *)
Theorem extracted_count_bounds (ws : Worksheet) (st : FormState) :
  let n := List.length (JsObject.keys (extractedData (scan ws))) in
  n <= 5
  /\ (0 < n -> In (success_line n) (extractionLog (extractDataFromExcel ws st)))
  /\ (n = 0 -> In no_data_line (extractionLog (extractDataFromExcel ws st))).
Proof.
  cbv zeta. split.
  - change 5 with (List.length targetFields).
    apply (NoDup_incl_length (scan_keys_nodup ws)).
    intros k Hk. exact (scan_keys_in_target ws k Hk).
  - unfold extractDataFromExcel. cbv zeta.
    destruct (List.length (JsObject.keys (extractedData (scan ws)))) as [| n];
      cbn [Nat.ltb Nat.leb extractionLog]; split;
      try (intros H; lia); try discriminate; intros _;
      apply in_or_app; right; cbn; tauto.
Qed.

Lemma scan_cols_blank (r c : nat) (cells : list CellValue) (cellMap : CellMap) :
  (forall v, In v cells -> kept v = false) -> scan_cols r c cells cellMap = cellMap.
Proof.
  revert c. induction cells as [| v cells IH]; intros c Hblank; cbn;
    [reflexivity |].
  pose proof (Hblank v (or_introl eq_refl)) as Hv. unfold kept in Hv.
  rewrite Hv. apply IH. intros x Hx. apply Hblank. now right.
Qed.

Lemma scan_rows_blank (r : nat) (rows : list (list CellValue)) (cellMap : CellMap) :
  (forall cells v, In cells rows -> In v cells -> kept v = false) ->
  scan_rows r rows cellMap = cellMap.
Proof.
  revert r. induction rows as [| cells rows IH]; intros r Hblank; cbn;
    [reflexivity |].
  rewrite scan_cols_blank by (intros v Hv; eapply Hblank; [now left | exact Hv]).
  apply IH. intros cs v Hcs. apply Hblank. now right.
Qed.

(** X3.  A sheet without rows, or with blank cells only, yields no field: the
    form is left as it is, the [file] error is set and the log ends with
    the failure line. *)
Theorem blank_sheet_extracts_nothing (ws : Worksheet) (st : FormState) :
  (forall cells v, In cells (jsonData ws) -> In v cells -> kept v = false) ->
  let out := extractDataFromExcel ws st in
  build_cellMap (jsonData ws) = []
  /\ extractedData (scan ws) = []
  /\ formData out = formData st
  /\ JsObject.get (errors out) "file" = Some no_data_error
  /\ exists lines, extractionLog out = (lines ++ [no_data_line])%list.
Proof.
  intros Hblank. cbv zeta.
  assert (Hmap : build_cellMap (jsonData ws) = []).
  { unfold build_cellMap. now apply scan_rows_blank. }
  assert (Hdata : extractedData (scan ws) = []).
  { apply (scan_ind ws (fun st => extractedData st = [])).
    - reflexivity.
    - intros line s _ H. exact H.
    - intros k v detail s Hw _ _. rewrite Hmap in Hw. now destruct Hw. }
  split; [exact Hmap |]. split; [exact Hdata |].
  unfold extractDataFromExcel. cbv zeta. rewrite Hdata.
  cbn [JsObject.keys map List.length Nat.ltb Nat.leb formData errors extractionLog].
  split; [reflexivity |]. split; [apply get_set_same |].
  eexists. reflexivity.
Qed.

Lemma blank_sheet_extracts_nothing_witness :
  extractedData (scan blank_sheet) = [].
Proof.
  apply (blank_sheet_extracts_nothing blank_sheet initialState).
  cbn. intros cells v [<- | [<- | []]]; [| intros []].
  intros [<- | [<- | []]]; reflexivity.
Defined.

End ScanFacts.

(** ** The cell map *)

Module GridFacts.

Import Js Sheet PQEntryForm Grid StringFacts ExtractorFacts.

(** *** Addresses determine the row and the column *)

Lemma code_letter (m : nat) : m < 26 -> code (ascii_of_nat (m + 65)) = m + 65.
Proof. intros Hm. unfold code. apply nat_ascii_embedding. lia. Qed.

Lemma decode_encode_loop (fuel col : nat) (acc : string) :
  col <= fuel ->
  decode_col_from 0 (encode_col_loop fuel col acc) = decode_col_from col acc.
Proof.
  revert col acc. induction fuel as [| fuel IH]; intros col acc Hle;
    cbn [encode_col_loop].
  - now replace col with 0 by lia.
  - destruct (Nat.eqb_spec col 0) as [-> | Hpos]; [reflexivity |].
    assert (Hdiv : (col - 1) / 26 <= fuel).
    { apply Nat.Div0.div_le_upper_bound. lia. }
    rewrite IH by exact Hdiv. cbn [decode_col_from].
    rewrite code_letter by (apply Nat.mod_upper_bound; lia).
    f_equal.
    pose proof (Nat.div_mod_eq (col - 1) 26). lia.
Qed.

Lemma decode_encode_col (c : nat) : decode_col_from 0 (encode_col c) = S c.
Proof. unfold encode_col. now rewrite decode_encode_loop. Qed.

Lemma encode_col_loop_upper (fuel col : nat) (acc : string) :
  all_in is_upper acc = true ->
  all_in is_upper (encode_col_loop fuel col acc) = true.
Proof.
  revert col acc. induction fuel as [| fuel IH]; intros col acc Hacc;
    cbn [encode_col_loop]; [exact Hacc |].
  destruct (col =? 0)%nat; [exact Hacc |].
  apply IH. cbn [all_in]. rewrite Hacc, andb_true_r.
  unfold is_upper, in_range.
  rewrite code_letter by (apply Nat.mod_upper_bound; lia).
  apply andb_true_iff. split; apply Nat.leb_le;
    pose proof (Nat.mod_upper_bound (col - 1) 26); lia.
Qed.

Lemma to_uint_nonnil (n : nat) : Nat.to_uint n <> Decimal.Nil.
Proof.
  intros H. pose proof (DecimalNat.Unsigned.of_to n) as Hn.
  rewrite H in Hn. cbn in Hn. subst n. discriminate H.
Qed.

Lemma of_nat_inj (n m : nat) : of_nat n = of_nat m -> n = m.
Proof.
  unfold of_nat. intros H.
  apply DecimalNat.Unsigned.to_uint_inj.
  pose proof (NilZero.usu (Nat.to_uint n) (to_uint_nonnil n)) as Hn.
  pose proof (NilZero.usu (Nat.to_uint m) (to_uint_nonnil m)) as Hm.
  rewrite H in Hn. congruence.
Qed.

Lemma string_of_uint_digits (d : Decimal.uint) :
  all_in is_digit (NilEmpty.string_of_uint d) = true.
Proof. induction d; cbn; first [reflexivity | exact IHd]. Qed.

Lemma of_nat_digits (n : nat) : all_in is_digit (of_nat n) = true.
Proof.
  unfold of_nat, NilZero.string_of_uint.
  destruct (Nat.to_uint n) eqn:Hd; first [reflexivity | rewrite <- Hd];
    apply string_of_uint_digits.
Qed.

Lemma upper_not_digit (c : ascii) : is_upper c = true -> is_digit c = false.
Proof.
  destruct c as [[] [] [] [] [] [] [] []]; cbn; intros H;
    first [discriminate H | reflexivity].
Qed.

Lemma letters_digits_split (a1 a2 d1 d2 : string) :
  all_in is_upper a1 = true -> all_in is_upper a2 = true ->
  all_in is_digit d1 = true -> all_in is_digit d2 = true ->
  a1 ++ d1 = a2 ++ d2 -> a1 = a2 /\ d1 = d2.
Proof.
  revert a2. induction a1 as [| c a1 IH]; intros [| c2 a2] Ha1 Ha2 Hd1 Hd2;
    cbn in *.
  - intros ->. now split.
  - intros ->. cbn in Hd1.
    apply andb_true_iff in Ha2 as [Hc _], Hd1 as [Hd _].
    rewrite (upper_not_digit _ Hc) in Hd. discriminate.
  - intros <-. cbn in Hd2.
    apply andb_true_iff in Ha1 as [Hc _], Hd2 as [Hd _].
    rewrite (upper_not_digit _ Hc) in Hd. discriminate.
  - intros [= <- Heq].
    apply andb_true_iff in Ha1 as [_ Ha1], Ha2 as [_ Ha2].
    destruct (IH a2 Ha1 Ha2 Hd1 Hd2 Heq) as [-> ->]. now split.
Qed.

(** [encode_cell] gives different addresses to different positions. *)
Lemma encode_cell_inj (r c r' c' : nat) :
  encode_cell r c = encode_cell r' c' -> r = r' /\ c = c'.
Proof.
  unfold encode_cell. intros H.
  apply letters_digits_split in H as [Hcol Hrow];
    try (unfold encode_col; now apply encode_col_loop_upper);
    try apply of_nat_digits.
  apply of_nat_inj in Hrow.
  apply (f_equal (decode_col_from 0)) in Hcol.
  rewrite !decode_encode_col in Hcol. lia.
Qed.

(** *** The cell map is the list of the stored cells in scan order *)

Lemma set_fresh {V} (o : JsObject.t V) (k : string) (v : V) :
  ~ In k (JsObject.keys o) -> JsObject.set k v o = (o ++ [(k, v)])%list.
Proof.
  unfold JsObject.keys. induction o as [| [k0 v0] o IH]; cbn; intros Hnot;
    [reflexivity |].
  destruct (String.eqb_spec k0 k) as [-> | Hne]; [exfalso; apply Hnot; now left |].
  rewrite IH; [reflexivity | tauto].
Qed.

Lemma before_fresh (r c : nat) (cellMap : CellMap) :
  before r c cellMap -> ~ In (encode_cell r c) (JsObject.keys cellMap).
Proof.
  intros Hb Hin. unfold JsObject.keys in Hin.
  apply in_map_iff in Hin as [[a cell] [Ha Hin]]. cbn in Ha. subst a.
  destruct (Hb _ _ Hin) as [Haddr Hpos].
  apply encode_cell_inj in Haddr as [Hr Hc]. lia.
Qed.

Lemma before_weaken (r c r' c' : nat) (cellMap : CellMap) :
  r < r' \/ (r = r' /\ c <= c') -> before r c cellMap -> before r' c' cellMap.
Proof.
  intros Hle Hb a cell Hin. destruct (Hb a cell Hin) as [Ha Hpos].
  split; [exact Ha | lia].
Qed.

Lemma before_snoc (r c : nat) (cellMap : CellMap) (v : string) :
  before r c cellMap ->
  before r (S c) (cellMap ++ [(encode_cell r c, mkCell v r c)])%list.
Proof.
  intros Hb a cell Hin. apply in_app_or in Hin as [Hin | [[= <- <-] | []]].
  - destruct (Hb a cell Hin) as [Ha Hpos]. split; [exact Ha | lia].
  - cbn. split; [reflexivity | lia].
Qed.

Lemma scan_cols_spec (r c : nat) (cells : list CellValue) (cellMap : CellMap) :
  before r c cellMap ->
  scan_cols r c cells cellMap = (cellMap ++ row_cells r c cells)%list
  /\ before (S r) 0 (scan_cols r c cells cellMap).
Proof.
  revert c cellMap. induction cells as [| v cells IH]; intros c cellMap Hb;
    cbn [scan_cols row_cells].
  - rewrite app_nil_r. split; [reflexivity |].
    eapply before_weaken; [| exact Hb]. lia.
  - fold (kept v). destruct (kept v).
    + rewrite set_fresh by now apply before_fresh.
      destruct (IH (S c) _ (before_snoc r c cellMap (trim (toString v)) Hb))
        as [Heq Hnext].
      split; [| exact Hnext].
      rewrite Heq, <- app_assoc. reflexivity.
    + apply IH. eapply before_weaken; [| exact Hb]. lia.
Qed.

Lemma scan_rows_spec (r : nat) (rows : list (list CellValue)) (cellMap : CellMap) :
  before r 0 cellMap ->
  scan_rows r rows cellMap = (cellMap ++ grid_cells r rows)%list.
Proof.
  revert r cellMap. induction rows as [| cells rows IH]; intros r cellMap Hb;
    cbn [scan_rows grid_cells].
  - now rewrite app_nil_r.
  - destruct (scan_cols_spec r 0 cells cellMap Hb) as [Heq Hnext].
    rewrite IH by exact Hnext. now rewrite Heq, <- app_assoc.
Qed.

Lemma build_cellMap_nodup (rows : list (list CellValue)) :
  NoDup (JsObject.keys (build_cellMap rows)).
Proof.
  unfold build_cellMap.
  assert (Hcols : forall cells r c m,
            NoDup (JsObject.keys m) -> NoDup (JsObject.keys (scan_cols r c cells m))).
  { induction cells as [| v cells IH]; intros r c m Hm; cbn; [exact Hm |].
    apply IH. destruct (_ && _); [now apply NoDup_keys_set | exact Hm]. }
  assert (Hrows : forall rs r m,
            NoDup (JsObject.keys m) -> NoDup (JsObject.keys (scan_rows r rs m))).
  { induction rs as [| cells rs IH]; intros r m Hm; cbn; [exact Hm |].
    apply IH. now apply Hcols. }
  apply Hrows. constructor.
Qed.



Lemma build_cellMap_grid_cells (rows : list (list CellValue)) :
  build_cellMap rows = grid_cells 0 rows.
Proof.
  unfold build_cellMap. rewrite scan_rows_spec; [reflexivity |].
  intros a cell [].
Qed.


(** *** Looking an address up *)

Lemma In_get {V} (o : JsObject.t V) (k : string) (v : V) :
  NoDup (JsObject.keys o) -> In (k, v) o -> JsObject.get o k = Some v.
Proof.
  unfold JsObject.keys. induction o as [| [k0 v0] o IH]; cbn; intros Hnd Hin;
    [destruct Hin |].
  inversion Hnd as [| ? ? Hnotin Hnd']; subst.
  destruct Hin as [[= -> ->] | Hin]; [now rewrite String.eqb_refl |].
  destruct (String.eqb_spec k0 k) as [-> | Hne]; [| now apply IH].
  exfalso. apply Hnotin. apply in_map_iff. now exists (k, v).
Qed.

Lemma In_row_cells (r c0 : nat) (cells : list CellValue)
    (address : string) (cell : Cell) :
  In (address, cell) (row_cells r c0 cells)
  <-> exists c v,
        c0 <= c /\ nth_error cells (c - c0) = Some v /\ kept v = true
        /\ address = encode_cell r c
        /\ cell = mkCell (trim (toString v)) r c.
Proof.
  revert c0. induction cells as [| v cells IH]; intros c0; cbn [row_cells].
  - split; [intros [] |]. intros (c & v & _ & Hnth & _).
    now destruct (c - c0).
  - rewrite in_app_iff, IH. split.
    + intros [Hin | (c & v' & Hle & Hnth & Hk & Ha & Hc)].
      * destruct (kept v) eqn:Hk; [| destruct Hin].
        destruct Hin as [[= <- <-] | []].
        exists c0, v. rewrite Nat.sub_diag. repeat split; [lia | exact Hk].
      * exists c, v'. replace (c - c0) with (S (c - S c0)) by lia.
        repeat split; [lia | exact Hnth | exact Hk | exact Ha | exact Hc].
    + intros (c & v' & Hle & Hnth & Hk & Ha & Hc).
      destruct (Nat.eq_dec c c0) as [-> | Hne].
      * rewrite Nat.sub_diag in Hnth. cbn in Hnth. injection Hnth as <-.
        left. rewrite Hk, Ha, Hc. now left.
      * right. exists c, v'.
        replace (c - c0) with (S (c - S c0)) in Hnth by lia.
        repeat split; [lia | exact Hnth | exact Hk | exact Ha | exact Hc].
Qed.

Lemma In_grid_cells (r0 : nat) (rows : list (list CellValue))
    (address : string) (cell : Cell) :
  In (address, cell) (grid_cells r0 rows)
  <-> exists r c v,
        r0 <= r /\ at_position rows (r - r0) c = Some v /\ kept v = true
        /\ address = encode_cell r c
        /\ cell = mkCell (trim (toString v)) r c.
Proof.
  revert r0. induction rows as [| cells rows IH]; intros r0; cbn [grid_cells].
  - split; [intros [] |]. intros (r & c & v & _ & Hat & _).
    unfold at_position in Hat. now destruct (r - r0).
  - rewrite in_app_iff, IH, In_row_cells. unfold at_position. split.
    + intros [(c & v & _ & Hnth & Hk & Ha & Hc)
             | (r & c & v & Hle & Hat & Hk & Ha & Hc)].
      * exists r0, c, v. rewrite Nat.sub_diag. rewrite Nat.sub_0_r in Hnth.
        repeat split; [lia | exact Hnth | exact Hk | exact Ha | exact Hc].
      * exists r, c, v. replace (r - r0) with (S (r - S r0)) by lia.
        repeat split; [lia | exact Hat | exact Hk | exact Ha | exact Hc].
    + intros (r & c & v & Hle & Hat & Hk & Ha & Hc).
      destruct (Nat.eq_dec r r0) as [-> | Hne].
      * rewrite Nat.sub_diag in Hat. cbn in Hat.
        left. exists c, v. rewrite Nat.sub_0_r.
        repeat split; [lia | exact Hat | exact Hk | exact Ha | exact Hc].
      * right. exists r, c, v.
        replace (r - r0) with (S (r - S r0)) in Hat by lia.
        repeat split; [lia | exact Hat | exact Hk | exact Ha | exact Hc].
Qed.

(** X2.  Looking up the address of a row and a column finds a cell exactly
    when the grid has a non-blank value there, and the cell found holds
    that value, trimmed, with that row and that column. *)
Theorem cellMap_lookup (rows : list (list CellValue)) (r c : nat) (cell : Cell) :
  JsObject.get (build_cellMap rows) (encode_cell r c) = Some cell
  <-> exists v,
        at_position rows r c = Some v /\ kept v = true
        /\ cell = mkCell (trim (toString v)) r c.
Proof.
  split.
  - intros Hget. apply get_In in Hget.
    rewrite build_cellMap_grid_cells in Hget.
    apply In_grid_cells in Hget as (r' & c' & v & _ & Hat & Hk & Ha & Hc).
    apply encode_cell_inj in Ha as [-> ->]. rewrite Nat.sub_0_r in Hat.
    now exists v.
  - intros (v & Hat & Hk & Hc).
    apply In_get; [apply build_cellMap_nodup |].
    rewrite build_cellMap_grid_cells. apply In_grid_cells.
    exists r, c, v. rewrite Nat.sub_0_r.
    repeat split; [lia | exact Hat | exact Hk | exact Hc].
Qed.

End GridFacts.

(** ** The phases of the scan, one by one *)

Module PhaseFacts.

Import Js Sheet PQEntryForm Grid StringFacts ExtractorFacts.

(** *** Each phase assigns one key only *)

Section OneKey.

Variable cellMap : CellMap.
Variable P : Scan -> Prop.

Hypothesis P_log : forall line st, P st -> P (log line st).

Ltac each_iteration :=
  apply for_break_ind; [| assumption];
  let x := fresh "x" in
  let st := fresh "st" in
  let Hin := fresh "Hin" in
  let HP := fresh "HP" in
  intros x st Hin HP.

Ltac cell_at address :=
  let next := fresh "next" in
  destruct (JsObject.get cellMap address) as [next |];
  [| cbn [fst]; assumption].

Lemma extract_shipper_one_key (st : Scan) :
  (forall v detail s, P s -> P (found "shipper_name" v detail s)) ->
  P st -> P (extract_shipper cellMap st).
Proof.
  intros Hfound HP. unfold extract_shipper. each_iteration.
  destruct x as [address cell].
  destruct (lower_has (value cell) "exporter"); cbn [fst]; [| assumption].
  each_iteration. cell_at (encode_cell (row cell + x) (col cell)).
  destruct (_ && _); cbn [fst]; [now apply Hfound | assumption].
Qed.

Lemma extract_buyer_labelled_one_key (st : Scan) :
  (forall v detail s, P s -> P (found "buyer" v detail s)) ->
  P st -> P (extract_buyer_labelled cellMap st).
Proof.
  intros Hfound HP. unfold extract_buyer_labelled. each_iteration.
  destruct x as [address cell].
  destruct (lower_has (value cell) "consignee"); cbn [fst]; [| assumption].
  each_iteration. cell_at (encode_cell (row cell + x) (col cell)).
  destruct (_ && _); cbn [fst]; [now apply Hfound | assumption].
Qed.

Lemma extract_buyer_range_one_key (st : Scan) :
  (forall v detail s, P s -> P (found "buyer" v detail s)) ->
  P st -> P (extract_buyer_range cellMap st).
Proof.
  intros Hfound HP. unfold extract_buyer_range.
  destruct (negb _); [| assumption].
  apply for_break_ind; [| now apply P_log].
  intros c st0 _ HP0. cell_at (encode_cell 9 c).
  destruct (_ && _); cbn [fst]; [now apply Hfound | assumption].
Qed.

Lemma invoice_candidate_one_key (address note : string) (st : Scan) :
  (forall v detail s, P s -> P (found "invoice_number" v detail s)) ->
  P st -> P (fst (invoice_candidate cellMap address note st)).
Proof.
  intros Hfound HP. unfold invoice_candidate. cell_at address.
  destruct (search invoice_re _); cbn [fst]; [now apply Hfound | assumption].
Qed.

Lemma extract_invoice_labelled_one_key (st : Scan) :
  (forall v detail s, P s -> P (found "invoice_number" v detail s)) ->
  P st -> P (extract_invoice_labelled cellMap st).
Proof.
  intros Hfound HP. unfold extract_invoice_labelled. each_iteration.
  destruct x as [address cell].
  destruct (_ && _); cbn [fst]; [| assumption].
  destruct (negb _).
  - apply for_break_ind.
    + intros; now apply invoice_candidate_one_key.
    + apply for_break_ind; [| assumption].
      intros; now apply invoice_candidate_one_key.
  - apply for_break_ind; [| assumption].
    intros; now apply invoice_candidate_one_key.
Qed.

Lemma extract_invoice_area_one_key (st : Scan) :
  (forall v detail s, P s -> P (found "invoice_number" v detail s)) ->
  P st -> P (extract_invoice_area cellMap st).
Proof.
  intros Hfound HP. unfold extract_invoice_area.
  destruct (negb _); [| assumption].
  apply for_break_ind; [| now apply P_log].
  intros r st0 _ HP0. cbn [fst].
  apply for_break_ind; [| assumption].
  intros; now apply invoice_candidate_one_key.
Qed.

Lemma extract_commodity_one_key (st : Scan) :
  (forall v detail s, P s -> P (found "commodity" v detail s)) ->
  P st -> P (extract_commodity cellMap st).
Proof.
  intros Hfound HP. unfold extract_commodity. each_iteration.
  destruct x as [address cell]. cbn [fst]. each_iteration.
  destruct (includes _ _); cbn [fst]; [now apply Hfound | assumption].
Qed.

Lemma extract_destination_labelled_one_key (st : Scan) :
  (forall v detail s, P s -> P (found "destination_port" v detail s)) ->
  P st -> P (extract_destination_labelled cellMap st).
Proof.
  intros Hfound HP. unfold extract_destination_labelled. each_iteration.
  destruct x as [address cell].
  destruct (is_destination_label _); cbn [fst]; [| assumption].
  match goal with
  | |- P (if negb (present (field ?s _)) then _ else _) => assert (H1 : P s)
  end.
  { each_iteration. cell_at (encode_cell (row cell) (col cell + x)).
    destruct (acceptable_destination _); cbn [fst];
      [now apply Hfound | assumption]. }
  destruct (negb _); [| assumption].
  destruct (JsObject.get cellMap (encode_cell (row cell + 1) (col cell)));
    [| assumption].
  destruct (acceptable_destination _); [now apply Hfound | assumption].
Qed.

Lemma extract_destination_fallback_one_key (st : Scan) :
  (forall v detail s, P s -> P (found "destination_port" v detail s)) ->
  P st -> P (extract_destination_fallback cellMap st).
Proof.
  intros Hfound HP. unfold extract_destination_fallback.
  destruct (negb _); [| assumption].
  apply for_break_ind; [| now apply P_log].
  intros [address cell] st0 Hin HP0.
  destruct (_ || _); cbn [fst]; [assumption |].
  apply for_break_ind; [| assumption].
  intros country st1 Hc HP1.
  destruct (includes _ country); cbn [fst]; [now apply Hfound | assumption].
Qed.

End OneKey.

Lemma field_log (line : string) (st : Scan) (k : string) :
  field (log line st) k = field st k.
Proof. reflexivity. Qed.

Lemma field_found_other (K v detail : string) (st : Scan) (k : string) :
  K <> k -> field (found K v detail st) k = field st k.
Proof. intros Hne. unfold field, found. cbn. now apply get_set_other. Qed.

Lemma field_found_same (K v detail : string) (st : Scan) :
  field (found K v detail st) K = Some v.
Proof. unfold field, found. cbn. apply get_set_same. Qed.

Lemma frame_shipper (cellMap : CellMap) (st : Scan) (k : string) :
  k <> "shipper_name" -> field (extract_shipper cellMap st) k = field st k.
Proof.
  intros Hk.
  apply (extract_shipper_one_key cellMap (fun s => field s k = field st k));
    [| reflexivity].
  intros v d s Hs. rewrite field_found_other by congruence. exact Hs.
Qed.

Lemma frame_buyer_labelled (cellMap : CellMap) (st : Scan) (k : string) :
  k <> "buyer" -> field (extract_buyer_labelled cellMap st) k = field st k.
Proof.
  intros Hk.
  apply (extract_buyer_labelled_one_key cellMap (fun s => field s k = field st k));
    [| reflexivity].
  intros v d s Hs. rewrite field_found_other by congruence. exact Hs.
Qed.

Lemma frame_buyer_range (cellMap : CellMap) (st : Scan) (k : string) :
  k <> "buyer" -> field (extract_buyer_range cellMap st) k = field st k.
Proof.
  intros Hk.
  apply (extract_buyer_range_one_key cellMap (fun s => field s k = field st k));
    [intros line s Hs; exact Hs | | reflexivity].
  intros v d s Hs. rewrite field_found_other by congruence. exact Hs.
Qed.

Lemma frame_invoice_labelled (cellMap : CellMap) (st : Scan) (k : string) :
  k <> "invoice_number" ->
  field (extract_invoice_labelled cellMap st) k = field st k.
Proof.
  intros Hk.
  apply (extract_invoice_labelled_one_key cellMap
           (fun s => field s k = field st k)); [| reflexivity].
  intros v d s Hs. rewrite field_found_other by congruence. exact Hs.
Qed.

Lemma frame_invoice_area (cellMap : CellMap) (st : Scan) (k : string) :
  k <> "invoice_number" ->
  field (extract_invoice_area cellMap st) k = field st k.
Proof.
  intros Hk.
  apply (extract_invoice_area_one_key cellMap (fun s => field s k = field st k));
    [intros line s Hs; exact Hs | | reflexivity].
  intros v d s Hs. rewrite field_found_other by congruence. exact Hs.
Qed.

Lemma frame_commodity (cellMap : CellMap) (st : Scan) (k : string) :
  k <> "commodity" -> field (extract_commodity cellMap st) k = field st k.
Proof.
  intros Hk.
  apply (extract_commodity_one_key cellMap (fun s => field s k = field st k));
    [| reflexivity].
  intros v d s Hs. rewrite field_found_other by congruence. exact Hs.
Qed.

Lemma frame_destination_labelled (cellMap : CellMap) (st : Scan) (k : string) :
  k <> "destination_port" ->
  field (extract_destination_labelled cellMap st) k = field st k.
Proof.
  intros Hk.
  apply (extract_destination_labelled_one_key cellMap
           (fun s => field s k = field st k)); [| reflexivity].
  intros v d s Hs. rewrite field_found_other by congruence. exact Hs.
Qed.

Lemma frame_destination_fallback (cellMap : CellMap) (st : Scan) (k : string) :
  k <> "destination_port" ->
  field (extract_destination_fallback cellMap st) k = field st k.
Proof.
  intros Hk.
  apply (extract_destination_fallback_one_key cellMap
           (fun s => field s k = field st k));
    [intros line s Hs; exact Hs | | reflexivity].
  intros v d s Hs. rewrite field_found_other by congruence. exact Hs.
Qed.

(** X4.  No phase of the scan touches a field of another phase: the shipper
    search leaves every key but [shipper_name] as it was, the two buyer
    searches every key but [buyer], the two invoice searches every key but
    [invoice_number], the commodity search every key but [commodity], and
    the two destination searches every key but [destination_port]. *)
Theorem phases_assign_their_own_field (cellMap : CellMap) (st : Scan) (k : string) :
  (k <> "shipper_name" -> field (extract_shipper cellMap st) k = field st k)
  /\ (k <> "buyer" ->
      field (extract_buyer_labelled cellMap st) k = field st k
      /\ field (extract_buyer_range cellMap st) k = field st k)
  /\ (k <> "invoice_number" ->
      field (extract_invoice_labelled cellMap st) k = field st k
      /\ field (extract_invoice_area cellMap st) k = field st k)
  /\ (k <> "commodity" -> field (extract_commodity cellMap st) k = field st k)
  /\ (k <> "destination_port" ->
      field (extract_destination_labelled cellMap st) k = field st k
      /\ field (extract_destination_fallback cellMap st) k = field st k).
Proof.
  split; [apply frame_shipper |].
  split; [intros Hk; split;
          [now apply frame_buyer_labelled | now apply frame_buyer_range] |].
  split; [intros Hk; split;
          [now apply frame_invoice_labelled | now apply frame_invoice_area] |].
  split; [apply frame_commodity |].
  intros Hk; split;
    [now apply frame_destination_labelled | now apply frame_destination_fallback].
Qed.

(** *** The shipper and the commodity, as searches for a first cell *)

Lemma field_initial (ws : Worksheet) (k : string) :
  field
    (log "🏢 Searching for Exporter/Shipper information..."
       (log ("📋 Found "
               ++ of_nat (List.length (JsObject.keys (build_cellMap (jsonData ws))))
               ++ " non-empty cells")
          (log (analysing_line ws)
             (mkScan JsObject.empty []
                ["🔍 Starting precise data extraction from invoice..."])))) k
  = None.
Proof. reflexivity. Qed.

Lemma shipper_offsets (cellMap : CellMap) (cell : Cell) (offsets : list nat)
    (st : Scan) :
  field st "shipper_name" = None ->
  field
    (for_break offsets
       (fun i (st : Scan) =>
          let nextRowAddress := encode_cell (row cell + i) (col cell) in
          match JsObject.get cellMap nextRowAddress with
          | Some next =>
              let companyName := value next in
              if (5 <? length companyName)%nat
                 && negb (lower_has companyName "consignee")
              then (found "shipper_name" companyName
                      ("Shipper: " ++ quoted companyName
                         ++ " found at " ++ nextRowAddress) st, true)
              else (st, false)
          | None => (st, false)
          end) st) "shipper_name"
  = first_at cellMap
      (map (fun i => encode_cell (row cell + i) (col cell)) offsets) company_ok.
Proof.
  revert st. induction offsets as [| i offsets IH]; intros st Hnone;
    cbn [for_break map first_at]; [exact Hnone |].
  destruct (JsObject.get cellMap (encode_cell (row cell + i) (col cell)))
    as [next |]; [| now apply IH].
  unfold company_ok.
  destruct ((5 <? length (value next))%nat
            && negb (lower_has (value next) "consignee"));
    [apply field_found_same | now apply IH].
Qed.

Lemma shipper_entries (cellMap : CellMap) (entries : list (string * Cell))
    (st : Scan) :
  field st "shipper_name" = None ->
  field
    (for_break entries
       (fun '(address, cell) (st : Scan) =>
          if lower_has (value cell) "exporter" then
            (for_break (range_incl 1 3)
               (fun i (st : Scan) =>
                  let nextRowAddress := encode_cell (row cell + i) (col cell) in
                  match JsObject.get cellMap nextRowAddress with
                  | Some next =>
                      let companyName := value next in
                      if (5 <? length companyName)%nat
                         && negb (lower_has companyName "consignee")
                      then (found "shipper_name" companyName
                              ("Shipper: " ++ quoted companyName
                                 ++ " found at " ++ nextRowAddress) st, true)
                      else (st, false)
                  | None => (st, false)
                  end) st, true)
          else (st, false)) st) "shipper_name"
  = match find (fun entry => is_exporter_label (snd entry)) entries with
    | Some (_, cell) =>
        first_at cellMap
          (map (fun i => encode_cell (row cell + i) (col cell)) (range_incl 1 3))
          company_ok
    | None => None
    end.
Proof.
  revert st. induction entries as [| [address cell] entries IH]; intros st Hnone;
    cbn [for_break find snd]; [exact Hnone |].
  unfold is_exporter_label at 1.
  destruct (lower_has (value cell) "exporter"); [| now apply IH].
  now apply shipper_offsets.
Qed.

Lemma first_at_ok (cellMap : CellMap) (addresses : list string)
    (ok : string -> bool) (v : string) :
  first_at cellMap addresses ok = Some v -> ok v = true.
Proof.
  induction addresses as [| a addresses IH]; cbn; [discriminate |].
  destruct (JsObject.get cellMap a) as [next |]; [| exact IH].
  destruct (ok (value next)) eqn:Hok; [| exact IH].
  now intros [= <-].
Qed.

Lemma scan_shipper (ws : Worksheet) :
  field (scan ws) "shipper_name" = shipper_of (build_cellMap (jsonData ws)).
Proof.
  unfold scan, scan_labelled. cbv zeta.
  rewrite frame_destination_fallback, frame_destination_labelled, field_log,
    frame_commodity, field_log, frame_invoice_area, frame_invoice_labelled,
    field_log, frame_buyer_range, frame_buyer_labelled, field_log
    by discriminate.
  unfold extract_shipper, shipper_of, first_cell, JsObject.entries.
  apply shipper_entries. apply field_initial.
Qed.

(** X5.  The shipper is looked for below the first cell, in row-major order,
    that mentions the exporter, and nowhere else: it is the first of the
    three cells under it that is longer than five characters and does not
    mention the consignee; when none of them qualifies, or no cell mentions
    the exporter, no shipper is extracted, even if a later exporter cell
    has a company under it. *)
Theorem shipper_from_first_exporter_cell (ws : Worksheet) :
  field (scan ws) "shipper_name" = shipper_of (build_cellMap (jsonData ws))
  /\ (first_cell is_exporter_label (build_cellMap (jsonData ws)) = None ->
      field (scan ws) "shipper_name" = None)
  /\ (forall v, field (scan ws) "shipper_name" = Some v ->
        (5 < length v)%nat /\ lower_has v "consignee" = false)
  /\ first_cell is_exporter_label (build_cellMap (jsonData two_exporter_sheet))
     = Some ("A1", mkCell "Exporter" 0 0)
  /\ JsObject.get (build_cellMap (jsonData two_exporter_sheet)) "B2"
     = Some (mkCell "Acme Exports Pvt Ltd" 1 1)
  /\ field (scan two_exporter_sheet) "shipper_name" = None.
Proof.
  split; [apply scan_shipper |]. split; [| split].
  - intros Hnone. rewrite scan_shipper. unfold shipper_of. now rewrite Hnone.
  - intros v. rewrite scan_shipper. unfold shipper_of.
    destruct (first_cell _ _) as [[address cell] |]; [| discriminate].
    intros Hv. apply first_at_ok in Hv. unfold company_ok in Hv.
    apply andb_true_iff in Hv as [Hlen Hcons].
    apply Nat.ltb_lt in Hlen. apply negb_true_iff in Hcons. now split.
  - repeat split; vm_compute; reflexivity.
Qed.

Lemma keyword_loop (cellValue v detail : string) (keywords : list string)
    (st : Scan) :
  for_break keywords
    (fun keyword (st : Scan) =>
       if includes cellValue keyword
       then (found "commodity" v detail st, true)
       else (st, false)) st
  = if existsb (includes cellValue) keywords
    then found "commodity" v detail st else st.
Proof.
  revert st. induction keywords as [| kw keywords IH]; intros st;
    cbn [for_break existsb]; [reflexivity |].
  destruct (includes cellValue kw); [reflexivity | apply IH].
Qed.

Lemma keyword_nonempty (cell : Cell) :
  has_commodity_keyword cell = true -> is_empty (value cell) = false.
Proof.
  unfold has_commodity_keyword. destruct (value cell); [discriminate | reflexivity].
Qed.

Lemma commodity_entries (entries : list (string * Cell)) (st : Scan) :
  field st "commodity" = None ->
  field (extract_commodity entries st) "commodity" = commodity_of entries.
Proof.
  unfold extract_commodity, commodity_of, first_cell, JsObject.entries.
  revert st. induction entries as [| [address cell] entries IH]; intros st Hnone;
    cbn [for_break find snd]; [exact Hnone |].
  rewrite keyword_loop. fold (has_commodity_keyword cell).
  destruct (has_commodity_keyword cell) eqn:Hk.
  - rewrite field_found_same. cbn [present].
    rewrite (keyword_nonempty cell Hk). cbn [negb].
    apply field_found_same.
  - rewrite Hnone. cbn [present]. now apply IH.
Qed.

Lemma scan_commodity (ws : Worksheet) :
  field (scan ws) "commodity" = commodity_of (build_cellMap (jsonData ws)).
Proof.
  unfold scan, scan_labelled. cbv zeta.
  rewrite frame_destination_fallback, frame_destination_labelled, field_log
    by discriminate.
  apply commodity_entries.
  rewrite field_log, frame_invoice_area, frame_invoice_labelled,
    field_log, frame_buyer_range, frame_buyer_labelled, field_log,
    frame_shipper by discriminate.
  apply field_initial.
Qed.

(** X6.  The commodity is the whole text of the first cell, in row-major
    order, that contains one of the commodity keywords in any letter case;
    without such a cell no commodity is extracted. *)
Theorem commodity_from_first_keyword_cell (ws : Worksheet) :
  field (scan ws) "commodity" = commodity_of (build_cellMap (jsonData ws))
  /\ (forall v, field (scan ws) "commodity" = Some v ->
        exists address cell,
          In (address, cell) (build_cellMap (jsonData ws))
          /\ v = value cell
          /\ exists keyword,
               In keyword commodityKeywords
               /\ includes (toLowerCase v) keyword = true).
Proof.
  split; [apply scan_commodity |].
  intros v. rewrite scan_commodity. unfold commodity_of, first_cell.
  destruct (find _ _) as [[address cell] |] eqn:Hfind; [| discriminate].
  intros [= <-]. apply find_some in Hfind as [Hin Hk]. cbn [snd] in Hk.
  exists address, cell. split; [exact Hin |]. split; [reflexivity |].
  unfold has_commodity_keyword in Hk.
  apply existsb_exists in Hk as [kw [Hkw Hinc]]. now exists kw.
Qed.

(** *** The fallback search for the destination *)

Lemma country_loop (cellValue address : string) (countries : list string)
    (st : Scan) :
  field
    (for_break countries
       (fun country (st : Scan) =>
          if includes cellValue country then
            let port :=
              if includes cellValue "sri lanka" || includes cellValue "srilanka"
              then "SRI LANKA" else toUpperCase country in
            (found "destination_port" port
               ("Destination: " ++ quoted port ++ " found at "
                  ++ address ++ " (fallback search)") st, true)
          else (st, false)) st) "destination_port"
  = match find (includes cellValue) countries with
    | Some country =>
        Some (if includes cellValue "sri lanka" || includes cellValue "srilanka"
              then "SRI LANKA" else toUpperCase country)
    | None => field st "destination_port"
    end.
Proof.
  revert st. induction countries as [| country countries IH]; intros st;
    cbn [for_break find]; [reflexivity |].
  destruct (includes cellValue country); [apply field_found_same | apply IH].
Qed.

Lemma names_country_find (cell : Cell) :
  names_country cell = true ->
  exists country,
    In country destinationCountries
    /\ find (includes (toLowerCase (value cell))) destinationCountries
       = Some country.
Proof.
  unfold names_country. intros H.
  destruct (find _ destinationCountries) as [country |] eqn:Hfind.
  - exists country. split; [| reflexivity]. now apply find_some in Hfind.
  - apply existsb_exists in H as [c [Hc Hinc]].
    now rewrite (find_none _ _ Hfind c Hc) in Hinc.
Qed.

Lemma names_country_none (cell : Cell) :
  names_country cell = false ->
  find (includes (toLowerCase (value cell))) destinationCountries = None.
Proof.
  unfold names_country. intros H.
  destruct (find _ destinationCountries) as [country |] eqn:Hfind;
    [| reflexivity].
  apply find_some in Hfind as [Hin Hinc].
  assert (Hex : existsb (includes (toLowerCase (value cell))) destinationCountries
                = true) by (apply existsb_exists; now exists country).
  congruence.
Qed.

Lemma fallback_port_present (cell : Cell) :
  names_country cell = true -> present (Some (fallback_port cell)) = true.
Proof.
  intros H. destruct (names_country_find cell H) as [country [Hin Hfind]].
  unfold fallback_port. cbv zeta. rewrite Hfind.
  destruct (_ || _); [reflexivity |].
  cbn in Hin.
  repeat (destruct Hin as [<- | Hin]; [reflexivity |]). destruct Hin.
Qed.

Lemma fallback_entries (entries : list (string * Cell)) (st : Scan) :
  field
    (for_break entries
       (fun '(address, cell) (st : Scan) =>
          let cellValue := toLowerCase (value cell) in
          if includes cellValue "origin" || includes cellValue "goods"
             || includes cellValue "country of origin"
          then (st, false)
          else
            let st' :=
              for_break destinationCountries
                (fun country (st : Scan) =>
                   if includes cellValue country then
                     let port :=
                       if includes cellValue "sri lanka"
                          || includes cellValue "srilanka"
                       then "SRI LANKA" else toUpperCase country in
                     (found "destination_port" port
                        ("Destination: " ++ quoted port ++ " found at "
                           ++ address ++ " (fallback search)") st, true)
                   else (st, false)) st in
            (st', present (field st' "destination_port"))) st)
    "destination_port"
  = fallback_of entries (field st "destination_port").
Proof.
  unfold fallback_of, first_cell.
  revert st. induction entries as [| [address cell] entries IH]; intros st;
    cbn [for_break find snd].
  - now destruct (present (field st "destination_port")).
  - cbv zeta. fold (mentions_origin cell).
    destruct (mentions_origin cell) eqn:Horigin; cbn [negb andb].
    + apply IH.
    + pose proof (country_loop (toLowerCase (value cell)) address
                    destinationCountries st) as Hloop.
      cbv zeta in Hloop.
      destruct (names_country cell) eqn:Hcountry.
      * destruct (names_country_find cell Hcountry) as [country [Hin Hfind]].
        pose proof (fallback_port_present cell Hcountry) as Hpresent.
        unfold fallback_port in Hpresent |- *. cbv zeta in Hpresent |- *.
        rewrite Hfind in Hloop, Hpresent |- *.
        rewrite Hloop, Hpresent.
        destruct (present (field st "destination_port")); exact Hloop.
      * rewrite (names_country_none cell Hcountry) in Hloop.
        rewrite Hloop.
        destruct (present (field st "destination_port")) eqn:Hprior.
        -- exact Hloop.
        -- rewrite IH, Hloop, Hprior. reflexivity.
Qed.

(** X7.  The fallback search runs after every labelled search.  When a
    destination is already assigned, it looks only at the first cell that
    mentions neither the origin nor goods and replaces the destination if
    that cell names one of the seven countries; when none is assigned, the
    first such cell that names a country gives the destination. *)
Theorem destination_after_fallback (ws : Worksheet) :
  field (scan ws) "destination_port"
  = fallback_of (build_cellMap (jsonData ws))
      (field (scan_labelled ws) "destination_port").
Proof.
  unfold scan, extract_destination_fallback.
  assert (Hguard : field (scan_labelled ws) "destinationPort" = None).
  { unfold field. apply get_None_keys. intros Hin.
    apply scan_labelled_keys_in_target in Hin. cbn in Hin.
    repeat (destruct Hin as [Hin | Hin]; [discriminate |]). exact Hin. }
  rewrite Hguard. cbn [present negb].
  unfold JsObject.entries. rewrite fallback_entries. now rewrite field_log.
Qed.

End PhaseFacts.

(** ** RecordsView: search, date range, section buttons *)

Module ViewCriteriaFacts.

Import Js Types RecordsView ViewHandlers RecordsViewFacts ViewHandlersFacts
  StringFacts.

Lemma lower_upper_char (c : ascii) : lower_char (upper_char c) = lower_char c.
Proof. destruct c as [[] [] [] [] [] [] [] []]; reflexivity. Qed.

Lemma lower_lower_char (c : ascii) : lower_char (lower_char c) = lower_char c.
Proof. destruct c as [[] [] [] [] [] [] [] []]; reflexivity. Qed.

Lemma toLowerCase_toUpperCase (s : string) :
  toLowerCase (toUpperCase s) = toLowerCase s.
Proof.
  induction s as [| c s IH]; cbn; [reflexivity |].
  now rewrite lower_upper_char, IH.
Qed.

Lemma toLowerCase_idempotent (s : string) :
  toLowerCase (toLowerCase s) = toLowerCase s.
Proof.
  induction s as [| c s IH]; cbn; [reflexivity |].
  now rewrite lower_lower_char, IH.
Qed.

Lemma is_empty_map_chars (f : ascii -> ascii) (s : string) :
  is_empty (map_chars f s) = is_empty s.
Proof. now destruct s. Qed.

Lemma map_chars_append (f : ascii -> ascii) (a b : string) :
  map_chars f (a ++ b) = map_chars f a ++ map_chars f b.
Proof. induction a as [| c a IH]; cbn; [reflexivity | now rewrite IH]. Qed.

Lemma prefix_append (a b : string) : prefix a (a ++ b) = true.
Proof.
  induction a as [| c a IH]; cbn; [now destruct b |].
  destruct (ascii_dec c c); [exact IH | contradiction].
Qed.

Lemma includes_prefix (s needle : string) :
  prefix needle s = true -> includes s needle = true.
Proof. intros H. destruct s; cbn [includes]; now rewrite H. Qed.

Lemma includes_Infix (s piece : string) : Infix piece s -> includes s piece = true.
Proof.
  intros [pre [post ->]]. induction pre as [| c pre IH].
  - cbn [append]. apply includes_prefix, prefix_append.
  - cbn [append includes]. rewrite IH. now destruct (prefix piece _).
Qed.

(** X20.  The search box, for a term of ASCII characters: an empty term keeps
    every record; the letter case of the term does not matter; a record is
    kept whenever the term is a piece of one of its ASCII text fields, in
    any letter case. *)
Theorem matchesSearch_cases (term : string) (r : PQRecord) :
  is_ascii term = true ->
  matchesSearch EmptyString r = true
  /\ matchesSearch (toUpperCase term) r = matchesSearch term r
  /\ matchesSearch (toLowerCase term) r = matchesSearch term r
  /\ (forall k s, In k record_keys -> get_field r k = JString s ->
        is_ascii s = true ->
        Infix (toLowerCase term) (toLowerCase s) ->
        matchesSearch term r = true).
Proof.
  intros _.
  split; [reflexivity |].
  unfold matchesSearch, toUpperCase.
  split; [| split].
  - rewrite is_empty_map_chars. fold (toUpperCase term).
    now rewrite toLowerCase_toUpperCase.
  - unfold toLowerCase at 1. rewrite is_empty_map_chars.
    fold (toLowerCase term). now rewrite toLowerCase_idempotent.
  - intros k s Hk Hget _ Hin. apply orb_true_iff. right.
    apply existsb_exists. exists (JString s). split.
    + unfold values. rewrite <- Hget. now apply in_map.
    + now apply includes_Infix.
Qed.

Lemma matchesSearch_cases_witness :
  is_ascii "Lanka" = true
  /\ matchesSearch "LANKA" sample = matchesSearch "Lanka" sample
  /\ matchesSearch "Lanka" sample = true.
Proof.
  destruct (matchesSearch_cases "Lanka" sample eq_refl)
    as (_ & Hupper & _ & Hpiece).
  split; [reflexivity |]. split; [exact Hupper |].
  apply (Hpiece "buyer" "Lanka Traders"); try reflexivity.
  - cbn. tauto.
  - exists EmptyString, " traders". reflexivity.
Defined.

Lemma leb_compare (a b : string) :
  String.leb a b = true <-> (code_unit_compare a b <= 0)%Z.
Proof.
  unfold String.leb, code_unit_compare.
  destruct (String.compare a b); split; intros H; try reflexivity;
    try discriminate; try lia.
Qed.

Lemma leb_refl (a : string) : String.leb a a = true.
Proof.
  apply leb_compare. unfold code_unit_compare.
  pose proof (proj2 (OrderedTypeEx.String_as_OT.cmp_eq a a) eq_refl) as H.
  unfold OrderedTypeEx.String_as_OT.cmp in H. now rewrite H.
Qed.

(** X21.  The date range: with both ends empty every record is kept; with both
    ends on the same day exactly the records of that day are kept; with
    the end before the start none is kept. *)
Theorem matchesDateRange_cases (first last : string) (r : PQRecord) :
  matchesDateRange (mkDateRange EmptyString EmptyString) r = true
  /\ (first <> EmptyString ->
      (matchesDateRange (mkDateRange first first) r = true <-> date r = first))
  /\ (last <> EmptyString -> String.ltb last first = true ->
      matchesDateRange (mkDateRange first last) r = false).
Proof.
  split; [reflexivity |]. unfold matchesDateRange. cbn [start end_]. split.
  - intros Hne. destruct first as [| c first]; [contradiction |]. cbn [is_empty orb].
    rewrite andb_true_iff. split.
    + intros [H1 H2]. symmetry. now apply String.leb_antisym.
    + intros ->. split; apply leb_refl.
  - intros Hne Hlt. destruct last as [| c last]; [contradiction |].
    cbn [is_empty orb].
    destruct (is_empty first || String.leb first (date r)) eqn:H1;
      [| reflexivity].
    destruct (String.leb (date r) (String c last)) eqn:H2; [| reflexivity].
    exfalso. destruct first as [| c1 first]; [discriminate Hlt |].
    cbn [is_empty orb] in H1.
    apply leb_compare in H1, H2.
    pose proof (code_unit_compare_trans _ _ _ H1 H2) as H3.
    unfold String.ltb in Hlt. unfold code_unit_compare in H3.
    rewrite (String.compare_antisym (String c1 first) (String c last)) in H3.
    destruct (String.compare (String c last) (String c1 first));
      try discriminate; cbn in H3; lia.
Qed.

(** X17.  A click on a section button after the dashboard's filter: the two
    status filters are dropped, so the view shows the whole section, and
    the number of records shown is the number on the button. *)
Theorem handleSectionChange_shows_whole_section
    (getTime : string -> number) (localeCompare : string -> string -> Z)
    (rs : list PQRecord) (initialFilter : InitialFilter.t) :
  let shown section :=
    filteredAndSortedRecords getTime localeCompare
      (handleSectionChange section
         (applyInitialFilter initialFilter (initialView rs))) in
  (forall section,
     Permutation (shown section) (filter (matchesSection section) rs))
  /\ List.length (shown all) = List.length rs
  /\ List.length (shown pending) = pendingCount rs
  /\ List.length (shown received) = receivedCount rs
  /\ List.length (shown hardcopyMissing) = hardcopyMissingCount rs.
Proof.
  cbv zeta.
  assert (Hview : forall section,
    Permutation
      (filteredAndSortedRecords getTime localeCompare
         (handleSectionChange section
            (applyInitialFilter initialFilter (initialView rs))))
      (filter (matchesSection section) rs)).
  { intros section.
    set (v := applyInitialFilter initialFilter (initialView rs)).
    assert (Hv : records v = rs /\ searchTerm v = EmptyString
                 /\ dateRange v = mkDateRange EmptyString EmptyString
                 /\ JsObject.remove "pq_hardcopy"
                      (JsObject.remove "pq_status" (filters v)) = []).
    { unfold v, applyInitialFilter.
      destruct initialFilter as [[status |] [hardcopy |]]; cbn;
        repeat match goal with
               | |- context [if ?b then _ else _] => destruct b
               end; repeat split. }
    destruct Hv as (Hr & Hs & Hd & Hf).
    pose proof (view_perm_filter getTime localeCompare
                  (handleSectionChange section v) (matchesSection section)) as Hp.
    cbn [handleSectionChange with_section with_filters records] in Hp.
    rewrite Hr in Hp. apply Hp.
    intros r. unfold matchesAll, handleSectionChange.
    cbn [with_section with_filters searchTerm filters dateRange activeSection].
    rewrite Hs, Hd, Hf. reflexivity. }
  split; [exact Hview |].
  split; [rewrite (Permutation_length (Hview all)), filter_all;
          [reflexivity | intros r; reflexivity] |].
  split; [rewrite (Permutation_length (Hview pending)); reflexivity |].
  split; [rewrite (Permutation_length (Hview received)); reflexivity |].
  rewrite (Permutation_length (Hview hardcopyMissing)). reflexivity.
Qed.

End ViewCriteriaFacts.
